(** * Skill Swap: request lifecycle, ratings, chat and role resolution

    A shallow embedding of the parts of the Skill Swap repository that carry
    its invariants:

    - the relational schema, its constraints, row-level-security policies and
      triggers ([supabase/migrations/*.sql]);
    - the page handlers that write to it ([Networks.tsx] (the Requests page),
      [Chat], [Rate.tsx], [CreateRequest.tsx]);
    - the REST controller of the Express prototype ([createSwapRequest]);
    - the role resolution of the authentication hook ([useAuth.tsx]).

    Tables are lists of rows in insertion order.  A statement runs on behalf
    of a caller ([auth.uid()]) at a statement time ([now()]) and either
    yields the next database or a PostgreSQL error. *)

From Stdlib Require Import ZArith QArith Lia String Ascii List.
From Stdlib Require Import Sorted Permutation.
From stdpp Require Import base decidable option list sorting strings gmap.

Set Default Proof Using "Type".

(** ** Schema *)

(** The values of the [UUID] columns, written as strings. *)
Definition uuid : Type := string.
Bind Scope string_scope with uuid.

(** [TIMESTAMP WITH TIME ZONE], as a count of microseconds. *)
Definition timestamptz : Type := Z.
Bind Scope Z_scope with timestamptz.

(** [CREATE TYPE public.app_role AS ENUM ('admin', 'user')] *)
Inductive app_role : Type := admin | user.

(** [CREATE TYPE public.request_status AS ENUM (...)] *)
Inductive request_status : Type :=
  pending | accepted | completed | cancelled | rejected.

#[global] Instance app_role_eq_dec : EqDecision app_role.
Proof. solve_decision. Defined.

#[global] Instance request_status_eq_dec : EqDecision request_status.
Proof. solve_decision. Defined.

(** [DECIMAL(3,2)]: a count of hundredths, of absolute value below 1000. *)
Definition decimal_3_2 : Type := Z.
Bind Scope Z_scope with decimal_3_2.

Module profiles.
Record row : Type := {
  user_id : uuid;
  full_name : string;
  is_public : bool;
  is_banned : bool;
  updated_at : timestamptz;
  successful_swaps : Z;
  average_rating : decimal_3_2
}.
End profiles.

Module user_roles.
Record row : Type := {
  user_id : uuid;
  role : app_role
}.
End user_roles.

Module skills.
Record row : Type := {
  id : uuid;
  user_id : uuid;
  title : string;
  is_offering : bool;
  is_approved : bool
}.
End skills.

Module skill_requests.
Record row : Type := {
  id : uuid;
  requester_id : uuid;
  provider_id : uuid;
  offered_skill_id : uuid;
  wanted_skill_id : uuid;
  message : option string;
  status : request_status;
  created_at : timestamptz;
  updated_at : timestamptz
}.
End skill_requests.

Module ratings.
Record row : Type := {
  id : uuid;
  request_id : uuid;
  rater_id : uuid;
  rated_id : uuid;
  rating : Z;
  feedback : option string;
  created_at : timestamptz
}.
End ratings.

Module messages.
Record row : Type := {
  id : uuid;
  skill_request_id : uuid;
  sender_id : uuid;
  content : string;
  created_at : timestamptz;
  is_read : bool
}.
End messages.

(** The database: [auth.users] (the identity provider's table, of which only
    the keys matter here) and the public tables. *)
Record database : Type := {
  auth_users : list uuid;
  tbl_profiles : list profiles.row;
  tbl_user_roles : list user_roles.row;
  tbl_skills : list skills.row;
  tbl_skill_requests : list skill_requests.row;
  tbl_ratings : list ratings.row;
  tbl_messages : list messages.row
}.

Definition empty_database : database :=
  {| auth_users := []; tbl_profiles := []; tbl_user_roles := [];
     tbl_skills := []; tbl_skill_requests := []; tbl_ratings := [];
     tbl_messages := [] |}.

Definition set_profiles (ps : list profiles.row) (db : database) : database :=
  {| auth_users := auth_users db; tbl_profiles := ps;
     tbl_user_roles := tbl_user_roles db; tbl_skills := tbl_skills db;
     tbl_skill_requests := tbl_skill_requests db;
     tbl_ratings := tbl_ratings db; tbl_messages := tbl_messages db |}.

Definition set_skill_requests (rs : list skill_requests.row) (db : database)
  : database :=
  {| auth_users := auth_users db; tbl_profiles := tbl_profiles db;
     tbl_user_roles := tbl_user_roles db; tbl_skills := tbl_skills db;
     tbl_skill_requests := rs;
     tbl_ratings := tbl_ratings db; tbl_messages := tbl_messages db |}.

Definition set_ratings (rs : list ratings.row) (db : database) : database :=
  {| auth_users := auth_users db; tbl_profiles := tbl_profiles db;
     tbl_user_roles := tbl_user_roles db; tbl_skills := tbl_skills db;
     tbl_skill_requests := tbl_skill_requests db;
     tbl_ratings := rs; tbl_messages := tbl_messages db |}.

Definition set_messages (ms : list messages.row) (db : database) : database :=
  {| auth_users := auth_users db; tbl_profiles := tbl_profiles db;
     tbl_user_roles := tbl_user_roles db; tbl_skills := tbl_skills db;
     tbl_skill_requests := tbl_skill_requests db;
     tbl_ratings := tbl_ratings db; tbl_messages := ms |}.

(** ** Statement results *)

Inductive pg_error : Type :=
  | row_level_security      (* new row violates row-level security policy *)
  | unique_violation
  | check_violation
  | foreign_key_violation
  | numeric_value_out_of_range.

Inductive response (A : Type) : Type :=
  | ok (a : A)
  | failed (e : pg_error).
Arguments ok {A} a.
Arguments failed {A} e.

Definition is_ok {A} (r : response A) : bool :=
  match r with ok _ => true | failed _ => false end.

(** ** Row-level security

    [public.is_admin(user_uuid)]: a [SECURITY DEFINER] function, so it reads
    [user_roles] unfiltered. *)
Definition is_admin (db : database) (user_uuid : uuid) : bool :=
  existsb (fun r => bool_decide (user_roles.user_id r = user_uuid)
                    && bool_decide (user_roles.role r = admin))
          (tbl_user_roles db).

Module policy.

(** "Users can view their own requests" *)
Definition skill_requests_select (db : database) (uid : uuid)
    (r : skill_requests.row) : bool :=
  bool_decide (uid = skill_requests.requester_id r)
  || bool_decide (uid = skill_requests.provider_id r)
  || is_admin db uid.

(** "Users can create requests" *)
Definition skill_requests_insert (uid : uuid) (r : skill_requests.row)
    : bool :=
  bool_decide (uid = skill_requests.requester_id r).

(** "Users can update their own requests": the [USING] expression, which
    PostgreSQL also applies to the updated row as the policy has no
    [WITH CHECK] of its own. *)
Definition skill_requests_update (db : database) (uid : uuid)
    (r : skill_requests.row) : bool :=
  bool_decide (uid = skill_requests.requester_id r)
  || bool_decide (uid = skill_requests.provider_id r)
  || is_admin db uid.

(** "Only admins can manage roles" ([FOR ALL]): its [USING] expression is
    also the check on a new row. *)
Definition user_roles_all (db : database) (uid : uuid) : bool :=
  is_admin db uid.

(** "Users can view ratings for their requests" *)
Definition ratings_select (db : database) (uid : uuid) (r : ratings.row)
    : bool :=
  bool_decide (uid = ratings.rater_id r)
  || bool_decide (uid = ratings.rated_id r)
  || is_admin db uid.

(** "Users can create ratings for completed requests" *)
Definition ratings_insert (uid : uuid) (r : ratings.row) : bool :=
  bool_decide (uid = ratings.rater_id r).

(** "Public profiles are viewable by everyone" *)
Definition profiles_select (db : database) (uid : uuid) (p : profiles.row)
    : bool :=
  profiles.is_public p
  || bool_decide (uid = profiles.user_id p)
  || is_admin db uid.

(** "Users can update their own profile" *)
Definition profiles_update (db : database) (uid : uuid) (p : profiles.row)
    : bool :=
  bool_decide (uid = profiles.user_id p) || is_admin db uid.

(** The [EXISTS] subquery shared by the two [messages] policies.  It reads
    [skill_requests] under the caller's own select policy, which every
    row with the caller as requester or provider passes. *)
Definition party_to_request (db : database) (uid : uuid) (request : uuid)
    : bool :=
  existsb (fun sr => skill_requests_select db uid sr
                     && bool_decide (skill_requests.id sr = request)
                     && (bool_decide (skill_requests.requester_id sr = uid)
                         || bool_decide (skill_requests.provider_id sr = uid)))
          (tbl_skill_requests db).

(** "Users can view messages from their conversations" *)
Definition messages_select (db : database) (uid : uuid) (m : messages.row)
    : bool :=
  bool_decide (messages.sender_id m = uid)
  || party_to_request db uid (messages.skill_request_id m).

(** "Users can send messages in their conversations" *)
Definition messages_insert (db : database) (uid : uuid) (m : messages.row)
    : bool :=
  bool_decide (messages.sender_id m = uid)
  && party_to_request db uid (messages.skill_request_id m).

End policy.


(** ** Statements

    Each statement takes the statement time [now], the caller [uid] and,
    for an insert, the key that [gen_random_uuid()] draws. *)

Definition touch_status (s : request_status) (now : timestamptz)
    (r : skill_requests.row) : skill_requests.row :=
  {| skill_requests.id := skill_requests.id r;
     skill_requests.requester_id := skill_requests.requester_id r;
     skill_requests.provider_id := skill_requests.provider_id r;
     skill_requests.offered_skill_id := skill_requests.offered_skill_id r;
     skill_requests.wanted_skill_id := skill_requests.wanted_skill_id r;
     skill_requests.message := skill_requests.message r;
     skill_requests.status := s;
     skill_requests.created_at := skill_requests.created_at r;
     (* trigger update_skill_requests_updated_at *)
     skill_requests.updated_at := now |}.

(** The rows that [UPDATE skill_requests ... WHERE id = request] reaches:
    those that match the filter and pass the caller's select and update
    policies.  A row that does not pass is skipped without an error. *)
Definition update_reaches (db : database) (uid request : uuid)
    (r : skill_requests.row) : bool :=
  bool_decide (skill_requests.id r = request)
  && policy.skill_requests_select db uid r
  && policy.skill_requests_update db uid r.

(** [supabase.from('skill_requests').update({ status: s }).eq('id', request)] *)
Definition update_status (now : timestamptz) (uid request : uuid)
    (s : request_status) (db : database) : response database :=
  let rows := tbl_skill_requests db in
  if forallb (fun r => implb (update_reaches db uid request r)
                         (policy.skill_requests_update db uid
                            (touch_status s now r))) rows
  then ok (set_skill_requests
             ((fun r => if update_reaches db uid request r
                        then touch_status s now r else r) <$> rows) db)
  else failed row_level_security.

(** [supabase.from('skill_requests').insert({...})]: the policy's
    [WITH CHECK], then the primary key, then the foreign keys. *)
Definition insert_skill_request (now : timestamptz) (uid fresh : uuid)
    (requester provider offered wanted : uuid) (msg : option string)
    (s : request_status) (db : database) : response database :=
  let NEW := {| skill_requests.id := fresh;
                skill_requests.requester_id := requester;
                skill_requests.provider_id := provider;
                skill_requests.offered_skill_id := offered;
                skill_requests.wanted_skill_id := wanted;
                skill_requests.message := msg;
                skill_requests.status := s;
                skill_requests.created_at := now;
                skill_requests.updated_at := now |} in
  if negb (policy.skill_requests_insert uid NEW) then failed row_level_security
  else if bool_decide (fresh ∈ skill_requests.id <$> tbl_skill_requests db)
  then failed unique_violation
  else if negb (bool_decide (requester ∈ auth_users db)
                && bool_decide (provider ∈ auth_users db)
                && bool_decide (offered ∈ skills.id <$> tbl_skills db)
                && bool_decide (wanted ∈ skills.id <$> tbl_skills db))
  then failed foreign_key_violation
  else ok (set_skill_requests (tbl_skill_requests db ++ [NEW]) db).

(** *** Aggregates of [update_profile_stats] *)

Definition sum_Z (xs : list Z) : Z := foldr Z.add 0%Z xs.

(** [AVG(rating)]: NULL over no rows, the exact mean otherwise.  (PostgreSQL
    carries the quotient to sixteen significant digits at least; for the
    second decimal kept below, this differs from the exact mean only when
    more than 10^13 ratings are averaged.) *)
Definition AVG (xs : list Z) : option Q :=
  match xs with
  | [] => None
  | _ :: _ => Some (sum_Z xs # Pos.of_nat (length xs))
  end.

(** [COUNT(DISTINCT request_id)] *)
Definition COUNT_DISTINCT (xs : list uuid) : Z :=
  Z.of_nat (length (remove_dups xs)).

(** Rounding of a numeric to the nearest integer, ties away from zero. *)
Definition round_half_away (q : Q) : Z :=
  let n := Qnum q in
  let d := Z.pos (Qden q) in
  (Z.sgn n * ((2 * Z.abs n + d) / (2 * d)))%Z.

(** Assignment to a [DECIMAL(3,2)] column: two fractional digits are kept,
    and a value that needs more than one integer digit is refused. *)
Definition to_decimal_3_2 (q : Q) : option decimal_3_2 :=
  let h := round_half_away (q * 100) in
  if (Z.abs h <? 1000)%Z then Some h else None.

(** The numeric value a [DECIMAL(3,2)] stands for. *)
Definition decimal_value (d : decimal_3_2) : Q := d # 100.

(** Assignment to an [INTEGER] column. *)
Definition to_integer (z : Z) : option Z :=
  if ((- 2 ^ 31 <=? z) && (z <? 2 ^ 31))%Z then Some z else None.

Definition with_stats (a : decimal_3_2) (n : Z) (now : timestamptz)
    (p : profiles.row) : profiles.row :=
  {| profiles.user_id := profiles.user_id p;
     profiles.full_name := profiles.full_name p;
     profiles.is_public := profiles.is_public p;
     profiles.is_banned := profiles.is_banned p;
     (* trigger update_profiles_updated_at *)
     profiles.updated_at := now;
     profiles.successful_swaps := n;
     profiles.average_rating := a |}.

(** The ratings with [rated_id = rated] that a query run for [uid] reads. *)
Definition ratings_received (db : database) (uid rated : uuid)
    : list ratings.row :=
  filter (fun r => ratings.rated_id r = rated)
         (filter (fun r => Is_true (policy.ratings_select db uid r))
                 (tbl_ratings db)).

(** Trigger function [update_profile_stats()].  PostgreSQL runs a function
    with the rights of its caller unless it is declared [SECURITY DEFINER];
    this one is not ([handle_new_user] and [is_admin] are), so row-level
    security applies to its statements as to the caller's own: the
    subqueries read [ratings] through the caller's select policy and the
    [UPDATE] reaches only the profile rows the caller may select and update.
    The new values are computed only when a row is reached. *)
Definition update_profile_stats (now : timestamptz) (uid : uuid)
    (NEW : ratings.row) (db : database) : response database :=
  let received := ratings_received db uid (ratings.rated_id NEW) in
  let reaches p :=
    bool_decide (profiles.user_id p = ratings.rated_id NEW)
    && policy.profiles_select db uid p
    && policy.profiles_update db uid p in
  if existsb reaches (tbl_profiles db) then
    match to_decimal_3_2 (default 0%Q (AVG (ratings.rating <$> received))),
          to_integer (COUNT_DISTINCT (ratings.request_id <$> received)) with
    | Some a, Some n =>
        ok (set_profiles
              ((fun p => if reaches p then with_stats a n now p else p)
                 <$> tbl_profiles db) db)
    | _, _ => failed numeric_value_out_of_range
    end
  else ok db.

(** [supabase.from('ratings').insert({...})]: the conversion of the number
    sent for the [INTEGER] column [rating] (a value outside 32 bits is
    refused there, before any check of the row), the policy's [WITH CHECK],
    the [CHECK] on [rating], the primary key and
    [UNIQUE(request_id, rater_id)], the foreign keys, and then the
    [AFTER INSERT] trigger [update_profile_stats_trigger], in the transaction
    of the insert: when the trigger fails nothing is inserted. *)
Definition insert_rating (now : timestamptz) (uid fresh : uuid)
    (request rater rated : uuid) (score : Z) (fb : option string)
    (db : database) : response database :=
  let NEW := {| ratings.id := fresh;
                ratings.request_id := request;
                ratings.rater_id := rater;
                ratings.rated_id := rated;
                ratings.rating := score;
                ratings.feedback := fb;
                ratings.created_at := now |} in
  if negb ((- 2 ^ 31 <=? score) && (score <? 2 ^ 31))%Z
  then failed numeric_value_out_of_range
  else if negb (policy.ratings_insert uid NEW) then failed row_level_security
  else if negb ((1 <=? score) && (score <=? 5))%Z then failed check_violation
  else if bool_decide (fresh ∈ ratings.id <$> tbl_ratings db)
          || bool_decide ((request, rater) ∈
               (fun r => (ratings.request_id r, ratings.rater_id r))
                 <$> tbl_ratings db)
  then failed unique_violation
  else if negb (bool_decide (request ∈
                               skill_requests.id <$> tbl_skill_requests db)
                && bool_decide (rater ∈ auth_users db)
                && bool_decide (rated ∈ auth_users db))
  then failed foreign_key_violation
  else update_profile_stats now uid NEW
         (set_ratings (tbl_ratings db ++ [NEW]) db).

(** [supabase.from('messages').insert({...})]; [created_at] is left to its
    default [now()], [is_read] to [false]. *)
Definition insert_message (now : timestamptz) (uid fresh : uuid)
    (request sender : uuid) (text : string) (db : database)
    : response database :=
  let NEW := {| messages.id := fresh;
                messages.skill_request_id := request;
                messages.sender_id := sender;
                messages.content := text;
                messages.created_at := now;
                messages.is_read := false |} in
  if negb (policy.messages_insert db uid NEW) then failed row_level_security
  else if bool_decide (fresh ∈ messages.id <$> tbl_messages db)
  then failed unique_violation
  else if negb (bool_decide (request ∈
                               skill_requests.id <$> tbl_skill_requests db))
  then failed foreign_key_violation
  else ok (set_messages (tbl_messages db ++ [NEW]) db).

(** The order of [ORDER BY created_at ASC]. *)
Definition created_before (m1 m2 : messages.row) : Prop :=
  (messages.created_at m1 <= messages.created_at m2)%Z.

#[global] Instance created_before_dec m1 m2 : Decision (created_before m1 m2).
Proof. unfold created_before. apply _. Defined.

(** The messages of a request a select run for [uid] reads, in the order of
    the table. *)
Definition conversation (uid request : uuid) (db : database)
    : list messages.row :=
  filter (fun m => messages.skill_request_id m = request)
         (filter (fun m => Is_true (policy.messages_select db uid m))
                 (tbl_messages db)).

(** [supabase.from('messages').select('*').eq('skill_request_id', request)
      .order('created_at', { ascending: true })] *)
Definition select_messages (uid request : uuid) (db : database)
    : list messages.row :=
  merge_sort created_before (conversation uid request db).


(** Trigger function [handle_new_user()] ([SECURITY DEFINER]), fired by the
    identity provider's insert into [auth.users]: a profile with the column
    defaults and a role row chosen by the sign-up metadata.

    This is the body of the function with the type of its variable
    [user_role] resolved to [public.app_role].  The migration declares the
    variable as [app_role], without the schema, in a function that sets
    [search_path = '']: as declared, PostgreSQL does not find the type, and
    the function, and with it the sign-up, fails ([undefined_object]).  The
    sign-ups of a history are those of a database where the type resolves;
    they can only add to the databases the statements lead to. *)
Definition handle_new_user (now : timestamptz) (new_id : uuid)
    (meta_full_name meta_role : option string) (db : database)
    : response database :=
  if bool_decide (new_id ∈ auth_users db) then failed unique_violation
  else if bool_decide (new_id ∈ profiles.user_id <$> tbl_profiles db)
  then failed unique_violation
  else
    let user_role :=
      if bool_decide (meta_role = Some "admin"%string) then admin else user in
    if bool_decide ((new_id, user_role) ∈
         (fun r => (user_roles.user_id r, user_roles.role r))
           <$> tbl_user_roles db)
    then failed unique_violation
    else ok {| auth_users := auth_users db ++ [new_id];
               tbl_profiles := tbl_profiles db ++
                 [{| profiles.user_id := new_id;
                     profiles.full_name :=
                       default "New User"%string meta_full_name;
                     profiles.is_public := true;
                     profiles.is_banned := false;
                     profiles.updated_at := now;
                     profiles.successful_swaps := 0%Z;
                     profiles.average_rating := 0%Z |}];
               tbl_user_roles := tbl_user_roles db ++
                 [{| user_roles.user_id := new_id;
                     user_roles.role := user_role |}];
               tbl_skills := tbl_skills db;
               tbl_skill_requests := tbl_skill_requests db;
               tbl_ratings := tbl_ratings db;
               tbl_messages := tbl_messages db |}.

(** ** Client pages *)

(** What a handler shows: [toast({ title, description, variant })]. *)
Record toast : Type := {
  title : string;
  description : string;
  destructive : bool
}.

(** Strings are kept as their UTF-8 encoding, a character of the program
    being the bytes of a code point.

    [String.prototype.trim] removes from both ends the code points of
    WhiteSpace and LineTerminator: TAB, LF, VT, FF, CR, SP, NBSP, U+1680,
    U+2000 to U+200A, LS, PS, U+202F, U+205F, U+3000 and ZWNBSP. *)
Definition white_space_code_points : list N :=
  [0x9; 0xA; 0xB; 0xC; 0xD; 0x20; 0xA0; 0x1680;
   0x2000; 0x2001; 0x2002; 0x2003; 0x2004; 0x2005; 0x2006; 0x2007; 0x2008;
   0x2009; 0x200A; 0x2028; 0x2029; 0x202F; 0x205F; 0x3000; 0xFEFF]%N.

(** The UTF-8 encoding of a code point of the Basic Multilingual Plane. *)
Definition utf8 (c : N) : list ascii :=
  if (c <? 0x80)%N then [ascii_of_N c]
  else if (c <? 0x800)%N then
    [ascii_of_N (0xC0 + c / 0x40); ascii_of_N (0x80 + c mod 0x40)]
  else
    [ascii_of_N (0xE0 + c / 0x1000);
     ascii_of_N (0x80 + (c / 0x40) mod 0x40);
     ascii_of_N (0x80 + c mod 0x40)].

Definition white_space : list (list ascii) := utf8 <$> white_space_code_points.

(** What follows the word [w] in [s], when [s] starts with [w]. *)
Fixpoint after_prefix (w s : list ascii) : option (list ascii) :=
  match w, s with
  | [], _ => Some s
  | a :: w', b :: s' => if bool_decide (a = b) then after_prefix w' s' else None
  | _ :: _, [] => None
  end.

(** [s] without its first character, when that is one of [ws]. *)
Definition strip_one (ws : list (list ascii)) (s : list ascii)
    : option (list ascii) :=
  head (omap (fun w => after_prefix w s) ws).

(** [s] without its leading characters of [ws]; a character takes a byte at
    least, so [length s] steps are enough. *)
Fixpoint strip_all (ws : list (list ascii)) (fuel : nat) (s : list ascii)
    : list ascii :=
  match fuel with
  | 0 => s
  | S fuel =>
      match strip_one ws s with
      | Some s' => strip_all ws fuel s'
      | None => s
      end
  end.

Definition trim_start (s : list ascii) : list ascii :=
  strip_all white_space (length s) s.

Definition trim_end (s : list ascii) : list ascii :=
  rev (strip_all (@rev ascii <$> white_space) (length s) (rev s)).

Definition trim (s : string) : string :=
  string_of_list_ascii (trim_end (trim_start (list_ascii_of_string s))).

(** A text of white space and nothing else (the empty text is one). *)
Definition white_space_only (s : list ascii) : Prop :=
  ∃ ws, Forall (fun w => w ∈ white_space) ws ∧ s = concat ws.

(** A text with no white space at either end. *)
Definition trimmed (s : list ascii) : Prop :=
  ∀ w, w ∈ white_space → ¬ w `prefix_of` s ∧ ¬ w `suffix_of` s.

(** What a column that takes [s.trim() || null] holds for the text [s]:
    nothing for a text of white space, and otherwise the text, not empty,
    without the white space before and after it. *)
Definition trimmed_text (s : string) (stored : option string) : Prop :=
  match stored with
  | None => white_space_only (list_ascii_of_string s)
  | Some c =>
      c ≠ ""%string
      ∧ trimmed (list_ascii_of_string c)
      ∧ ∃ l r, white_space_only l ∧ white_space_only r
               ∧ list_ascii_of_string s = l ++ list_ascii_of_string c ++ r
  end.

(** [s.trim() || null] *)
Definition trimmed_or_null (s : string) : option string :=
  let t := trim s in
  if bool_decide (t = ""%string) then None else Some t.

(** PostgREST's [.single()] when the error is dropped: the row if there is
    exactly one, [null] otherwise. *)
Definition single {A} (rows : list A) : option A :=
  match rows with
  | [x] => Some x
  | _ => None
  end.

(** The rows of [skill_requests] a select run for [uid] reads. *)
Definition visible_requests (db : database) (uid : uuid)
    : list skill_requests.row :=
  filter (fun r => Is_true (policy.skill_requests_select db uid r))
         (tbl_skill_requests db).

(** *** The Requests page ([Requests] in Networks.tsx) *)
Module Requests.

Record page : Type := {
  incomingRequests : list skill_requests.row;
  outgoingRequests : list skill_requests.row;
  acceptedSwaps : list skill_requests.row
}.

(** [fetchRequests]: the three lists behind the tabs (the profile and skill
    titles added for display are left out). *)
Definition fetchRequests (user : uuid) (db : database) : page :=
  let rows := visible_requests db user in
  {| incomingRequests :=
       filter (fun r => skill_requests.provider_id r = user
                        ∧ skill_requests.status r = pending) rows;
     outgoingRequests :=
       filter (fun r => skill_requests.requester_id r = user
                        ∧ skill_requests.status r ∈ [pending; accepted]) rows;
     acceptedSwaps :=
       filter (fun r => (skill_requests.requester_id r = user
                         ∨ skill_requests.provider_id r = user)
                        ∧ skill_requests.status r = accepted) rows |}.

(** The shape shared by the four handlers: one status write by id, a toast
    for its outcome. *)
Definition write_status (s : request_status) (done_title done_text : string)
    (error_text : string) (now : timestamptz) (user request : uuid)
    (db : database) : toast * database :=
  match update_status now user request s db with
  | ok db' =>
      ({| title := done_title; description := done_text;
          destructive := false |}, db')
  | failed _ =>
      ({| title := "Error"; description := error_text;
          destructive := true |}, db)
  end.

Definition handleAcceptRequest :=
  write_status accepted "Request Accepted!"
    "The skill swap has been accepted." "Failed to accept request.".

Definition handleRejectRequest :=
  write_status rejected "Request Rejected"
    "The request has been declined." "Failed to reject request.".

Definition handleDeleteRequest :=
  write_status cancelled "Request Deleted"
    "Your outgoing request has been cancelled." "Failed to cancel request.".

Definition handleCompleteSwap :=
  write_status completed "Swap Completed!"
    "Don't forget to rate your partner." "Failed to complete swap.".

(** The buttons of the page, each for the request of one card. *)
Inductive button : Type :=
  | Decline (request : uuid)
  | Accept (request : uuid)
  | Cancel (request : uuid)
  | Complete (request : uuid).

(** Which buttons the page renders: Decline and Accept on every incoming
    card, Cancel on an outgoing card [request.status === "pending"],
    Complete on every active swap. *)
Definition rendered (p : page) (b : button) : bool :=
  match b with
  | Decline i | Accept i =>
      bool_decide (i ∈ skill_requests.id <$> incomingRequests p)
  | Cancel i =>
      bool_decide (i ∈ skill_requests.id <$>
        filter (fun r => skill_requests.status r = pending)
               (outgoingRequests p))
  | Complete i =>
      bool_decide (i ∈ skill_requests.id <$> acceptedSwaps p)
  end.

Definition onClick (b : button)
    : timestamptz -> uuid -> database -> toast * database :=
  match b with
  | Decline i => fun now user => handleRejectRequest now user i
  | Accept i => fun now user => handleAcceptRequest now user i
  | Cancel i => fun now user => handleDeleteRequest now user i
  | Complete i => fun now user => handleCompleteSwap now user i
  end.

(** A click on the page [p]: nothing happens unless [p] renders the button. *)
Definition click (p : page) (b : button) (now : timestamptz) (user : uuid)
    (db : database) : option toast * database :=
  if rendered p b
  then let '(t, db') := onClick b now user db in (Some t, db')
  else (None, db).

End Requests.

(** *** The Chat page *)
Module Chat.

Record page : Type := {
  skillRequest : option skill_requests.row;
  messages : list messages.row
}.

(** [fetchChatData]: the request by id ([.single()], whose error is thrown),
    then the messages of the request, oldest first. *)
Definition fetchChatData (user requestId : uuid) (db : database) : page :=
  match filter (fun r => skill_requests.id r = requestId)
               (visible_requests db user) with
  | [requestData] =>
      {| skillRequest := Some requestData;
         messages := select_messages user requestId db |}
  | _ => {| skillRequest := None; messages := [] |}
  end.

(** [sendMessage]: nothing is sent for a blank text. *)
Definition sendMessage (now : timestamptz) (user fresh requestId : uuid)
    (newMessage : string) (db : database) : option toast * database :=
  if bool_decide (trim newMessage = ""%string) then (None, db)
  else match insert_message now user fresh requestId user
               (trim newMessage) db with
       | ok db' => (None, db')
       | failed _ =>
           (Some {| title := "Error"; description := "Failed to send message.";
                    destructive := true |}, db)
       end.

(** [handleCompleteSwap] of the chat header; the button is rendered when
    [skillRequest.status === 'accepted']. *)
Definition handleCompleteSwap (p : page) (now : timestamptz) (user : uuid)
    (db : database) : option toast * database :=
  match skillRequest p with
  | None => (None, db)
  | Some sr =>
      match update_status now user (skill_requests.id sr) completed db with
      | ok db' =>
          (Some {| title := "Swap Completed!";
                   description := "Time to rate your learning partner.";
                   destructive := false |}, db')
      | failed _ =>
          (Some {| title := "Error"; description := "Failed to complete swap.";
                   destructive := true |}, db)
      end
  end.

Definition complete_rendered (p : page) : bool :=
  match skillRequest p with
  | Some sr => bool_decide (skill_requests.status sr = accepted)
  | None => false
  end.

End Chat.

(** *** The Rate page *)
Module Rate.

(** How [fetchSkillRequest] ends. *)
Inductive loaded : Type :=
  | load_failed                         (* "Failed to load rating page." *)
  | already_rated                       (* "You have already rated ..." *)
  | shown (skillRequest : skill_requests.row).

(** [fetchSkillRequest]: the request by id ([.single()], error thrown), the
    participant check ([throw new Error("Unauthorized")]), then the read of
    an existing rating by this user for this request. *)
Definition fetchSkillRequest (user requestId : uuid) (db : database)
    : loaded :=
  match filter (fun r => skill_requests.id r = requestId)
               (visible_requests db user) with
  | [requestData] =>
      if bool_decide (skill_requests.requester_id requestData ≠ user)
         && bool_decide (skill_requests.provider_id requestData ≠ user)
      then load_failed
      else
        let existingRating :=
          single (filter (fun r => ratings.request_id r = requestId
                                   ∧ ratings.rater_id r = user)
                   (filter (fun r => Is_true (policy.ratings_select db user r))
                           (tbl_ratings db))) in
        match existingRating with
        | Some _ => already_rated
        | None => shown requestData
        end
  | _ => load_failed
  end.

(** The component state [skillRequest]: set only by a load that gets through. *)
Definition skillRequest (l : loaded) : option skill_requests.row :=
  match l with
  | shown sr => Some sr
  | _ => None
  end.

Inductive submitted : Type :=
  | not_submitted                       (* the guard returned *)
  | rating_submitted                    (* "Rating Submitted!" *)
  | submit_failed (e : pg_error).       (* "Failed to submit rating." *)

(** [submitRating], for the stars [rating] (0 while none is chosen) and the
    text [feedback] of the form. *)
Definition submitRating (l : loaded) (rating : Z) (feedback : string)
    (now : timestamptz) (user fresh : uuid) (db : database)
    : submitted * database :=
  match skillRequest l with
  | None => (not_submitted, db)
  | Some sr =>
      if bool_decide (rating = 0%Z) then (not_submitted, db)
      else
        let partnerId :=
          if bool_decide (skill_requests.requester_id sr = user)
          then skill_requests.provider_id sr
          else skill_requests.requester_id sr in
        match insert_rating now user fresh (skill_requests.id sr) user
                partnerId rating (trimmed_or_null feedback) db with
        | ok db' => (rating_submitted, db')
        | failed e => (submit_failed e, db)
        end
  end.

End Rate.

(** *** The CreateRequest page *)
Module CreateRequest.

Inductive sent : Type :=
  | missing_information    (* "Please select both skills for the swap." *)
  | nothing                (* no user or no target profile *)
  | request_sent           (* "Request Sent!" *)
  | send_failed (e : pg_error).

(** [handleSubmitRequest].  The selections are the values of the two select
    boxes, empty while nothing is chosen; [targetUser] is the [user_id] of
    the profile the page was opened for. *)
Definition handleSubmitRequest
    (selectedOfferedSkill selectedWantedSkill : string) (message : string) (user : option uuid) (targetUser : option uuid)
    (now : timestamptz) (fresh : uuid) (db : database) : sent * database :=
  if bool_decide (selectedOfferedSkill = ""%string)
     || bool_decide (selectedWantedSkill = ""%string)
  then (missing_information, db)
  else
    match user, targetUser with
    | Some u, Some t =>
        match insert_skill_request now u fresh u t selectedOfferedSkill
                selectedWantedSkill (trimmed_or_null message) pending db with
        | ok db' => (request_sent, db')
        | failed e => (send_failed e, db)
        end
    | _, _ => (nothing, db)
    end.

End CreateRequest.

(** ** The Express prototype: [createSwapRequest]

    The controller works on the document store of the prototype: users with
    the names of the skills they offer, and swap requests. *)
Module swapController.

Record User : Type := {
  _id : string;
  skillsOffered : list string
}.

Record SwapRequest : Type := {
  requester : string;
  recipient : string;
  offeredSkill : string;
  requestedSkill : string;
  message : option string;
  status : request_status
}.

Record store : Type := {
  users : list User;
  swaps : list SwapRequest
}.

(** The ids of the documents are [ObjectId]s, written as their 24
    hexadecimal digits.  A string of the request body is cast to an
    [ObjectId] where a query or a document takes one: the cast goes through
    for 24 hexadecimal digits, in either case, and throws for every other
    string. *)
Definition is_hex_digit (c : ascii) : bool :=
  let n := nat_of_ascii c in
  ((48 <=? n) && (n <=? 57)) || ((97 <=? n) && (n <=? 102))
  || ((65 <=? n) && (n <=? 70)).

Definition castable (i : string) : bool :=
  (String.length i =? 24) && forallb is_hex_digit (list_ascii_of_string i).

(** The digits of an [ObjectId] as the driver prints them, in lower case. *)
Definition lower_hex (c : ascii) : ascii :=
  let n := nat_of_ascii c in
  if (65 <=? n) && (n <=? 70) then ascii_of_nat (n + 32) else c.

Definition canonical (i : string) : string :=
  string_of_list_ascii (lower_hex <$> list_ascii_of_string i).

(** [User.findById], for an id the cast lets through. *)
Definition findById (s : store) (i : string) : option User :=
  head (filter (fun u => canonical (_id u) = canonical i) (users s)).

(** [SwapRequest.findOne({ requester, recipient, offeredSkill,
      requestedSkill, status: 'pending' })] *)
Definition findOne_pending (s : store) (rq rc off want : string)
    : option SwapRequest :=
  head (filter (fun x => canonical (requester x) = canonical rq
                         ∧ canonical (recipient x) = canonical rc
                         ∧ offeredSkill x = off ∧ requestedSkill x = want
                         ∧ status x = pending) (swaps s)).

(** The HTTP status and, for 201, the saved document. *)
Inductive reply : Type :=
  | status_201 (saved : SwapRequest)
  | status_400 (message : string)
  | status_404 (message : string)
  | status_500.

(** [createSwapRequest], for the id [req_user] of the authenticated user
    and the body fields.  A [recipient] that is no [ObjectId] makes
    [User.findById] reject, and a missing requester document makes
    [requester.skillsOffered] throw; the [catch] answers both with 500. *)
Definition createSwapRequest (req_user : string)
    (recipient offeredSkill requestedSkill : string) (message : option string)
    (s : store) : reply * store :=
  if negb (castable recipient) then (status_500, s) else
  match findById s recipient with
  | None => (status_404 "Recipient not found", s)
  | Some recipientUser =>
      match findById s req_user with
      | None => (status_500, s)
      | Some requester =>
          if negb (bool_decide (offeredSkill ∈ skillsOffered requester))
          then (status_400 "You do not have this skill to offer", s)
          else if negb (bool_decide
                          (requestedSkill ∈ skillsOffered recipientUser))
          then (status_400 "Recipient does not have this skill", s)
          else
            match findOne_pending s req_user recipient offeredSkill
                    requestedSkill with
            | Some existingSwap =>
                (status_400
                   "You already have a pending request for this swap", s)
            | None =>
                let swapRequest :=
                  {| swapController.requester := req_user;
                     swapController.recipient := canonical recipient;
                     swapController.offeredSkill := offeredSkill;
                     swapController.requestedSkill := requestedSkill;
                     swapController.message := message;
                     swapController.status := pending |} in
                (status_201 swapRequest,
                 {| users := users s; swaps := swaps s ++ [swapRequest] |})
            end
      end
  end.

End swapController.

(** ** Role resolution ([fetchUserRole] in useAuth.tsx)

    The backend is seen through its replies: the reply to the n-th read of
    [user_roles] and the reply to the insert, each with the time it takes to
    settle ([None]: it never does).  Time is in milliseconds. *)
Module useAuth.

Inductive select_reply : Type :=
  | role_row (data : option app_role)   (* [{ data, error: null }] *)
  | role_error                          (* [{ data: null, error }] *)
  | select_thrown.                      (* the awaited call rejects *)

Inductive insert_reply : Type :=
  | insert_done                         (* [{ error: null }] *)
  | insert_error
  | insert_thrown.

Record timed (A : Type) : Type := {
  takes : option N;
  reply : A
}.
Arguments takes {A} t.
Arguments reply {A} t.

Record backend : Type := {
  select_role : nat -> timed select_reply;
  insert_role : timed insert_reply
}.

(** The lines of the console that count here. *)
Inductive line : Type :=
  | checking_intent (sent : N)  (* "Found admin intent, checking if ..." *)
  | setting_admin (sent : N)    (* "Error fetching role, trying to set ..." *)
  | attempt (number : nat) (sent : N)  (* "Attempting role fetch (attempt n/5)" *)
  | retrying (count : nat) (sent : N). (* "Retrying role fetch (n/5)..." *)

Record state : Type := {
  clock : N;
  localStorage : gmap string string;
  console : list line;
  reads : nat                           (* reads of [user_roles] sent so far *)
}.

(** An [async] computation: it returns, throws, or never settles. *)
Inductive outcome (A : Type) : Type :=
  | returned (a : A)
  | thrown
  | unsettled.
Arguments returned {A} a.
Arguments thrown {A}.
Arguments unsettled {A}.

Definition task (A : Type) : Type := state -> outcome A * state.

#[global] Instance task_ret : MRet task := fun A a st => (returned a, st).

#[global] Instance task_bind : MBind task := fun A B k m st =>
  match m st with
  | (returned a, st') => k a st'
  | (thrown, st') => (thrown, st')
  | (unsettled, st') => (unsettled, st')
  end.

(** [try { body } catch { handler }] *)
Definition try_catch {A} (body handler : task A) : task A := fun st =>
  match body st with
  | (thrown, st') => handler st'
  | r => r
  end.

Definition say (l : N -> line) (st : state) : state :=
  {| clock := clock st; localStorage := localStorage st;
     console := console st ++ [l (clock st)]; reads := reads st |}.

Definition tick (ms : N) (st : state) : state :=
  {| clock := (clock st + ms)%N; localStorage := localStorage st;
     console := console st; reads := reads st |}.

Definition count_read (st : state) : state :=
  {| clock := clock st; localStorage := localStorage st;
     console := console st; reads := S (reads st) |}.

(** [console.log] *)
Definition log (l : N -> line) : task unit := fun st =>
  (returned tt, say l st).

(** [await] of something that settles after [takes] milliseconds. *)
Definition await {A} (t : timed A) : task A := fun st =>
  match takes t with
  | Some ms => (returned (reply t), tick ms st)
  | None => (unsettled, st)
  end.

(** [await new Promise(resolve => setTimeout(resolve, ms))] *)
Definition sleep (ms : N) : task unit :=
  await {| takes := Some ms; reply := tt |}.

Definition getItem (key : string) : task (option string) := fun st =>
  (returned (localStorage st !! key), st).

Definition removeItem (key : string) : task unit := fun st =>
  (returned tt,
   {| clock := clock st; localStorage := delete key (localStorage st);
      console := console st; reads := reads st |}).

(** [await supabase.from('user_roles').select('role').eq('user_id', userId)
      .maybeSingle()] *)
Definition select_user_role (b : backend) : task select_reply := fun st =>
  match await (select_role b (reads st)) (count_read st) with
  | (returned select_thrown, st') => (thrown, st')
  | r => r
  end.

(** [await supabase.from('user_roles').insert([{ user_id, role: 'admin' }])] *)
Definition insert_admin_role (b : backend) : task insert_reply := fun st =>
  match await (insert_role b) st with
  | (returned insert_thrown, st') => (thrown, st')
  | r => r
  end.

Definition maxRetries : nat := 5.

(** [attemptFetch], by the number [n] of retries left: [retryCount] is
    [maxRetries - n], the test [retryCount < maxRetries] is [n ≠ 0] and
    [retryCount++] is the step from [n] to its predecessor. *)
Fixpoint attemptFetch (b : backend) (n : nat) : task app_role :=
  let retryCount := maxRetries - n in
  let retry : task app_role :=
    match n with
    | S n' =>
        log (retrying (S retryCount));;
        sleep 1000;;
        attemptFetch b n'
    | O => mret user
    end in
  try_catch
    (log (attempt (retryCount + 1));;
     r ← select_user_role b;
     match r with
     | role_error => retry
     | role_row (Some role) => mret role
     | role_row None => mret user
     | select_thrown => retry
     end)
    retry.

Definition admin_role_key (userId : string) : string :=
  "admin_role_" +:+ userId.

(** The body of [fetchRole]; what it returns is what it hands to [resolve]. *)
Definition fetchRole (b : backend) (userId : string) : task app_role :=
  try_catch
    (adminIntent ← getItem (admin_role_key userId);
     confirmed ←
       (if bool_decide (adminIntent = Some "admin"%string) then
          log checking_intent;;
          r ← select_user_role b;
          match r with
          | role_row (Some admin) =>
              removeItem (admin_role_key userId);; mret true
          | role_error =>
              log setting_admin;;
              i ← insert_admin_role b;
              match i with
              | insert_done =>
                  removeItem (admin_role_key userId);; mret true
              | _ => mret false
              end
          | _ => mret false
          end
        else mret false);
     if (confirmed : bool) then mret admin
     else attemptFetch b maxRetries)
    (mret user).

Definition initial (storage : gmap string string) : state :=
  {| clock := 0; localStorage := storage; console := []; reads := 0 |}.

(** The delay of [setTimeout(() => resolve('user'), 8000)]. *)
Definition role_timeout : N := 8000.

(** [fetchUserRole]: the promise takes the first [resolve]: that of
    [fetchRole] when it comes before the timer fires, ['user'] otherwise.
    The state is the one [fetchRole] leaves behind, which runs on after the
    timer. *)
Definition fetchUserRole (b : backend) (userId : string)
    (storage : gmap string string) : app_role * state :=
  match fetchRole b userId (initial storage) with
  | (returned role, st) =>
      if (clock st <? role_timeout)%N then (role, st) else (user, st)
  | (_, st) => (user, st)
  end.

(** The lines that announce a read of the role table by [attemptFetch]. *)
Definition is_attempt (l : line) : bool :=
  match l with attempt _ _ => true | _ => false end.

(** *** What the console of a resolution looks like *)

(** The retry of [attemptFetch] with [n] retries left, from the state in
    which the failed read settled. *)
Definition retry_from (b : backend) (n : nat) (st : state)
    : outcome app_role * state :=
  match n with
  | S n' =>
      attemptFetch b n' (tick 1000 (say (retrying (S (maxRetries - n))) st))
  | O => (returned user, st)
  end.

(** The lines of [attemptFetch] with [n] retries left, started at [t]: an
    attempt, and as long as attempts fail and retries are left, the retry
    logged when the attempt failed and the next attempt a second later. *)
Inductive loop_lines : nat -> N -> list line -> Prop :=
  | loop_last (n : nat) (t : N) :
      loop_lines n t [attempt (maxRetries - n + 1) t]
  | loop_retry (n : nat) (t failed_at : N) (rest : list line) :
      (t <= failed_at)%N ->
      loop_lines n (failed_at + 1000) rest ->
      loop_lines (S n) t
        (attempt (maxRetries - S n + 1) t
           :: retrying (S (maxRetries - S n)) failed_at :: rest).

(** Every retry of a console is followed by the next attempt, sent one
    second after the retry was logged. *)
Fixpoint spaced (ls : list line) : Prop :=
  match ls with
  | [] => True
  | retrying c t :: rest =>
      match rest with
      | attempt n t' :: _ => n = S c ∧ t' = (t + 1000)%N ∧ spaced rest
      | _ => False
      end
  | _ :: rest => spaced rest
  end.

Definition attempts (st : state) : list line :=
  filter (fun l => Is_true (is_attempt l)) (console st).

(** The state after [localStorage.removeItem(key)]. *)
Definition forget (key : string) (st : state) : state :=
  {| clock := clock st; localStorage := delete key (localStorage st);
     console := console st; reads := reads st |}.

(** A backend whose every read of the role table fails at once. *)
Definition failing : backend :=
  {| select_role := fun _ => {| takes := Some 0%N; reply := role_error |};
     insert_role := {| takes := Some 0%N; reply := insert_error |} |}.

(** A backend whose reads of the role table fail, after 200 ms each, and
    that lets the insert of a role row through, after 300 ms. *)
Definition granting : backend :=
  {| select_role := fun _ => {| takes := Some 200%N; reply := role_error |};
     insert_role := {| takes := Some 300%N; reply := insert_done |} |}.

(** What [attemptFetch] with [n] retries left, run from [st], leaves as [r]:
    its lines [ext] on the console, one read for each attempt, the storage
    as it was; and when it returns [admin], a read has returned an admin
    row. *)
Definition loop_left (b : backend) (n : nat) (st : state)
    (r : outcome app_role * state) (ext : list line) : Prop :=
  console r.2 = console st ++ ext
  ∧ loop_lines n (clock st) ext
  ∧ reads r.2
    = (reads st + length (filter (fun l => Is_true (is_attempt l)) ext))%nat
  ∧ localStorage r.2 = localStorage st
  ∧ (r.1 = returned admin →
     ∃ k, reply (select_role b k) = role_row (Some admin)).

(** Lines of the admin-intent branch, which come before the loop. *)
Definition before_loop (l : line) : Prop :=
  match l with
  | checking_intent _ | setting_admin _ => True
  | attempt _ _ | retrying _ _ => False
  end.

(** What holds of the outcome and the state [fetchRole] ends in, with the
    admin-intent flag set ([intent]) or not. *)
Definition well_resolved (b : backend) (intent : bool)
    (r : outcome app_role * state) : Prop :=
  length (attempts r.2) ≤ S maxRetries
  ∧ reads r.2 ≤ S (S maxRetries)
  ∧ (intent = false → reads r.2 ≤ S maxRetries)
  ∧ spaced (console r.2)
  ∧ (r.1 = returned admin →
     (∃ k, reply (select_role b k) = role_row (Some admin))
     ∨ reply (insert_role b) = insert_done).

End useAuth.

(** [supabase.from('user_roles').insert([{ user_id, role }])]: the policy's
    check, then [UNIQUE(user_id, role)], then the foreign key. *)
Definition insert_user_role (uid owner : uuid) (r : app_role) (db : database)
    : response database :=
  if negb (policy.user_roles_all db uid) then failed row_level_security
  else if bool_decide ((owner, r) ∈
            (fun x => (user_roles.user_id x, user_roles.role x))
              <$> tbl_user_roles db)
  then failed unique_violation
  else if negb (bool_decide (owner ∈ auth_users db))
  then failed foreign_key_violation
  else ok {| auth_users := auth_users db; tbl_profiles := tbl_profiles db;
             tbl_user_roles := tbl_user_roles db ++
               [{| user_roles.user_id := owner; user_roles.role := r |}];
             tbl_skills := tbl_skills db;
             tbl_skill_requests := tbl_skill_requests db;
             tbl_ratings := tbl_ratings db;
             tbl_messages := tbl_messages db |}.

(** ** Histories

    The statements of the model, and the databases a history of successful
    statements leads to from the empty one. *)

(** [supabase.from('skills').insert({...})], under "Users can insert their
    own skills"; [is_approved] is left to its default. *)
Definition insert_skill (uid fresh owner : uuid) (name : string)
    (offering : bool) (db : database) : response database :=
  if negb (bool_decide (uid = owner)) then failed row_level_security
  else if bool_decide (fresh ∈ skills.id <$> tbl_skills db)
  then failed unique_violation
  else if negb (bool_decide (owner ∈ auth_users db))
  then failed foreign_key_violation
  else ok {| auth_users := auth_users db; tbl_profiles := tbl_profiles db;
             tbl_user_roles := tbl_user_roles db;
             tbl_skills := tbl_skills db ++
               [{| skills.id := fresh; skills.user_id := owner;
                   skills.title := name; skills.is_offering := offering;
                   skills.is_approved := true |}];
             tbl_skill_requests := tbl_skill_requests db;
             tbl_ratings := tbl_ratings db;
             tbl_messages := tbl_messages db |}.

Inductive statement : Type :=
  | SignUp (new_id : uuid) (meta_full_name meta_role : option string)
  | InsertSkill (uid fresh owner : uuid) (name : string) (offering : bool)
  | InsertRequest (uid fresh requester provider offered wanted : uuid)
      (msg : option string) (s : request_status)
  | UpdateStatus (uid request : uuid) (s : request_status)
  | InsertRating (uid fresh request rater rated : uuid) (score : Z)
      (fb : option string)
  | InsertMessage (uid fresh request sender : uuid) (text : string)
  | InsertUserRole (uid owner : uuid) (r : app_role).

Definition execute (now : timestamptz) (s : statement) (db : database)
    : response database :=
  match s with
  | SignUp new_id n r => handle_new_user now new_id n r db
  | InsertSkill uid fresh owner name offering =>
      insert_skill uid fresh owner name offering db
  | InsertRequest uid fresh requester provider offered wanted msg s =>
      insert_skill_request now uid fresh requester provider offered wanted
        msg s db
  | UpdateStatus uid request s => update_status now uid request s db
  | InsertRating uid fresh request rater rated score fb =>
      insert_rating now uid fresh request rater rated score fb db
  | InsertMessage uid fresh request sender text =>
      insert_message now uid fresh request sender text db
  | InsertUserRole uid owner r => insert_user_role uid owner r db
  end.

Fixpoint run (history : list (timestamptz * statement)) (db : database)
    : response database :=
  match history with
  | [] => ok db
  | (now, s) :: rest =>
      match execute now s db with
      | ok db' => run rest db'
      | failed e => failed e
      end
  end.

Definition reachable (db : database) : Prop :=
  exists history, run history empty_database = ok db.

(** The key of [UNIQUE(request_id, rater_id)]. *)
Definition rating_key (r : ratings.row) : uuid * uuid :=
  (ratings.request_id r, ratings.rater_id r).

(** What makes two requests the same ask. *)
Definition ask (r : skill_requests.row)
    : uuid * uuid * uuid * uuid * request_status :=
  (skill_requests.requester_id r, skill_requests.provider_id r,
   skill_requests.offered_skill_id r, skill_requests.wanted_skill_id r,
   skill_requests.status r).

(** The states the lifecycle does not leave. *)
Definition terminal (s : request_status) : bool :=
  match s with
  | completed | cancelled | rejected => true
  | pending | accepted => false
  end.

(** The caller is a party to the request, or an admin. *)
Definition may_write (db : database) (uid : uuid) (r : skill_requests.row)
    : Prop :=
  uid = skill_requests.requester_id r ∨ uid = skill_requests.provider_id r
  ∨ is_admin db uid = true.

(** The ratings a user has received, and their exact mean. *)
Definition ratings_of (db : database) (rated : uuid) : list ratings.row :=
  filter (fun r => ratings.rated_id r = rated) (tbl_ratings db).

(** ** Worked histories

    Root (an admin), Alice and Bob sign up; Alice and Bob each offer a
    skill; Alice asks Bob for a swap. *)
Definition asking : list (timestamptz * statement) :=
  [ (1, SignUp "root" (Some "Root") (Some "admin"));
    (2, SignUp "alice" (Some "Alice") None);
    (3, SignUp "bob" (Some "Bob") (Some "user"));
    (4, InsertSkill "alice" "s-piano" "alice" "Piano" true);
    (5, InsertSkill "bob" "s-french" "bob" "French" true);
    (6, InsertRequest "alice" "r1" "alice" "bob" "s-piano" "s-french"
          (Some "hi") pending) ]%Z.

(** Bob accepts. *)
Definition opening : list (timestamptz * statement) :=
  asking ++ [ (7, UpdateStatus "bob" "r1" accepted) ]%Z.

Definition after (history : list (timestamptz * statement)) : database :=
  match run history empty_database with
  | ok db => db
  | failed _ => empty_database
  end.

Definition pending_db : database := after asking.

Definition accepted_db : database := after opening.

(** Alice marks the swap completed, and rates Bob. *)
Definition completed_history : list (timestamptz * statement) :=
  opening ++ [ (8, UpdateStatus "alice" "r1" completed) ]%Z.

Definition completed_db : database := after completed_history.

Definition rated_history : list (timestamptz * statement) :=
  completed_history ++
  [ (9, InsertRating "alice" "g1" "r1" "alice" "bob" 5 (Some "great")) ]%Z.

Definition rated_db : database := after rated_history.

(** Alice and Bob talk. *)
Definition chat_history : list (timestamptz * statement) :=
  opening ++
  [ (8, InsertMessage "alice" "m1" "r1" "alice" "hi");
    (9, InsertMessage "bob" "m2" "r1" "bob" "hello") ]%Z.

Definition chat_db : database := after chat_history.

(** Root asks Bob three times, all three swaps get done, and Root has rated
    two of them. *)
Definition twice_rated_history : list (timestamptz * statement) :=
  [ (1, SignUp "root" (Some "Root") (Some "admin"));
    (2, SignUp "bob" (Some "Bob") None);
    (3, InsertSkill "root" "s-go" "root" "Go" true);
    (4, InsertSkill "bob" "s-french" "bob" "French" true);
    (5, InsertRequest "root" "q1" "root" "bob" "s-go" "s-french" None pending);
    (6, InsertRequest "root" "q2" "root" "bob" "s-go" "s-french" None pending);
    (7, InsertRequest "root" "q3" "root" "bob" "s-go" "s-french" None pending);
    (8, UpdateStatus "bob" "q1" accepted);
    (9, UpdateStatus "bob" "q2" accepted);
    (10, UpdateStatus "bob" "q3" accepted);
    (11, UpdateStatus "root" "q1" completed);
    (12, UpdateStatus "root" "q2" completed);
    (13, UpdateStatus "root" "q3" completed);
    (14, InsertRating "root" "g1" "q1" "root" "bob" 5 None);
    (15, InsertRating "root" "g2" "q2" "root" "bob" 4 None) ]%Z.

Definition twice_rated_db : database := after twice_rated_history.

(** Carol signs up when the swap of Alice and Bob is done; she has no part
    in it. *)
Definition bystander_history : list (timestamptz * statement) :=
  completed_history ++ [ (9, SignUp "carol" (Some "Carol") None) ]%Z.

Definition bystander_db : database := after bystander_history.

(** What a rendered button of the Requests page says about a row. *)
Definition entitles (user : uuid) (b : Requests.button)
    (r : skill_requests.row) : Prop :=
  match b with
  | Requests.Decline i | Requests.Accept i =>
      skill_requests.id r = i ∧ skill_requests.provider_id r = user
      ∧ skill_requests.status r = pending
  | Requests.Cancel i =>
      skill_requests.id r = i ∧ skill_requests.requester_id r = user
      ∧ skill_requests.status r = pending
  | Requests.Complete i =>
      skill_requests.id r = i
      ∧ (skill_requests.requester_id r = user
         ∨ skill_requests.provider_id r = user)
      ∧ skill_requests.status r = accepted
  end.

(** ** The constraints of the schema, as predicates on a database *)

(** The key of [UNIQUE(user_id, role)]. *)
Definition role_key (r : user_roles.row) : uuid * app_role :=
  (user_roles.user_id r, user_roles.role r).

(** The [PRIMARY KEY] and [UNIQUE] constraints (the key of [auth.users]
    included). *)
Definition keys_unique (db : database) : Prop :=
  NoDup (auth_users db)
  ∧ NoDup (profiles.user_id <$> tbl_profiles db)
  ∧ NoDup (role_key <$> tbl_user_roles db)
  ∧ NoDup (skills.id <$> tbl_skills db)
  ∧ NoDup (skill_requests.id <$> tbl_skill_requests db)
  ∧ NoDup (ratings.id <$> tbl_ratings db)
  ∧ NoDup (rating_key <$> tbl_ratings db)
  ∧ NoDup (messages.id <$> tbl_messages db).

(** The [REFERENCES] constraints. *)
Definition references_resolve (db : database) : Prop :=
  (∀ p, p ∈ tbl_profiles db → profiles.user_id p ∈ auth_users db)
  ∧ (∀ r, r ∈ tbl_user_roles db → user_roles.user_id r ∈ auth_users db)
  ∧ (∀ s, s ∈ tbl_skills db → skills.user_id s ∈ auth_users db)
  ∧ (∀ r, r ∈ tbl_skill_requests db →
       skill_requests.requester_id r ∈ auth_users db
       ∧ skill_requests.provider_id r ∈ auth_users db
       ∧ skill_requests.offered_skill_id r ∈ skills.id <$> tbl_skills db
       ∧ skill_requests.wanted_skill_id r ∈ skills.id <$> tbl_skills db)
  ∧ (∀ r, r ∈ tbl_ratings db →
       ratings.request_id r ∈ skill_requests.id <$> tbl_skill_requests db
       ∧ ratings.rater_id r ∈ auth_users db
       ∧ ratings.rated_id r ∈ auth_users db)
  ∧ (∀ m, m ∈ tbl_messages db →
       messages.skill_request_id m
       ∈ skill_requests.id <$> tbl_skill_requests db).

(** The [CHECK (rating >= 1 AND rating <= 5)] of [ratings]. *)
Definition ratings_checked (db : database) : Prop :=
  ∀ r, r ∈ tbl_ratings db → (1 <= ratings.rating r <= 5)%Z.

(** The range the aggregates of a profile can take: an average between 0.00
    and 5.00, and a count that is a non-negative [INTEGER]. *)
Definition stats_in_range (db : database) : Prop :=
  ∀ p, p ∈ tbl_profiles db →
    (0 <= profiles.average_rating p <= 500)%Z
    ∧ (0 <= profiles.successful_swaps p < 2 ^ 31)%Z.

(** A sign-up whose metadata asks for the role [admin]
    ([supabase.auth.signUp({ options: { data: { role } } })]). *)
Definition admin_sign_up (s : statement) : bool :=
  match s with
  | SignUp _ _ meta_role => bool_decide (meta_role = Some "admin"%string)
  | _ => false
  end.

(** The sender of a message is the requester or the provider of the request
    the message belongs to. *)
Definition sent_by_party (db : database) (m : messages.row) : Prop :=
  ∃ sr, sr ∈ tbl_skill_requests db
        ∧ skill_requests.id sr = messages.skill_request_id m
        ∧ (skill_requests.requester_id sr = messages.sender_id m
           ∨ skill_requests.provider_id sr = messages.sender_id m).

Definition senders_are_parties (db : database) : Prop :=
  ∀ m, m ∈ tbl_messages db → sent_by_party db m.

(** *** The Networks page ([Networks] in Networks.tsx) *)
Module Networks.

(** [fetchConnections]: the accepted requests with the user as requester
    or provider. *)
Definition fetchConnections (user : uuid) (db : database)
    : list skill_requests.row :=
  filter (fun r => (skill_requests.requester_id r = user
                    ∨ skill_requests.provider_id r = user)
                   ∧ skill_requests.status r = accepted)
         (visible_requests db user).

(** [partnerId] of [enrichConnectionsWithData]: the other person in the
    connection. *)
Definition partnerId (user : uuid) (connection : skill_requests.row) : uuid :=
  if bool_decide (skill_requests.requester_id connection = user)
  then skill_requests.provider_id connection
  else skill_requests.requester_id connection.

(** [handleCompleteSwap(connectionId)]; the button is on every card. *)
Definition handleCompleteSwap :=
  Requests.write_status completed "Swap Completed!"
    "Don't forget to rate your learning partner." "Failed to complete swap.".

End Networks.

(** *** The Dashboard page *)
Module Dashboard.

(** The pending requests of [fetchUserData]: those with the user as
    provider. *)
Definition pendingRequests (user : uuid) (db : database)
    : list skill_requests.row :=
  filter (fun r => skill_requests.provider_id r = user
                   ∧ skill_requests.status r = pending)
         (visible_requests db user).

Definition handleAcceptRequest :=
  Requests.write_status accepted "Request Accepted"
    "You've accepted the skill swap request."
    "Failed to accept request. Please try again.".

Definition handleDeclineRequest :=
  Requests.write_status rejected "Request Declined"
    "You've declined the skill swap request."
    "Failed to decline request. Please try again.".

End Dashboard.

(** The requests a user finds listed on a page of the application: in one of
    the three tabs of the Requests page, among the connections of the
    Networks page, or among the pending requests of the Dashboard. *)
Definition listed (viewer : uuid) (db : database) : list skill_requests.row :=
  Requests.incomingRequests (Requests.fetchRequests viewer db)
  ++ Requests.outgoingRequests (Requests.fetchRequests viewer db)
  ++ Requests.acceptedSwaps (Requests.fetchRequests viewer db)
  ++ Networks.fetchConnections viewer db
  ++ Dashboard.pendingRequests viewer db.

(** The constraints of the schema hold. *)
Definition schema_holds (db : database) : Prop :=
  keys_unique db ∧ references_resolve db ∧ ratings_checked db.

(** ** Updates of profiles and removal of skills *)

(** The policies of [skills]. *)
Module skill_policy.

(** "Approved skills are viewable by everyone" *)
Definition select (db : database) (uid : uuid) (s : skills.row) : bool :=
  skills.is_approved s || bool_decide (uid = skills.user_id s)
  || is_admin db uid.

(** "Users can update their own skills" *)
Definition update (db : database) (uid : uuid) (s : skills.row) : bool :=
  bool_decide (uid = skills.user_id s) || is_admin db uid.

(** "Users can delete their own skills" *)
Definition delete (db : database) (uid : uuid) (s : skills.row) : bool :=
  bool_decide (uid = skills.user_id s) || is_admin db uid.

End skill_policy.

(** The columns an update of a profile sets, of those the model keeps
    ([Partial<Profile>]); the other columns of the table only move
    [updated_at]. *)
Record profile_update : Type := {
  set_full_name : option string;
  set_is_public : option bool;
  set_is_banned : option bool
}.

Definition with_update (u : profile_update) (now : timestamptz)
    (p : profiles.row) : profiles.row :=
  {| profiles.user_id := profiles.user_id p;
     profiles.full_name := default (profiles.full_name p) (set_full_name u);
     profiles.is_public := default (profiles.is_public p) (set_is_public u);
     profiles.is_banned := default (profiles.is_banned p) (set_is_banned u);
     (* trigger update_profiles_updated_at *)
     profiles.updated_at := now;
     profiles.successful_swaps := profiles.successful_swaps p;
     profiles.average_rating := profiles.average_rating p |}.

(** The rows that [UPDATE profiles ... WHERE user_id = userId] reaches. *)
Definition update_profile_reaches (db : database) (uid userId : uuid)
    (p : profiles.row) : bool :=
  bool_decide (profiles.user_id p = userId)
  && policy.profiles_select db uid p
  && policy.profiles_update db uid p.

(** [supabase.from('profiles').update(updates).eq('user_id', userId)], under
    "Users can update their own profile", whose [USING] expression is also
    the check on the updated row. *)
Definition update_profile (now : timestamptz) (uid userId : uuid)
    (u : profile_update) (db : database) : response database :=
  let rows := tbl_profiles db in
  if forallb (fun p => implb (update_profile_reaches db uid userId p)
                         (policy.profiles_update db uid (with_update u now p)))
             rows
  then ok (set_profiles
             ((fun p => if update_profile_reaches db uid userId p
                        then with_update u now p else p) <$> rows) db)
  else failed row_level_security.

(** The rows that [DELETE FROM skills WHERE id = skillId] removes for the
    caller, under "Users can delete their own skills". *)
Definition skill_goes (db : database) (uid skillId : uuid) (s : skills.row)
    : bool :=
  bool_decide (skills.id s = skillId)
  && skill_policy.select db uid s && skill_policy.delete db uid s.

Definition gone_skills (db : database) (uid skillId : uuid) : list uuid :=
  skills.id
    <$> filter (fun s => Is_true (skill_goes db uid skillId s)) (tbl_skills db).

(** [ON DELETE CASCADE] of [offered_skill_id] and [wanted_skill_id]. *)
Definition request_cascades (db : database) (uid skillId : uuid)
    (r : skill_requests.row) : bool :=
  bool_decide (skill_requests.offered_skill_id r ∈ gone_skills db uid skillId)
  || bool_decide (skill_requests.wanted_skill_id r ∈ gone_skills db uid skillId).

Definition gone_requests (db : database) (uid skillId : uuid) : list uuid :=
  skill_requests.id
    <$> filter (fun r => Is_true (request_cascades db uid skillId r))
          (tbl_skill_requests db).

(** [supabase.from('skills').delete().eq('id', skillId)], with the
    [ON DELETE CASCADE] of the references to the deleted rows: the requests
    that offer or want a deleted skill go, and with them their ratings and
    their messages.  The referential actions are not subject to row-level
    security, and no trigger of the schema fires on a deletion. *)
Definition delete_skill (uid skillId : uuid) (db : database) : database :=
  {| auth_users := auth_users db;
     tbl_profiles := tbl_profiles db;
     tbl_user_roles := tbl_user_roles db;
     tbl_skills :=
       filter (fun s => ¬ Is_true (skill_goes db uid skillId s)) (tbl_skills db);
     tbl_skill_requests :=
       filter (fun r => ¬ Is_true (request_cascades db uid skillId r))
              (tbl_skill_requests db);
     tbl_ratings :=
       filter (fun r => (ratings.request_id r ∉ gone_requests db uid skillId))
              (tbl_ratings db);
     tbl_messages :=
       filter (fun m => (messages.skill_request_id m
                         ∉ gone_requests db uid skillId))
              (tbl_messages db) |}.

(** [supabase.from('skills').update({ is_approved: true }).eq('id', skillId)]
    of [handleApproveSkill], under "Users can update their own skills"; the
    updated row keeps its owner and so passes the policy again. *)
Definition approve_skill (uid skillId : uuid) (db : database) : database :=
  {| auth_users := auth_users db;
     tbl_profiles := tbl_profiles db;
     tbl_user_roles := tbl_user_roles db;
     tbl_skills :=
       (fun s => if bool_decide (skills.id s = skillId)
                    && skill_policy.select db uid s
                    && skill_policy.update db uid s
                 then {| skills.id := skills.id s;
                         skills.user_id := skills.user_id s;
                         skills.title := skills.title s;
                         skills.is_offering := skills.is_offering s;
                         skills.is_approved := true |}
                 else s) <$> tbl_skills db;
     tbl_skill_requests := tbl_skill_requests db;
     tbl_ratings := tbl_ratings db;
     tbl_messages := tbl_messages db |}.

(** [supabase.from('profiles').insert([defaultProfile])], sent by the
    EditProfile page for a user it finds without a profile, under "Users can
    insert their own profile"; the aggregates take the defaults of their
    columns. *)
Definition insert_profile (now : timestamptz) (uid owner : uuid)
    (name : string) (db : database) : response database :=
  if negb (bool_decide (uid = owner)) then failed row_level_security
  else if bool_decide (owner ∈ profiles.user_id <$> tbl_profiles db)
  then failed unique_violation
  else if negb (bool_decide (owner ∈ auth_users db))
  then failed foreign_key_violation
  else ok (set_profiles
             (tbl_profiles db ++
                [{| profiles.user_id := owner;
                    profiles.full_name := name;
                    profiles.is_public := true;
                    profiles.is_banned := false;
                    profiles.updated_at := now;
                    profiles.successful_swaps := 0%Z;
                    profiles.average_rating := 0%Z |}]) db).

(** The databases the writes of the pages lead to: the statements of a
    history, and the writes the pages send besides them, which are the
    removal and the approval of a skill and the insert and the update of a
    profile.  (The upserts of [user_roles] name [user_id] as their conflict
    target, for which the table has no unique constraint, and write
    nothing.) *)
Inductive app_reachable : database -> Prop :=
  | reached_empty : app_reachable empty_database
  | reached_statement now s db db' :
      app_reachable db -> execute now s db = ok db' -> app_reachable db'
  | reached_delete_skill uid skillId db :
      app_reachable db -> app_reachable (delete_skill uid skillId db)
  | reached_approve_skill uid skillId db :
      app_reachable db -> app_reachable (approve_skill uid skillId db)
  | reached_insert_profile now uid owner name db db' :
      app_reachable db -> insert_profile now uid owner name db = ok db' ->
      app_reachable db'
  | reached_update_profile now uid userId u db db' :
      app_reachable db -> update_profile now uid userId u db = ok db' ->
      app_reachable db'.

(** *** The Admin page *)
Module Admin.

(** [handleBanUser(userId, userName)]; the toast of the ban is shown in the
    destructive variant. *)
Definition handleBanUser (now : timestamptz) (user userId : uuid)
    (userName : string) (db : database) : toast * database :=
  match update_profile now user userId
          {| set_full_name := None; set_is_public := None;
             set_is_banned := Some true |} db with
  | ok db' =>
      ({| title := "User Banned";
          description := userName +:+ " has been banned from the platform.";
          destructive := true |}, db')
  | failed _ =>
      ({| title := "Error"; description := "Failed to ban user.";
          destructive := true |}, db)
  end.

(** [handleUnbanUser(userId, userName)] *)
Definition handleUnbanUser (now : timestamptz) (user userId : uuid)
    (userName : string) (db : database) : toast * database :=
  match update_profile now user userId
          {| set_full_name := None; set_is_public := None;
             set_is_banned := Some false |} db with
  | ok db' =>
      ({| title := "User Unbanned";
          description := userName +:+ " has been unbanned.";
          destructive := false |}, db')
  | failed _ =>
      ({| title := "Error"; description := "Failed to unban user.";
          destructive := true |}, db)
  end.

(** [handleRejectSkill(skillId, skillTitle)]; a delete that matches no row
    is no error. *)
Definition handleRejectSkill (user skillId : uuid) (skillTitle : string)
    (db : database) : toast * database :=
  ({| title := "Skill Rejected";
      description :=
        String "034" (skillTitle
                      +:+ String "034" " has been rejected and removed.");
      destructive := true |}, delete_skill user skillId db).

End Admin.

(** *** The EditProfile page *)
Module EditProfile.

(** [updateProfile(updates)], for the signed-in user and a loaded profile. *)
Definition updateProfile (now : timestamptz) (user : uuid)
    (updates : profile_update) (db : database) : toast * database :=
  match update_profile now user user updates db with
  | ok db' =>
      ({| title := "Profile Updated";
          description := "Your profile has been updated successfully.";
          destructive := false |}, db')
  | failed _ =>
      ({| title := "Error";
          description := "Failed to update profile. Please try again.";
          destructive := true |}, db)
  end.

(** [removeSkill(skillId)] *)
Definition removeSkill (user skillId : uuid) (db : database)
    : toast * database :=
  ({| title := "Skill Removed";
      description := "Your skill has been removed successfully.";
      destructive := false |}, delete_skill user skillId db).

(** [SKILL_CATEGORIES], the values of the category select box. *)
Inductive category : Type :=
  | technology | language | music | art | cooking | sports | business | other.

(** [addSkill], for the session's [user] and the form [newSkill]: its
    title, its category ([None] while the select box is empty) and
    [is_offering]. *)
Definition addSkill (user : option uuid) (fresh : uuid) (skill_title : string)
    (skill_category : option category) (is_offering : bool) (db : database)
    : toast * database :=
  let incomplete := {| title := "Error";
                       description := "Please fill in all required fields.";
                       destructive := true |} in
  match user with
  | None => (incomplete, db)
  | Some user_id =>
      if bool_decide (skill_title = ""%string)
         || bool_decide (skill_category = None)
      then (incomplete, db)
      else
        match insert_skill user_id fresh user_id skill_title is_offering db with
        | ok db' =>
            ({| title := "Skill Added";
                description := "Your skill has been added successfully.";
                destructive := false |}, db')
        | failed _ =>
            ({| title := "Error";
                description := "Failed to add skill. Please try again.";
                destructive := true |}, db)
        end
  end.

End EditProfile.

(** A database with every ban lifted. *)
Definition lift_ban (p : profiles.row) : profiles.row :=
  {| profiles.user_id := profiles.user_id p;
     profiles.full_name := profiles.full_name p;
     profiles.is_public := profiles.is_public p;
     profiles.is_banned := false;
     profiles.updated_at := profiles.updated_at p;
     profiles.successful_swaps := profiles.successful_swaps p;
     profiles.average_rating := profiles.average_rating p |}.

Definition lift_bans (db : database) : database :=
  set_profiles (lift_ban <$> tbl_profiles db) db.

Definition response_map {A B} (f : A → B) (r : response A) : response B :=
  match r with
  | ok a => ok (f a)
  | failed e => failed e
  end.

(** ** The auth state listener ([AuthProvider] in useAuth.tsx)

    The role the client holds is a string ([userRole]), kept between
    sessions in [localStorage] under the key [cached_role_<id>]. *)
Module AuthProvider.
Import useAuth.

Definition cached_role_key (userId : string) : string :=
  "cached_role_" +:+ userId.

(** [localStorage.setItem(key, value)] *)
Definition setItem (key value : string) : task unit := fun st =>
  (returned tt,
   {| clock := clock st; localStorage := <[key := value]> (localStorage st);
      console := console st; reads := reads st |}).

(** The name of a role, as [fetchUserRole] resolves it. *)
Definition role_name (r : app_role) : string :=
  match r with
  | admin => "admin"
  | user => "user"
  end.

(** [session.user]: its [id] and [user_metadata?.role]. *)
Record session_user : Type := {
  id : string;
  metadata_role : option string
}.

(** [if (cachedRole)]: neither [null] nor the empty string. *)
Definition truthy (s : option string) : bool :=
  match s with
  | Some s => negb (bool_decide (s = ""%string))
  | None => false
  end.

(** [await supabase.from('user_roles').upsert({ user_id, role: 'admin' },
      { onConflict: 'user_id' })]; the backend is seen through its replies
    to the upserts, in the order of the calls. *)
Definition upsert_admin_role (upserts : nat -> timed insert_reply) (n : nat)
    : task insert_reply := fun st =>
  match await (upserts n) st with
  | (returned insert_thrown, st') => (thrown, st')
  | r => r
  end.

(** [await fetchUserRole(userId)].  The promise settles when [fetchRole]
    resolves it, and after 8 seconds at the latest; the storage is the one
    [fetchRole] leaves behind. *)
Definition await_fetchUserRole (b : backend) (userId : string)
    : task app_role := fun st =>
  let '(role, st') := fetchUserRole b userId (localStorage st) in
  let waited :=
    match fetchRole b userId (initial (localStorage st)) with
    | (returned _, s) => N.min (clock s) role_timeout
    | _ => role_timeout
    end in
  (returned role,
   {| clock := (clock st + waited)%N; localStorage := localStorage st';
      console := console st ++ console st';
      reads := reads st + reads st' |}).

(** The listener from its check of the metadata on, [sent] upserts having
    been sent before: the upsert for a user whose metadata says ['admin'],
    and, when that is not the case or the upsert fails, the resolution by
    [fetchUserRole], whose result is cached. *)
Definition from_metadata (b : backend) (upserts : nat -> timed insert_reply)
    (u : session_user) (sent : nat) : task (option string) :=
  second ←
    (if bool_decide (metadata_role u = Some "admin"%string) then
       e ← upsert_admin_role upserts sent;
       match e with
       | insert_done =>
           setItem (cached_role_key (id u)) "admin";;
           mret (Some "admin"%string)
       | _ => mret None
       end
     else mret None);
  match second with
  | Some role => mret (Some role)
  | None =>
      role ← await_fetchUserRole b (id u);
      setItem (cached_role_key (id u)) (role_name role);;
      mret (Some (role_name role))
  end.

(** The callback of [supabase.auth.onAuthStateChange]; what it returns is
    what it hands to [setUserRole]. *)
Definition onAuthStateChange (b : backend)
    (upserts : nat -> timed insert_reply) (session : option session_user)
    : task (option string) :=
  match session with
  | None => mret None
  | Some u =>
      cachedRole ← getItem (cached_role_key (id u));
      if truthy cachedRole then mret cachedRole
      else
        adminIntent ← getItem (admin_role_key (id u));
        first ←
          (if bool_decide (adminIntent = Some "admin"%string) then
             e ← upsert_admin_role upserts 0;
             match e with
             | insert_done =>
                 removeItem (admin_role_key (id u));;
                 setItem (cached_role_key (id u)) "admin";;
                 mret (Some "admin"%string, 1)
             | _ => mret (None, 1)
             end
           else mret (None, 0));
        match first with
        | (Some role, _) => mret (Some role)
        | (None, sent) => from_metadata b upserts u sent
        end
  end.

(** [isAdmin = userRole === 'admin'] *)
Definition isAdmin (userRole : option string) : bool :=
  bool_decide (userRole = Some "admin"%string).

(** [clearRoleCache(userId)] *)
Definition clearRoleCache (userId : string) : task unit :=
  removeItem (cached_role_key userId);;
  removeItem (admin_role_key userId).

(** The part of [signOut] that acts on the storage, for the signed-in
    [user]. *)
Definition signOut (user : option string) : task unit :=
  match user with
  | Some userId =>
      removeItem (cached_role_key userId);;
      removeItem (admin_role_key userId)
  | None => mret tt
  end.

(** [fixAdminRole(userId)]; it returns [true] where it has called
    [setUserRole('admin')]. *)
Definition fixAdminRole (b : backend) (upserts : nat -> timed insert_reply)
    (userId : string) : task bool :=
  try_catch
    (existingRole ← select_user_role b;
     match existingRole with
     | role_row (Some admin) =>
         setItem (cached_role_key userId) "admin";; mret true
     | _ =>
         e ← upsert_admin_role upserts 0;
         match e with
         | insert_done =>
             setItem (cached_role_key userId) "admin";; mret true
         | _ => mret false
         end
     end)
    (mret false).

(** [debugSetAdminRole] of the Index page, as far as it acts on the
    storage (the page is loaded again whatever the upsert returns). *)
Definition debugSetAdminRole (user : option string) : task unit :=
  match user with
  | Some userId =>
      setItem (cached_role_key userId) "admin";;
      setItem (admin_role_key userId) "admin"
  | None => mret tt
  end.

End AuthProvider.

(** *** The Browse page *)
Module Browse.

(** [fetchUsers]: the public profiles of the other users, each with the
    approved skills of its user ([skillsOffered] and [skillsWanted] are the
    skills with and without [is_offering]). *)
Definition fetchUsers (user : uuid) (db : database)
    : list (profiles.row * list skills.row) :=
  (fun p =>
     (p, filter (fun s => skills.user_id s = profiles.user_id p
                          ∧ skills.is_approved s = true)
                (filter (fun s => Is_true (skill_policy.select db user s))
                        (tbl_skills db))))
  <$> filter (fun p => profiles.is_public p = true
                       ∧ profiles.user_id p ≠ user)
             (filter (fun p => Is_true (policy.profiles_select db user p))
                     (tbl_profiles db)).

End Browse.

(** *** The form of the CreateRequest page

    [fetchData] fills the two select boxes of the form: the skills the user
    offers and the skills the target user offers, those that are approved.
    The value of an item is the [id] of its skill. *)
Module CreateRequestForm.

Definition skillsOffered (db : database) (viewer owner : uuid)
    : list skills.row :=
  filter (fun s => skills.user_id s = owner ∧ skills.is_offering s = true
                   ∧ skills.is_approved s = true)
         (filter (fun s => Is_true (skill_policy.select db viewer s))
                 (tbl_skills db)).



End CreateRequestForm.

(** * Properties *)

(** ** The status write and its policy *)

Section status_write.
Context (now : timestamptz) (uid request : uuid) (s : request_status)
        (db : database).

Lemma policy_blind_to_status (r : skill_requests.row) :
  policy.skill_requests_update db uid (touch_status s now r)
  = policy.skill_requests_update db uid r.
Proof. reflexivity. Qed.

Lemma update_reaches_spec (r : skill_requests.row) :
  update_reaches db uid request r = true
  ↔ skill_requests.id r = request ∧ may_write db uid r.
Proof.
  unfold update_reaches, policy.skill_requests_select,
    policy.skill_requests_update, may_write.
  rewrite !andb_true_iff, !orb_true_iff, !bool_decide_eq_true.
  tauto.
Qed.

Lemma update_status_ok :
  update_status now uid request s db
  = ok (set_skill_requests
          ((fun r => if update_reaches db uid request r
                     then touch_status s now r else r)
             <$> tbl_skill_requests db) db).
Proof.
  unfold update_status.
  replace (forallb _ _) with true; [done|].
  symmetry. apply forallb_forall. intros r _.
  rewrite policy_blind_to_status. unfold update_reaches.
  destruct (bool_decide _), (policy.skill_requests_select _ _ _),
    (policy.skill_requests_update _ _ _); done.
Qed.

Lemma update_status_row (db' : database) (i : nat) (r : skill_requests.row) :
  update_status now uid request s db = ok db' →
  tbl_skill_requests db !! i = Some r →
  tbl_skill_requests db' !! i
  = Some (if update_reaches db uid request r then touch_status s now r else r).
Proof.
  rewrite update_status_ok. intros [= <-] Hi. cbn.
  by rewrite list_lookup_fmap, Hi.
Qed.

Lemma update_status_written (db' : database) (i : nat)
    (r : skill_requests.row) :
  update_status now uid request s db = ok db' →
  tbl_skill_requests db !! i = Some r →
  skill_requests.id r = request → may_write db uid r →
  tbl_skill_requests db' !! i = Some (touch_status s now r).
Proof.
  intros Hok Hi Hid Hw. rewrite (update_status_row _ _ _ Hok Hi).
  by rewrite (proj2 (update_reaches_spec r) (conj Hid Hw)).
Qed.

Lemma update_status_skipped (db' : database) (i : nat)
    (r : skill_requests.row) :
  update_status now uid request s db = ok db' →
  tbl_skill_requests db !! i = Some r →
  ¬ (skill_requests.id r = request ∧ may_write db uid r) →
  tbl_skill_requests db' !! i = Some r.
Proof.
  intros Hok Hi Hn. rewrite (update_status_row _ _ _ Hok Hi).
  destruct (update_reaches db uid request r) eqn:E; [|done].
  by apply update_reaches_spec in E.
Qed.

End status_write.

Lemma visible_requests_spec (db : database) (uid : uuid)
    (r : skill_requests.row) :
  r ∈ visible_requests db uid ↔ r ∈ tbl_skill_requests db ∧ may_write db uid r.
Proof.
  unfold visible_requests, may_write. rewrite list_elem_of_filter.
  unfold policy.skill_requests_select.
  rewrite Is_true_true, !orb_true_iff, !bool_decide_eq_true. tauto.
Qed.

(** A button is rendered only for a row of the fetched database that
    entitles the user to it. *)
Lemma rendered_entitled (user : uuid) (db : database) (b : Requests.button) :
  Requests.rendered (Requests.fetchRequests user db) b = true →
  ∃ r, r ∈ tbl_skill_requests db ∧ entitles user b r.
Proof.
  destruct b as [i|i|i|i]; cbn; rewrite bool_decide_eq_true;
    intros (r & -> & Hr)%list_elem_of_fmap;
    unfold visible_requests in Hr;
    repeat (apply list_elem_of_filter in Hr as [? Hr]);
    exists r; (split; [exact Hr|]); cbn; intuition.
Qed.

(** Conversely, a row that entitles the user gets its button. *)
Lemma entitled_rendered (user : uuid) (db : database) (b : Requests.button)
    (r : skill_requests.row) :
  r ∈ tbl_skill_requests db → entitles user b r →
  Requests.rendered (Requests.fetchRequests user db) b = true.
Proof.
  intros Hr He.
  assert (Hv : r ∈ visible_requests db user).
  { apply visible_requests_spec. split; [done|]. unfold may_write.
    destruct b; cbn in He; intuition. }
  destruct b as [i|i|i|i]; cbn in *; rewrite bool_decide_eq_true;
    destruct He as (<- & He1 & He2); apply list_elem_of_fmap_2.
  - apply list_elem_of_filter; split; [done|exact Hv].
  - apply list_elem_of_filter; split; [done|exact Hv].
  - apply list_elem_of_filter; split; [done|].
    apply list_elem_of_filter; split; [|exact Hv].
    split; [done|]. rewrite He2. apply list_elem_of_here.
  - apply list_elem_of_filter; split; [done|exact Hv].
Qed.

(** [evaluated H t]: the value of the closed term [t], as the equation [H]. *)
Ltac evaluated H t :=
  let v := eval vm_compute in t in
  assert (H : t = v) by (vm_compute; reflexivity).

Lemma write_status_spec (s : request_status) (t1 t2 t3 : string)
    (now : timestamptz) (user request : uuid) (db : database) :
  ∃ db', update_status now user request s db = ok db'
         ∧ Requests.write_status s t1 t2 t3 now user request db
           = ({| title := t1; description := t2; destructive := false |}, db').
Proof.
  unfold Requests.write_status. rewrite update_status_ok. eauto.
Qed.

(** C1, as stated, fails: Alice, the requester of the completed request
    [r1], writes [accepted] over it and the policy lets the write through. *)
Lemma terminal_status_overwritten :
  ∃ r db',
    tbl_skill_requests completed_db = [r]
    ∧ skill_requests.requester_id r = "alice"
    ∧ terminal (skill_requests.status r) = true
    ∧ update_status 9 "alice" (skill_requests.id r) accepted completed_db
      = ok db'
    ∧ skill_requests.status <$> tbl_skill_requests db' = [accepted].
Proof.
  do 2 eexists. split; [vm_compute; reflexivity|].
  repeat split; vm_compute; reflexivity.
Qed.

(** C1 (amended).  A status is always one of the five values of the enum.
    The update policy of [skill_requests] lets a status write through for
    the requester, the provider and an admin and for nobody else, and does
    not look at the status the row has: the write is applied to a row in a
    terminal state as to any other.  What keeps terminal rows from being
    written is the Requests page, which renders a button only for a row it
    fetched as pending or accepted. *)
Theorem status_write_scope (now : timestamptz) (uid request : uuid)
    (s : request_status) (db : database) :
  (∀ r : skill_requests.row,
     skill_requests.status r ∈ [pending; accepted; completed; cancelled; rejected])
  ∧ (∃ db', update_status now uid request s db = ok db'
       ∧ ∀ i r, tbl_skill_requests db !! i = Some r →
           (skill_requests.id r = request → may_write db uid r →
            tbl_skill_requests db' !! i = Some (touch_status s now r))
           ∧ (¬ (skill_requests.id r = request ∧ may_write db uid r) →
              tbl_skill_requests db' !! i = Some r))
  ∧ (∀ b, Requests.rendered (Requests.fetchRequests uid db) b = true →
       ∃ r, r ∈ tbl_skill_requests db ∧ entitles uid b r
            ∧ terminal (skill_requests.status r) = false).
Proof.
  split; [|split].
  - intros r. destruct (skill_requests.status r);
      repeat first [apply list_elem_of_here | apply list_elem_of_further].
  - eexists. split; [apply update_status_ok|].
    intros i r Hi. split.
    + intros. by eapply update_status_written; [apply update_status_ok|..].
    + intros. by eapply update_status_skipped; [apply update_status_ok|..].
  - intros b (r & Hr & He)%rendered_entitled. exists r.
    split; [done|]. split; [done|].
    destruct b; cbn in He; destruct He as (_ & _ & ->); done.
Qed.

Lemma status_write_scope_witness :
  ∃ db', update_status 9 "alice" "r1" accepted completed_db = ok db'
         ∧ skill_requests.status <$> tbl_skill_requests db' !! 0%nat
           = Some accepted.
Proof.
  destruct (status_write_scope 9 "alice" "r1" accepted completed_db)
    as (_ & (db' & Hok & Hrows) & _).
  exists db'. split; [exact Hok|].
  evaluated Hi (tbl_skill_requests completed_db !! 0%nat).
  destruct (Hrows _ _ Hi) as [Hw _].
  rewrite (Hw eq_refl (or_introl eq_refl)). reflexivity.
Defined.

(** C6, as stated, fails: Bob, the provider and not the requester, cancels
    the request [r1] after he accepted it. *)
Lemma provider_cancels_accepted :
  ∃ r t db',
    tbl_skill_requests accepted_db = [r]
    ∧ skill_requests.requester_id r ≠ "bob"
    ∧ skill_requests.status r = accepted
    ∧ Requests.handleDeleteRequest 8 "bob" (skill_requests.id r) accepted_db
      = (t, db')
    ∧ destructive t = false
    ∧ skill_requests.status <$> tbl_skill_requests db' = [cancelled].
Proof.
  do 3 eexists. split; [vm_compute; reflexivity|].
  split; [vm_compute; discriminate|].
  repeat split; vm_compute; reflexivity.
Qed.

(** C6 (amended).  The page renders Cancel exactly for the requests it
    fetched with the user as requester and the status pending; a click on a
    button it does not render changes nothing, and a click on the Cancel of
    the requester's pending request takes the row to [cancelled].  The
    handler itself writes [cancelled] by id and the policy lets the write
    through for the requester, the provider and an admin, whatever the
    status of the row; for anyone else the row stays as it is. *)
Theorem cancel_scope (now : timestamptz) (user request : uuid)
    (db : database) :
  (Requests.rendered (Requests.fetchRequests user db) (Requests.Cancel request)
     = true
   ↔ ∃ r, r ∈ tbl_skill_requests db ∧ skill_requests.id r = request
          ∧ skill_requests.requester_id r = user
          ∧ skill_requests.status r = pending)
  ∧ (Requests.rendered (Requests.fetchRequests user db) (Requests.Cancel request)
       = false →
     Requests.click (Requests.fetchRequests user db) (Requests.Cancel request)
       now user db = (None, db))
  ∧ (∀ i r, tbl_skill_requests db !! i = Some r →
       skill_requests.id r = request →
       skill_requests.requester_id r = user →
       skill_requests.status r = pending →
       ∃ t db',
         Requests.click (Requests.fetchRequests user db)
           (Requests.Cancel request) now user db = (Some t, db')
         ∧ destructive t = false
         ∧ skill_requests.status <$> tbl_skill_requests db' !! i
           = Some cancelled)
  ∧ (∃ t db', Requests.handleDeleteRequest now user request db = (t, db')
       ∧ destructive t = false
       ∧ ∀ i r, tbl_skill_requests db !! i = Some r →
           (skill_requests.id r = request → may_write db user r →
            tbl_skill_requests db' !! i = Some (touch_status cancelled now r))
           ∧ (¬ (skill_requests.id r = request ∧ may_write db user r) →
              tbl_skill_requests db' !! i = Some r)).
Proof.
  destruct (write_status_spec cancelled "Request Deleted"
              "Your outgoing request has been cancelled."
              "Failed to cancel request." now user request db)
    as (db' & Hok & Hw).
  split; [|split; [|split]].
  - split.
    + intros (r & Hr & He)%rendered_entitled. exists r. cbn in He. tauto.
    + intros (r & Hr & He). eapply entitled_rendered; [exact Hr|exact He].
  - intros Hn. unfold Requests.click. by rewrite Hn.
  - intros i r Hi Hid Hreq Hst.
    eexists _, db'. unfold Requests.click.
    rewrite (entitled_rendered user db (Requests.Cancel request) r);
      [|by eapply list_elem_of_lookup_2|done].
    cbn. unfold Requests.handleDeleteRequest. rewrite Hw.
    split; [done|]. split; [done|].
    rewrite (update_status_written _ _ _ _ _ _ _ _ Hok Hi Hid); [done|].
    by left.
  - eexists _, db'. split; [exact Hw|]. split; [done|].
    intros i r Hi. split; intros.
    + by eapply update_status_written.
    + by eapply update_status_skipped.
Qed.

Lemma cancel_scope_witness :
  Requests.click (Requests.fetchRequests "bob" accepted_db)
    (Requests.Cancel "r1") 8 "bob" accepted_db = (None, accepted_db)
  ∧ ∃ t db',
      Requests.click (Requests.fetchRequests "alice" pending_db)
        (Requests.Cancel "r1") 7 "alice" pending_db = (Some t, db')
      ∧ destructive t = false
      ∧ skill_requests.status <$> tbl_skill_requests db' !! 0%nat
        = Some cancelled.
Proof.
  split.
  - destruct (cancel_scope 8 "bob" "r1" accepted_db) as (_ & Hclick & _ & _).
    apply Hclick. vm_compute. reflexivity.
  - destruct (cancel_scope 7 "alice" "r1" pending_db) as (_ & _ & Hcancel & _).
    evaluated Hi (tbl_skill_requests pending_db !! 0%nat).
    exact (Hcancel _ _ Hi eq_refl eq_refl eq_refl).
Defined.

(** C7.  Either party to an accepted request gets the Complete button, and
    its one click, the write of one party, takes the row to [completed]; so
    does the button of the chat header. *)
Theorem either_party_completes (now : timestamptz) (user : uuid)
    (db : database) (i : nat) (r : skill_requests.row) :
  tbl_skill_requests db !! i = Some r →
  skill_requests.status r = accepted →
  user = skill_requests.requester_id r ∨ user = skill_requests.provider_id r →
  (∃ t db',
     Requests.click (Requests.fetchRequests user db)
       (Requests.Complete (skill_requests.id r)) now user db = (Some t, db')
     ∧ destructive t = false
     ∧ skill_requests.status <$> tbl_skill_requests db' !! i = Some completed)
  ∧ (∀ p, Chat.skillRequest p = Some r →
       Chat.complete_rendered p = true
       ∧ ∃ t db', Chat.handleCompleteSwap p now user db = (Some t, db')
           ∧ destructive t = false
           ∧ skill_requests.status <$> tbl_skill_requests db' !! i
             = Some completed).
Proof.
  intros Hi Hacc Hparty.
  assert (Hw : may_write db user r) by (unfold may_write; tauto).
  destruct (write_status_spec completed "Swap Completed!"
              "Don't forget to rate your partner."
              "Failed to complete swap." now user (skill_requests.id r) db)
    as (db' & Hok & Hh).
  pose proof (update_status_written _ _ _ _ _ _ _ _ Hok Hi eq_refl Hw) as Hrow.
  split.
  - exists {| title := "Swap Completed!";
              description := "Don't forget to rate your partner.";
              destructive := false |}, db'.
    unfold Requests.click.
    rewrite (entitled_rendered user db (Requests.Complete _) r);
      [|by eapply list_elem_of_lookup_2|by cbn; intuition].
    cbn. unfold Requests.handleCompleteSwap. rewrite Hh.
    split; [done|]. split; [done|]. by rewrite Hrow.
  - intros p Hp. split.
    + unfold Chat.complete_rendered. rewrite Hp.
      by apply bool_decide_eq_true.
    + unfold Chat.handleCompleteSwap. rewrite Hp, Hok.
      eexists _, db'. split; [done|]. split; [done|]. by rewrite Hrow.
Qed.

Lemma either_party_completes_witness :
  ∃ t db',
    Requests.click (Requests.fetchRequests "bob" accepted_db)
      (Requests.Complete "r1") 8 "bob" accepted_db = (Some t, db')
    ∧ destructive t = false
    ∧ skill_requests.status <$> tbl_skill_requests db' !! 0%nat
      = Some completed.
Proof.
  evaluated Hi (tbl_skill_requests accepted_db !! 0%nat).
  exact (proj1 (either_party_completes 8 "bob" accepted_db 0 _ Hi eq_refl
                  (or_intror eq_refl))).
Defined.

(** ** Ratings *)

Lemma set_profiles_same (db : database) : set_profiles (tbl_profiles db) db = db.
Proof. by destruct db. Qed.

(** The trigger writes to [profiles] and to nothing else. *)
Lemma update_profile_stats_frame (now : timestamptz) (uid : uuid)
    (NEW : ratings.row) (db db' : database) :
  update_profile_stats now uid NEW db = ok db' →
  db' = set_profiles (tbl_profiles db') db.
Proof.
  unfold update_profile_stats. destruct (existsb _ _).
  - destruct (to_decimal_3_2 _); [|done]. destruct (to_integer _); [|done].
    by intros [= <-].
  - intros [= <-]. by rewrite set_profiles_same.
Qed.

(** What a successful insert of a rating has passed, and what it leaves. *)
Lemma insert_rating_ok (now : timestamptz) (uid fresh request rater rated : uuid)
    (score : Z) (fb : option string) (db db' : database) :
  insert_rating now uid fresh request rater rated score fb db = ok db' →
  let NEW := {| ratings.id := fresh; ratings.request_id := request;
                ratings.rater_id := rater; ratings.rated_id := rated;
                ratings.rating := score; ratings.feedback := fb;
                ratings.created_at := now |} in
  uid = rater
  ∧ (1 <= score <= 5)%Z
  ∧ ((request, rater) ∉ rating_key <$> tbl_ratings db)
  ∧ request ∈ skill_requests.id <$> tbl_skill_requests db
  ∧ tbl_ratings db' = tbl_ratings db ++ [NEW]
  ∧ update_profile_stats now uid NEW (set_ratings (tbl_ratings db ++ [NEW]) db)
    = ok db'.
Proof.
  unfold insert_rating, policy.ratings_insert.
  destruct ((- 2 ^ 31 <=? score)%Z && (score <? 2 ^ 31)%Z); [|done]. cbn.
  destruct (bool_decide (uid = rater)) eqn:Hu; [|done]. cbn.
  destruct ((1 <=? score)%Z && (score <=? 5)%Z) eqn:Hs; [|done]. cbn.
  destruct (bool_decide (fresh ∈ _)); [done|]. cbn.
  destruct (bool_decide ((request, rater) ∈ _)) eqn:Hk; [done|]. cbn.
  destruct (bool_decide (request ∈ _)) eqn:Hr; [|done]. cbn.
  destruct (bool_decide (rater ∈ _) && bool_decide (rated ∈ _)); [|done]. cbn.
  intros Ht.
  apply bool_decide_eq_true in Hu, Hr. apply bool_decide_eq_false in Hk.
  apply andb_true_iff in Hs as [?%Z.leb_le ?%Z.leb_le].
  repeat split; try done.
  apply update_profile_stats_frame in Ht. by rewrite Ht.
Qed.

(** The unique constraint refuses a second rating with the same key, whoever
    sends it and whatever else it says. *)
Lemma insert_rating_duplicate (now : timestamptz)
    (uid fresh request rater rated : uuid) (score : Z) (fb : option string)
    (db : database) :
  (request, rater) ∈ rating_key <$> tbl_ratings db →
  ∃ e, insert_rating now uid fresh request rater rated score fb db = failed e.
Proof.
  intros Hin.
  destruct (insert_rating now uid fresh request rater rated score fb db)
    as [db'|e] eqn:E; [|by eauto].
  by apply insert_rating_ok in E as (_ & _ & Hk & _).
Qed.

Lemma execute_ratings (now : timestamptz) (s : statement) (db db' : database) :
  execute now s db = ok db' →
  tbl_ratings db' = tbl_ratings db
  ∨ ∃ r, (rating_key r ∉ rating_key <$> tbl_ratings db)
         ∧ tbl_ratings db' = tbl_ratings db ++ [r].
Proof.
  destruct s; cbn.
  - unfold handle_new_user; repeat case_match; try done;
      intros [= <-]; by left.
  - unfold insert_skill; repeat case_match; try done;
      intros [= <-]; by left.
  - unfold insert_skill_request; repeat case_match; try done;
      intros [= <-]; by left.
  - rewrite update_status_ok. intros [= <-]. by left.
  - intros (_ & _ & Hk & _ & Hr & _)%insert_rating_ok. right.
    eexists. split; [|exact Hr]. exact Hk.
  - unfold insert_message; repeat case_match; try done;
      intros [= <-]; by left.
  - unfold insert_user_role; repeat case_match; try done;
      intros [= <-]; by left.
Qed.

Lemma run_rating_keys (history : list (timestamptz * statement))
    (db db' : database) :
  NoDup (rating_key <$> tbl_ratings db) →
  run history db = ok db' →
  NoDup (rating_key <$> tbl_ratings db').
Proof.
  revert db. induction history as [|[now s] history IH]; intros db Hnd; cbn.
  - by intros [= <-].
  - destruct (execute now s db) as [db1|] eqn:E; [|done].
    apply IH. apply execute_ratings in E as [->|(r & Hr & ->)]; [done|].
    rewrite fmap_app. apply NoDup_app. split; [done|]. split.
    + intros k Hk ->%list_elem_of_singleton. done.
    + apply NoDup_singleton.
Qed.

Lemma reachable_rating_keys (db : database) :
  reachable db → NoDup (rating_key <$> tbl_ratings db).
Proof.
  intros [history Hrun]. eapply run_rating_keys; [|exact Hrun]. apply NoDup_nil_2.
Qed.

(** C2.  In every database the statements lead to, no two ratings share
    the pair (request_id, rater_id); an insert of a second rating with the
    pair of an existing one fails, and the page that sent it leaves the
    database, and so the first rating, as it was. *)
Theorem rating_pair_unique (db : database) :
  reachable db →
  NoDup (rating_key <$> tbl_ratings db)
  ∧ (∀ r, r ∈ tbl_ratings db →
       (∀ now uid fresh rated score fb,
          ∃ e, insert_rating now uid fresh (ratings.request_id r)
                 (ratings.rater_id r) rated score fb db = failed e)
       ∧ (∀ l sr stars feedback now fresh,
            Rate.skillRequest l = Some sr →
            skill_requests.id sr = ratings.request_id r →
            ∃ out, Rate.submitRating l stars feedback now (ratings.rater_id r)
                     fresh db = (out, db)
                   ∧ out ≠ Rate.rating_submitted)).
Proof.
  intros Hreach. split; [by apply reachable_rating_keys|].
  intros r Hr.
  assert (Hk : (ratings.request_id r, ratings.rater_id r)
               ∈ rating_key <$> tbl_ratings db).
  { by apply (list_elem_of_fmap_2 rating_key). }
  split.
  - intros. by apply insert_rating_duplicate.
  - intros l sr stars feedback now fresh Hl Hid.
    unfold Rate.submitRating. rewrite Hl.
    destruct (bool_decide (stars = 0%Z)); [by eexists|].
    rewrite Hid.
    edestruct insert_rating_duplicate as [e ->]; [exact Hk|]. by eexists.
Qed.

Lemma rating_pair_unique_witness :
  ∃ e, insert_rating 10 "alice" "g2" "r1" "alice" "bob" 3 None rated_db
       = failed e.
Proof.
  assert (Hreach : reachable rated_db)
    by (exists rated_history; vm_compute; reflexivity).
  destruct (rating_pair_unique rated_db Hreach) as [_ Hdup].
  evaluated Hrows (tbl_ratings rated_db).
  match type of Hrows with
  | _ = ?r :: _ =>
      assert (Hin : r ∈ tbl_ratings rated_db)
        by (rewrite Hrows; apply list_elem_of_here);
      destruct (Hdup r Hin) as [Hins _]
  end.
  exact (Hins 10%Z "alice" "g2" "bob" 3%Z None).
Defined.

(** A key that occurs once among the keys of a list picks out one row. *)
Lemma filter_none {A} (P : A → Prop) `{∀ x, Decision (P x)} (l : list A) :
  (∀ x, x ∈ l → ¬ P x) → filter P l = [].
Proof.
  induction l as [|a l IH]; intros Hl; [done|].
  rewrite filter_cons_False by (apply Hl, list_elem_of_here).
  apply IH. intros x Hx. apply Hl. by apply list_elem_of_further.
Qed.

Lemma filter_unique_key {A K} `{EqDecision K} (f : A → K) (l : list A) (k : K) :
  NoDup (f <$> l) → k ∈ f <$> l → ∃ x, filter (fun y => f y = k) l = [x].
Proof.
  induction l as [|a l IH]; rewrite ?fmap_cons.
  - by intros _ ?%elem_of_nil.
  - intros [Ha Hnd]%NoDup_cons Hk.
    destruct (decide (f a = k)) as [<-|Hne].
    + exists a. rewrite filter_cons_True by done. f_equal.
      apply filter_none. intros x Hx Hfx. apply Ha. rewrite <- Hfx.
      by apply list_elem_of_fmap_2.
    + rewrite filter_cons_False by done. apply IH; [done|].
      apply elem_of_cons in Hk as [?|?]; [congruence|done].
Qed.

(** A load of the Rate page that gets through has found the request, with
    the user as one of its two parties. *)
Lemma fetchSkillRequest_shown (user requestId : uuid) (db : database)
    (sr : skill_requests.row) :
  Rate.skillRequest (Rate.fetchSkillRequest user requestId db) = Some sr →
  sr ∈ tbl_skill_requests db
  ∧ skill_requests.id sr = requestId
  ∧ (skill_requests.requester_id sr = user
     ∨ skill_requests.provider_id sr = user).
Proof.
  unfold Rate.fetchSkillRequest.
  destruct (filter _ (visible_requests db user)) as [|r [|]] eqn:E; try done.
  destruct (bool_decide (skill_requests.requester_id r ≠ user)
            && bool_decide (skill_requests.provider_id r ≠ user)) eqn:Hp;
    [done|].
  destruct (single _); [done|]. cbn. intros [= ->].
  assert (Hin : sr ∈ filter (fun r => skill_requests.id r = requestId)
                       (visible_requests db user))
    by (rewrite E; apply list_elem_of_here).
  apply list_elem_of_filter in Hin as [Hid Hin].
  apply visible_requests_spec in Hin as [Hin _].
  split; [done|]. split; [done|].
  apply andb_false_iff in Hp as [Hp|Hp]; apply bool_decide_eq_false in Hp.
  - left. by destruct (decide (skill_requests.requester_id sr = user)).
  - right. by destruct (decide (skill_requests.provider_id sr = user)).
Qed.

(** The read before the write finds the rating the user has already given. *)
Lemma fetchSkillRequest_rated (user requestId : uuid) (db : database) :
  NoDup (rating_key <$> tbl_ratings db) →
  (requestId, user) ∈ rating_key <$> tbl_ratings db →
  Rate.skillRequest (Rate.fetchSkillRequest user requestId db) = None.
Proof.
  intros Hnd Hk. unfold Rate.fetchSkillRequest.
  destruct (filter _ (visible_requests db user)) as [|r [|]]; try done.
  destruct (_ && _); [done|].
  replace (filter _ (filter _ (tbl_ratings db)))
    with (filter (fun r => rating_key r = (requestId, user)) (tbl_ratings db)).
  { destruct (filter_unique_key rating_key _ _ Hnd Hk) as [x ->]. done. }
  rewrite list_filter_filter. apply list_filter_iff. intros x.
  unfold rating_key, policy.ratings_select. split.
  - intros [= <- <-]. split; [done|].
    by rewrite bool_decide_true.
  - by intros [[-> ->] _].
Qed.

(** C5, as stated, fails: Carol is neither the requester nor the provider
    of the request of Alice and Bob, and her insert of a rating for it, with
    herself as rater, goes through. *)
Lemma outsider_rating_goes_in :
  ∃ db' sr r,
    insert_rating 10 "carol" "g9" "r1" "carol" "bob" 1 None bystander_db
    = ok db'
    ∧ tbl_skill_requests bystander_db = [sr]
    ∧ skill_requests.id sr = "r1"%string
    ∧ skill_requests.requester_id sr ≠ "carol"%string
    ∧ skill_requests.provider_id sr ≠ "carol"%string
    ∧ is_admin bystander_db "carol" = false
    ∧ tbl_ratings db' = tbl_ratings bystander_db ++ [r]
    ∧ ratings.request_id r = "r1"%string
    ∧ ratings.rater_id r = "carol"%string.
Proof.
  do 3 eexists. split; [vm_compute; reflexivity|].
  split; [vm_compute; reflexivity|]. split; [reflexivity|].
  split; [discriminate|]. split; [discriminate|].
  repeat split; vm_compute; reflexivity.
Qed.

(** C5 (amended).  A rating submitted from the Rate page goes in only when
    the page, as loaded, found the user to be the requester or the provider
    of the request.  When the user has already rated the request the load
    does not get through (the read before the write) and nothing is
    submitted; and whatever the page had read, the insert of a second rating
    for the pair is refused by the unique constraint and leaves the database
    as it was.  At the store, the insert policy lets a row through exactly
    when its rater is the caller, the parties of the request playing no
    part, and an insert that goes through is by its rater, for a pair that
    had no rating. *)
Theorem rating_submission_guarded (user requestId : uuid)
    (db0 db : database) :
  (∀ stars feedback now fresh db',
     Rate.submitRating (Rate.fetchSkillRequest user requestId db0)
       stars feedback now user fresh db = (Rate.rating_submitted, db') →
     ∃ sr r, sr ∈ tbl_skill_requests db0
             ∧ skill_requests.id sr = requestId
             ∧ (skill_requests.requester_id sr = user
                ∨ skill_requests.provider_id sr = user)
             ∧ tbl_ratings db' = tbl_ratings db ++ [r]
             ∧ ratings.request_id r = requestId
             ∧ ratings.rater_id r = user
             ∧ ratings.rated_id r ∈ [skill_requests.requester_id sr;
                                     skill_requests.provider_id sr])
  ∧ (reachable db0 →
     (requestId, user) ∈ rating_key <$> tbl_ratings db0 →
     ∀ stars feedback now fresh,
       Rate.submitRating (Rate.fetchSkillRequest user requestId db0)
         stars feedback now user fresh db = (Rate.not_submitted, db))
  ∧ ((requestId, user) ∈ rating_key <$> tbl_ratings db →
     ∀ stars feedback now fresh,
       ∃ out, Rate.submitRating (Rate.fetchSkillRequest user requestId db0)
                stars feedback now user fresh db = (out, db)
              ∧ out ≠ Rate.rating_submitted)
  ∧ (∀ uid r, policy.ratings_insert uid r = true ↔ uid = ratings.rater_id r)
  ∧ (∀ now uid fresh rater rated score fb db',
       insert_rating now uid fresh requestId rater rated score fb db = ok db' →
       uid = rater ∧ (requestId, rater) ∉ rating_key <$> tbl_ratings db).
Proof.
  split; [|split; [|split; [|split]]].
  - intros stars feedback now fresh db'. unfold Rate.submitRating.
    destruct (Rate.skillRequest _) as [sr|] eqn:Hl; [|done].
    destruct (bool_decide (stars = 0%Z)); [done|].
    destruct (insert_rating _ _ _ _ _ _ _ _ _) as [db1|e] eqn:Hins; [|done].
    intros [= <-].
    apply fetchSkillRequest_shown in Hl as (Hsr & Hid & Hparty).
    apply insert_rating_ok in Hins as (_ & _ & _ & _ & Hrows & _).
    eexists sr, _. repeat (split; [done|]). cbn.
    destruct (bool_decide _).
    + apply list_elem_of_further, list_elem_of_here.
    + apply list_elem_of_here.
  - intros Hreach Hk stars feedback now fresh. unfold Rate.submitRating.
    by rewrite fetchSkillRequest_rated; [|apply reachable_rating_keys|].
  - intros Hk stars feedback now fresh. unfold Rate.submitRating.
    destruct (Rate.skillRequest _) as [sr|] eqn:Hl; [|by eexists].
    destruct (bool_decide (stars = 0%Z)); [by eexists|].
    apply fetchSkillRequest_shown in Hl as (_ & -> & _).
    edestruct insert_rating_duplicate as [e ->]; [exact Hk|]. by eexists.
  - intros uid r. unfold policy.ratings_insert. apply bool_decide_eq_true.
  - intros now uid fresh rater rated score fb db' Hins.
    by apply insert_rating_ok in Hins as (-> & _ & Hk & _).
Qed.

Lemma rating_submission_guarded_witness :
  (∃ sr r, sr ∈ tbl_skill_requests completed_db
           ∧ skill_requests.id sr = "r1"
           ∧ (skill_requests.requester_id sr = "alice"
              ∨ skill_requests.provider_id sr = "alice")
           ∧ tbl_ratings rated_db = tbl_ratings completed_db ++ [r]
           ∧ ratings.request_id r = "r1"
           ∧ ratings.rater_id r = "alice"
           ∧ ratings.rated_id r ∈ [skill_requests.requester_id sr;
                                   skill_requests.provider_id sr])
  ∧ Rate.submitRating (Rate.fetchSkillRequest "alice" "r1" rated_db)
      5 "again" 10 "alice" "g2" rated_db = (Rate.not_submitted, rated_db)
  ∧ (∃ out, Rate.submitRating (Rate.fetchSkillRequest "alice" "r1" completed_db)
              5 "again" 10 "alice" "g2" rated_db = (out, rated_db)
            ∧ out ≠ Rate.rating_submitted)
  ∧ ("alice"%string = "alice"%string
     ∧ ("r1"%string, "alice"%string) ∉ rating_key <$> tbl_ratings completed_db).
Proof.
  split; [|split; [|split]].
  - apply (proj1 (rating_submission_guarded "alice" "r1" completed_db
                    completed_db) 5%Z " great " 9%Z "g1" rated_db).
    vm_compute. reflexivity.
  - apply (proj1 (proj2 (rating_submission_guarded "alice" "r1" rated_db
                           rated_db))).
    + exists rated_history. vm_compute. reflexivity.
    + vm_compute. apply list_elem_of_here.
  - apply (proj2 (proj2 (rating_submission_guarded "alice" "r1" completed_db
                           rated_db))).
    vm_compute. apply list_elem_of_here.
  - apply (proj2 (proj2 (proj2 (proj2
             (rating_submission_guarded "alice" "r1" completed_db
                completed_db))))
             9%Z "alice" "g1" "alice" "bob" 5%Z (Some "great"%string) rated_db).
    vm_compute. reflexivity.
Defined.

(** ** The aggregates of the profile *)

(** [round_half_away] picks an integer nearest to its argument. *)
Lemma round_half_away_nearest (q : Q) :
  (2 * Z.abs (round_half_away q * Z.pos (Qden q) - Qnum q) <= Z.pos (Qden q))%Z.
Proof.
  unfold round_half_away. destruct q as [n d]; cbn [Qnum Qden].
  set (D := Z.pos d). assert (0 < D)%Z by (subst D; lia).
  pose proof (Z.div_mod (2 * Z.abs n + D) (2 * D) ltac:(lia)) as Hdm.
  pose proof (Z.mod_pos_bound (2 * Z.abs n + D) (2 * D) ltac:(lia)) as Hm.
  set (k := ((2 * Z.abs n + D) / (2 * D))%Z) in *.
  destruct (Z.sgn_spec n) as [[? ->]|[[? ->]|[? ->]]]; lia.
Qed.

(** For an admin, and for the rated user, the policies hide none of the
    ratings the trigger averages. *)
Lemma ratings_received_all (db : database) (uid rated : uuid) :
  is_admin db uid = true ∨ uid = rated →
  ratings_received db uid rated = ratings_of db rated.
Proof.
  intros Hu. unfold ratings_received, ratings_of.
  rewrite list_filter_filter. apply list_filter_iff. intros r.
  unfold policy.ratings_select. split; [tauto|]. intros Hr. split; [done|].
  apply Is_true_true. rewrite !orb_true_iff, !bool_decide_eq_true.
  destruct Hu as [?| ->]; auto.
Qed.

(** Where the trigger's update reaches the profile, which is for an admin
    and for the rated user, a successful insert of a rating leaves in the
    same step the rating in [ratings] and, in the profile of the rated
    user, the mean of all the ratings with that [rated_id] rounded to two
    decimals (ties away from zero) as [average_rating], and the number of
    distinct [request_id] among them as [successful_swaps]. *)
Theorem profile_stats_recomputed (now : timestamptz)
    (uid fresh request rater rated : uuid) (score : Z) (fb : option string)
    (db db' : database) :
  insert_rating now uid fresh request rater rated score fb db = ok db' →
  is_admin db uid = true ∨ uid = rated →
  ∃ m, AVG (ratings.rating <$> ratings_of db' rated) = Some m
       ∧ ∀ p, p ∈ tbl_profiles db' → profiles.user_id p = rated →
           profiles.average_rating p = round_half_away (m * 100)
           ∧ profiles.successful_swaps p
             = COUNT_DISTINCT (ratings.request_id <$> ratings_of db' rated).
Proof.
  intros Hins Hu.
  apply insert_rating_ok in Hins as (_ & _ & _ & _ & Hrows & Ht).
  set (NEW := {| ratings.id := fresh |}) in *.
  set (db1 := set_ratings (tbl_ratings db ++ [NEW]) db) in *.
  assert (Hsame : ratings_of db' rated = ratings_of db1 rated).
  { unfold ratings_of. by rewrite Hrows. }
  rewrite Hsame.
  assert (Hnew : NEW ∈ ratings_of db1 rated).
  { apply list_elem_of_filter. split; [done|]. 
    apply elem_of_app. right. apply list_elem_of_here. }
  destruct (AVG (ratings.rating <$> ratings_of db1 rated)) as [m|] eqn:Hm.
  2:{ destruct (ratings_of db1 rated); [by apply elem_of_nil in Hnew|done]. }
  exists m. split; [done|].
  unfold update_profile_stats in Ht.
  change (ratings.rated_id NEW) with rated in Ht.
  rewrite (ratings_received_all db1 uid rated Hu), Hm in Ht.
  match type of Ht with context [existsb ?f _] => set (reaches := f) in Ht end.
  assert (Hreaches : ∀ p, profiles.user_id p = rated → reaches p = true).
  { intros p Hp. subst reaches. cbn beta.
    unfold policy.profiles_select, policy.profiles_update.
    change (is_admin db1 uid) with (is_admin db uid).
    rewrite !andb_true_iff, !orb_true_iff, !bool_decide_eq_true.
    destruct Hu as [?| ->]; auto 10. }
  intros p Hp Hid.
  destruct (existsb reaches (tbl_profiles db1)) eqn:Hex.
  - unfold to_decimal_3_2, to_integer in Ht.
    change (default 0%Q (Some m)) with m in Ht.
    destruct (Z.abs (round_half_away (m * 100)) <? 1000)%Z;
      cbv beta iota in Ht; [|done].
    destruct ((- 2 ^ 31 <=? _)%Z && _); cbv beta iota in Ht; [|done].
    injection Ht as <-. cbn [tbl_profiles set_profiles] in Hp.
    apply list_elem_of_fmap in Hp as (p0 & -> & Hp0).
    pose proof (Hreaches p0) as Hr0. subst reaches. cbv beta in Hr0.
    destruct (bool_decide (profiles.user_id p0 = rated) && _ && _);
      [done|].
    by specialize (Hr0 Hid).
  - injection Ht as <-.
    assert (existsb reaches (tbl_profiles db1) = true); [|congruence].
    apply existsb_exists. exists p. split; [by apply list_elem_of_In|auto].
Qed.

(** The column keeps two decimals: Root, an admin, has rated Bob 5 and 4
    and now rates him 4; the column takes 4.33, the mean being 13/3. *)
Lemma average_rating_not_the_mean :
  ∃ db' p m,
    Rate.submitRating (Rate.fetchSkillRequest "root" "q3" twice_rated_db)
      4 "" 16 "root" "g3" twice_rated_db = (Rate.rating_submitted, db')
    ∧ p ∈ tbl_profiles db'
    ∧ profiles.user_id p = "bob"
    ∧ AVG (ratings.rating <$> ratings_of db' "bob") = Some m
    ∧ ¬ (decimal_value (profiles.average_rating p) == m)%Q.
Proof.
  do 3 eexists. split; [vm_compute; reflexivity|].
  split; [apply list_elem_of_further, list_elem_of_here|].
  split; [reflexivity|]. split; [vm_compute; reflexivity|].
  vm_compute. discriminate.
Qed.


Lemma profile_stats_recomputed_witness :
  ∃ db' m,
    insert_rating 16 "root" "g3" "q3" "root" "bob" 4 None twice_rated_db
    = ok db'
    ∧ AVG (ratings.rating <$> ratings_of db' "bob") = Some m
    ∧ ∀ p, p ∈ tbl_profiles db' → profiles.user_id p = "bob" →
        profiles.average_rating p = round_half_away (m * 100)
        ∧ profiles.successful_swaps p
          = COUNT_DISTINCT (ratings.request_id <$> ratings_of db' "bob").
Proof.
  evaluated Hins
    (insert_rating 16 "root" "g3" "q3" "root" "bob" 4 None twice_rated_db).
  assert (Hroot : is_admin twice_rated_db "root" = true ∨ "root" = "bob")
    by (left; vm_compute; reflexivity).
  destruct (profile_stats_recomputed _ _ _ _ _ _ _ _ _ _ Hins Hroot)
    as (m & Hm & Hp).
  eexists _, m. split; [exact Hins|]. split; [exact Hm|exact Hp].
Defined.

(** The trigger runs with the rights of the rater.  For a rater who is
    neither the rated user nor an admin, which is every user who rates a
    partner, the policy "Users can update their own profile" keeps the
    trigger's update away from the profile of the rated user, and a
    successful insert leaves every profile as it was. *)
Lemma rating_of_partner_keeps_profiles (now : timestamptz)
    (uid fresh request rater rated : uuid) (score : Z) (fb : option string)
    (db db' : database) :
  insert_rating now uid fresh request rater rated score fb db = ok db' →
  is_admin db uid = false → uid ≠ rated →
  tbl_profiles db' = tbl_profiles db
  ∧ ∃ r, tbl_ratings db' = tbl_ratings db ++ [r]
         ∧ ratings.rated_id r = rated ∧ ratings.rating r = score.
Proof.
  intros Hins Hadmin Hne.
  apply insert_rating_ok in Hins as (_ & _ & _ & _ & Hrows & Ht).
  split; [|by eexists].
  unfold update_profile_stats in Ht. cbv zeta in Ht.
  match type of Ht with context [existsb ?f _] => set (reaches := f) in Ht end.
  assert (Hnone : existsb reaches (tbl_profiles db) = false).
  { apply not_true_is_false. intros (p & _ & Hp)%existsb_exists.
    subst reaches. cbv beta in Hp.
    apply andb_true_iff in Hp as [[Hid%bool_decide_eq_true _]%andb_true_iff Hup].
    unfold policy.profiles_update in Hup.
    change (is_admin (set_ratings _ db) uid) with (is_admin db uid) in Hup.
    rewrite Hadmin, orb_false_r in Hup. apply bool_decide_eq_true in Hup.
    apply Hne. by rewrite Hup, Hid. }
  change (tbl_profiles (set_ratings _ db)) with (tbl_profiles db) in Ht.
  rewrite Hnone in Ht. by injection Ht as <-.
Qed.

(** C3.  The aggregates are stale after the rating of a partner.  Alice,
    the requester of the completed swap with Bob and no admin, rates Bob 5
    from the Rate page.  The rating is inserted, it is the one rating Bob
    has received, so that the mean is 5 and one request is counted; the
    trigger [update_profile_stats] has run in the insert, as Alice, and
    its update has reached no row: Bob's profile keeps [average_rating]
    0.00 and [successful_swaps] 0, and no profile has changed. *)
Theorem partner_rating_leaves_stats_stale :
  ∃ db' p m,
    Rate.submitRating (Rate.fetchSkillRequest "alice" "r1" completed_db)
      5 "great" 9 "alice" "g1" completed_db = (Rate.rating_submitted, db')
    ∧ ratings.rating <$> ratings_of db' "bob" = [5%Z]
    ∧ AVG (ratings.rating <$> ratings_of db' "bob") = Some m
    ∧ (m == 5)%Q
    ∧ COUNT_DISTINCT (ratings.request_id <$> ratings_of db' "bob") = 1%Z
    ∧ p ∈ tbl_profiles db'
    ∧ profiles.user_id p = "bob"%string
    ∧ profiles.average_rating p = 0%Z
    ∧ profiles.successful_swaps p = 0%Z
    ∧ tbl_profiles db' = tbl_profiles completed_db.
Proof.
  do 3 eexists. split; [vm_compute; reflexivity|].
  split; [vm_compute; reflexivity|]. split; [vm_compute; reflexivity|].
  split; [reflexivity|]. split; [vm_compute; reflexivity|].
  split; [do 2 apply list_elem_of_further; apply list_elem_of_here|].
  repeat split; vm_compute; reflexivity.
Qed.

(** ** Duplicate pending requests *)

(** The schema has no constraint on the ask: a request that went in goes in
    again under any unused key, with the first still pending. *)
Lemma insert_skill_request_again (now now' : timestamptz)
    (uid fresh fresh' requester provider offered wanted : uuid)
    (msg msg' : option string) (s : request_status) (db db' : database) :
  insert_skill_request now uid fresh requester provider offered wanted msg s db
  = ok db' →
  fresh' ∉ skill_requests.id <$> tbl_skill_requests db' →
  is_ok (insert_skill_request now' uid fresh' requester provider offered
           wanted msg' s db') = true.
Proof.
  intros Hok Hfresh. unfold insert_skill_request in *.
  unfold policy.skill_requests_insert in *. cbn in *.
  destruct (bool_decide (uid = requester)); cbn in *; [|done].
  destruct (bool_decide (fresh ∈ _)); [done|].
  destruct (_ && _ && _ && _) eqn:Hfk; cbn in *; [|done].
  injection Hok as <-. cbn in *.
  rewrite bool_decide_false by done. by rewrite Hfk.
Qed.

(** C4: the page sends the ask of a pending request a second time, without
    a read of the requests that exist, and the table takes it. *)
Lemma handleSubmitRequest_duplicate :
  ∃ r db',
    tbl_skill_requests pending_db = [r]
    ∧ CreateRequest.handleSubmitRequest (skill_requests.offered_skill_id r)
        (skill_requests.wanted_skill_id r) "hi"
        (Some (skill_requests.requester_id r))
        (Some (skill_requests.provider_id r)) 7 "r2" pending_db
      = (CreateRequest.request_sent, db')
    ∧ ask <$> tbl_skill_requests db'
      = [("alice", "bob", "s-piano", "s-french", pending);
         ("alice", "bob", "s-piano", "s-french", pending)].
Proof.
  do 2 eexists. split; [vm_compute; reflexivity|].
  split; vm_compute; reflexivity.
Qed.

(** The controller of the prototype does make the check: with a pending
    swap for the same users and skills in the store it answers 400 and
    saves nothing. *)
Lemma createSwapRequest_refuses_duplicate (req_user recipient : string)
    (offeredSkill requestedSkill : string) (message : option string)
    (s : swapController.store) (x : swapController.SwapRequest) :
  x ∈ swapController.swaps s →
  swapController.requester x = req_user →
  swapController.recipient x = recipient →
  swapController.offeredSkill x = offeredSkill →
  swapController.requestedSkill x = requestedSkill →
  swapController.status x = pending →
  ∃ r, swapController.createSwapRequest req_user recipient offeredSkill
         requestedSkill message s = (r, s)
       ∧ ∀ saved, r ≠ swapController.status_201 saved.
Proof.
  intros Hx H1 H2 H3 H4 H5. unfold swapController.createSwapRequest.
  destruct (negb (swapController.castable recipient)); [by eexists|].
  destruct (swapController.findById s recipient); [|by eexists].
  destruct (swapController.findById s req_user); [|by eexists].
  destruct (negb _); [by eexists|]. destruct (negb _); [by eexists|].
  destruct (swapController.findOne_pending _ _ _ _ _) eqn:Hf; [by eexists|].
  exfalso. unfold swapController.findOne_pending in Hf.
  apply head_None in Hf.
  eapply (filter_nil_not_elem_of _ _ x); [exact Hf| |exact Hx].
  by subst.
Qed.

(** ** Messages *)

#[global] Instance created_before_total : Total created_before.
Proof. intros m1 m2. unfold created_before. lia. Qed.

#[global] Instance created_before_trans : Transitive created_before.
Proof. intros m1 m2 m3. unfold created_before. lia. Qed.

Lemma NoDup_fmap_eq {A B} (f : A → B) (l : list A) (x y : A) :
  NoDup (f <$> l) → x ∈ l → y ∈ l → f x = f y → x = y.
Proof.
  induction l as [|a l IH]; [by intros _ ?%elem_of_nil|].
  rewrite fmap_cons. intros [Ha Hnd]%NoDup_cons Hx Hy Hf.
  apply elem_of_cons in Hx as [->|Hx]; apply elem_of_cons in Hy as [->|Hy].
  - done.
  - destruct Ha. rewrite Hf. by apply list_elem_of_fmap_2.
  - destruct Ha. rewrite <- Hf. by apply list_elem_of_fmap_2.
  - by apply IH.
Qed.

Lemma insert_message_ok (now : timestamptz) (uid fresh request sender : uuid)
    (text : string) (db db' : database) :
  insert_message now uid fresh request sender text db = ok db' →
  ∃ m, tbl_messages db' = tbl_messages db ++ [m]
       ∧ messages.created_at m = now
       ∧ messages.skill_request_id m = request
       ∧ messages.sender_id m = uid
       ∧ messages.content m = text.
Proof.
  unfold insert_message, policy.messages_insert. cbn.
  destruct (bool_decide (sender = uid)) eqn:Hs; [|done].
  apply bool_decide_eq_true in Hs as ->. cbn.
  destruct (policy.party_to_request db uid request); [|done]. cbn.
  destruct (bool_decide (fresh ∈ _)); [done|].
  destruct (bool_decide (request ∈ _)); [|done]. cbn.
  intros [= <-]. by eexists.
Qed.

Lemma party_to_request_spec (db : database) (uid request : uuid) :
  policy.party_to_request db uid request = true
  ↔ ∃ sr, sr ∈ tbl_skill_requests db
          ∧ skill_requests.id sr = request
          ∧ (skill_requests.requester_id sr = uid
             ∨ skill_requests.provider_id sr = uid).
Proof.
  unfold policy.party_to_request, policy.skill_requests_select.
  rewrite existsb_exists. split.
  - intros (sr & Hsr%list_elem_of_In & H). exists sr. split; [done|].
    rewrite !andb_true_iff, !orb_true_iff, !bool_decide_eq_true in H. tauto.
  - intros (sr & Hsr & Hid & Hp). exists sr.
    split; [by apply list_elem_of_In|].
    rewrite !andb_true_iff, !orb_true_iff, !bool_decide_eq_true.
    intuition.
Qed.

(** Under a key, a request the caller may see is the one row its [id]
    selects. *)
Lemma visible_by_id (db : database) (uid : uuid) (sr : skill_requests.row) :
  NoDup (skill_requests.id <$> tbl_skill_requests db) →
  sr ∈ tbl_skill_requests db → may_write db uid sr →
  filter (fun r => skill_requests.id r = skill_requests.id sr)
         (visible_requests db uid) = [sr].
Proof.
  intros Hnd Hsr Hw.
  destruct (filter_unique_key skill_requests.id (tbl_skill_requests db)
              (skill_requests.id sr) Hnd) as [x Hx].
  { by apply list_elem_of_fmap_2. }
  assert (x = sr) as ->.
  { assert (Hin : sr ∈ filter (fun y => skill_requests.id y
                                        = skill_requests.id sr)
                          (tbl_skill_requests db))
      by (by apply list_elem_of_filter).
    rewrite Hx in Hin. by apply list_elem_of_singleton in Hin. }
  unfold visible_requests.
  transitivity
    (filter (fun r => Is_true (policy.skill_requests_select db uid r))
            (filter (fun r => skill_requests.id r = skill_requests.id sr)
                    (tbl_skill_requests db))).
  { rewrite !list_filter_filter. apply list_filter_iff. intros; tauto. }
  rewrite Hx. rewrite filter_cons_True; [done|].
  apply Is_true_true. unfold policy.skill_requests_select, may_write in *.
  rewrite !orb_true_iff, !bool_decide_eq_true. tauto.
Qed.

(** For a party to the request, the policy hides none of its messages. *)
Lemma conversation_of_party (user : uuid) (sr : skill_requests.row)
    (db : database) :
  sr ∈ tbl_skill_requests db →
  user = skill_requests.requester_id sr
  ∨ user = skill_requests.provider_id sr →
  conversation user (skill_requests.id sr) db
  = filter (fun m => messages.skill_request_id m = skill_requests.id sr)
           (tbl_messages db).
Proof.
  intros Hsr Hparty. unfold conversation.
  rewrite list_filter_filter. apply list_filter_iff. intros m.
  split; [tauto|]. intros Hm. split; [done|].
  apply Is_true_true. unfold policy.messages_select.
  apply orb_true_iff. right. rewrite Hm. apply party_to_request_spec.
  exists sr. split; [done|]. split; [done|]. by destruct Hparty; [left|right].
Qed.

(** C9.  The Chat page lists the messages of a request oldest first.  For
    every user and request, the listing the page loads is in non-decreasing
    order of [created_at], as is the select behind it, which returns the
    messages of the request the policy lets the caller read, no more and no
    less.  For the requester and the provider of the request, with the
    [id] a key, the page finds the request and its listing is made of all
    the messages of the request; when these sit in the table in the order
    of their times and no two carry the same time, the listing is the
    conversation in the order of the inserts.  The key is the time of the
    insert and nothing else: a sent message goes to the end of the table
    under the time of its statement. *)
Theorem messages_oldest_first (user request : uuid) (db : database) :
  Sorted created_before (select_messages user request db)
  ∧ select_messages user request db
    ≡ₚ filter (fun m => messages.skill_request_id m = request
                        ∧ Is_true (policy.messages_select db user m))
              (tbl_messages db)
  ∧ Sorted created_before (Chat.messages (Chat.fetchChatData user request db))
  ∧ (∀ sr,
       NoDup (skill_requests.id <$> tbl_skill_requests db) →
       sr ∈ tbl_skill_requests db →
       skill_requests.id sr = request →
       user = skill_requests.requester_id sr
       ∨ user = skill_requests.provider_id sr →
       Chat.skillRequest (Chat.fetchChatData user request db) = Some sr
       ∧ Chat.messages (Chat.fetchChatData user request db)
         ≡ₚ filter (fun m => messages.skill_request_id m = request)
                   (tbl_messages db)
       ∧ (Sorted created_before
            (filter (fun m => messages.skill_request_id m = request)
                    (tbl_messages db)) →
          NoDup (messages.created_at
                   <$> filter (fun m => messages.skill_request_id m = request)
                         (tbl_messages db)) →
          Chat.messages (Chat.fetchChatData user request db)
          = filter (fun m => messages.skill_request_id m = request)
                   (tbl_messages db)))
  ∧ (∀ now fresh sender text db',
       insert_message now user fresh request sender text db = ok db' →
       ∃ m, tbl_messages db' = tbl_messages db ++ [m]
            ∧ messages.created_at m = now).
Proof.
  assert (Hsorted : Sorted created_before (select_messages user request db))
    by apply (Sorted_merge_sort _).
  assert (Hperm : select_messages user request db
                  ≡ₚ conversation user request db)
    by apply merge_sort_Permutation.
  split; [done|]. split.
  { rewrite Hperm. unfold conversation. by rewrite list_filter_filter. }
  split.
  { unfold Chat.fetchChatData.
    destruct (filter _ (visible_requests db user)) as [|r [|]];
      cbn [Chat.messages]; done || constructor. }
  split.
  - intros sr Hnd Hsr <- Hparty.
    assert (Hload : Chat.fetchChatData user (skill_requests.id sr) db
                    = {| Chat.skillRequest := Some sr;
                         Chat.messages :=
                           select_messages user (skill_requests.id sr) db |}).
    { unfold Chat.fetchChatData. rewrite visible_by_id; [done..|].
      unfold may_write. tauto. }
    rewrite Hload. cbn [Chat.skillRequest Chat.messages].
    rewrite <- (conversation_of_party user sr db Hsr Hparty).
    split; [done|]. split; [done|]. intros Hs Hdistinct.
    apply (Sorted_unique_strong created_before); try done.
    intros m1 m2 H1 H2 H12 H21. rewrite Hperm in H1.
    apply (NoDup_fmap_eq messages.created_at _ _ _ Hdistinct H1 H2).
    unfold created_before in *. lia.
  - intros now fresh sender text db' (m & Hm & Ht & _)%insert_message_ok.
    by exists m.
Qed.

Lemma messages_oldest_first_witness :
  messages.content <$> Chat.messages (Chat.fetchChatData "bob" "r1" chat_db)
  = ["hi"; "hello"]%string
  ∧ Chat.messages (Chat.fetchChatData "bob" "r1" chat_db)
    = filter (fun m => messages.skill_request_id m = "r1"%string)
             (tbl_messages chat_db).
Proof.
  evaluated Hrows (tbl_skill_requests chat_db).
  destruct (messages_oldest_first "bob" "r1" chat_db)
    as (_ & _ & _ & Hpage & _).
  assert (H : Chat.messages (Chat.fetchChatData "bob" "r1" chat_db)
              = filter (fun m => messages.skill_request_id m = "r1"%string)
                       (tbl_messages chat_db)).
  { match type of Hrows with
    | _ = [?sr] => destruct (Hpage sr) as (_ & _ & Hlisting)
    end.
    - apply (bool_decide_unpack _). vm_compute. exact I.
    - rewrite Hrows. apply list_elem_of_here.
    - reflexivity.
    - right. reflexivity.
    - apply Hlisting.
      + apply (bool_decide_unpack _). vm_compute. exact I.
      + apply (bool_decide_unpack _). vm_compute. exact I. }
  split; [|exact H]. rewrite H. vm_compute. reflexivity.
Defined.

(** ** Role resolution *)

Section role_resolution.
Import useAuth.
Context (b : backend).

(** One round of [attemptFetch]. *)
Lemma attemptFetch_round (n : nat) (st : state) :
  attemptFetch b n st =
  let st1 := count_read (say (attempt (maxRetries - n + 1)) st) in
  match takes (select_role b (reads st)) with
  | None => (unsettled, st1)
  | Some ms =>
      let st2 := tick ms st1 in
      match reply (select_role b (reads st)) with
      | role_row (Some r) => (returned r, st2)
      | role_row None => (returned user, st2)
      | role_error =>
          match retry_from b n st2 with
          | (thrown, st') => retry_from b n st'
          | r => r
          end
      | select_thrown => retry_from b n st2
      end
  end.
Proof.
  destruct n; cbn; unfold try_catch, mbind, task_bind, select_user_role,
    await, log, sleep, await; cbn;
    destruct (takes (select_role b (reads st))); cbn; try reflexivity;
    destruct (reply (select_role b (reads st))) as [[?|]| |]; cbn;
    try reflexivity.
Qed.

Lemma attemptFetch_never_throws (n : nat) (st : state) :
  (attemptFetch b n st).1 ≠ thrown.
Proof.
  revert st. induction n as [|n IH]; intros st; rewrite attemptFetch_round;
    cbv zeta; destruct (takes _); try done;
    destruct (reply _) as [[?|]| |]; try done; cbn [retry_from].
  - pose proof (IH (tick 1000 (say (retrying (S (maxRetries - S n)))
                       (tick n0 (count_read
                          (say (attempt (maxRetries - S n + 1)) st)))))) as H.
    destruct (attemptFetch b n _) as [[]]; done.
  - apply IH.
Qed.

Lemma retry_from_never_throws (n : nat) (st : state) :
  (retry_from b n st).1 ≠ thrown.
Proof. destruct n; [done|]. apply attemptFetch_never_throws. Qed.

(** One round, with the [catch] that the retry never reaches left out. *)
Lemma attemptFetch_step (n : nat) (st : state) :
  attemptFetch b n st =
  let st1 := count_read (say (attempt (maxRetries - n + 1)) st) in
  match takes (select_role b (reads st)) with
  | None => (unsettled, st1)
  | Some ms =>
      let st2 := tick ms st1 in
      match reply (select_role b (reads st)) with
      | role_row (Some r) => (returned r, st2)
      | role_row None => (returned user, st2)
      | role_error | select_thrown => retry_from b n st2
      end
  end.
Proof.
  rewrite attemptFetch_round. cbv zeta.
  destruct (takes _); [|done]. destruct (reply _) as [[?|]| |]; try done.
  pose proof (retry_from_never_throws n
                (tick n0 (count_read (say (attempt (maxRetries - n + 1)) st))))
    as H.
  destruct (retry_from b n _) as [[]]; done.
Qed.

Lemma loop_left_last (n : nat) (st : state) (ms : N) (o : outcome app_role) :
  (o = returned admin → ∃ k, reply (select_role b k) = role_row (Some admin)) →
  loop_left b n st
    (o, tick ms (count_read (say (attempt (maxRetries - n + 1)) st)))
    [attempt (maxRetries - n + 1) (clock st)].
Proof.
  intros Ho. split; [done|]. split; [apply loop_last|].
  split; [|split; [done|exact Ho]].
  change (S (reads st) = (reads st + 1)%nat). lia.
Qed.

Lemma loop_left_hung (n : nat) (st : state) :
  loop_left b n st
    (unsettled, count_read (say (attempt (maxRetries - n + 1)) st))
    [attempt (maxRetries - n + 1) (clock st)].
Proof.
  split; [done|]. split; [apply loop_last|].
  split; [|split; done].
  change (S (reads st) = (reads st + 1)%nat). lia.
Qed.

Lemma retried (n : nat) (st : state) (ms : N)
    (r : outcome app_role * state) :
  (∃ ext, loop_left b n
            (tick 1000 (say (retrying (S (maxRetries - S n)))
               (tick ms (count_read
                  (say (attempt (maxRetries - S n + 1)) st))))) r ext) →
  ∃ ext, loop_left b (S n) st r ext.
Proof.
  intros (ext & Hc & Hl & Hrd & Hs & Ha).
  exists (attempt (maxRetries - S n + 1) (clock st)
            :: retrying (S (maxRetries - S n)) (clock st + ms)%N :: ext).
  split; [rewrite Hc; cbn; by rewrite <- !app_assoc|].
  split; [apply loop_retry; [lia|exact Hl]|].
  split; [|split; [by rewrite Hs|exact Ha]].
  rewrite Hrd.
  change (S (reads st) + length (filter (fun l => Is_true (is_attempt l)) ext)
          = reads st + S (length (filter (fun l => Is_true (is_attempt l)) ext)))%nat.
  lia.
Qed.

Lemma attemptFetch_spec (n : nat) (st : state) :
  ∃ ext, loop_left b n st (attemptFetch b n st) ext.
Proof.
  revert st. induction n as [|n IH]; intros st; rewrite attemptFetch_step;
    cbv zeta.
  - eexists.
    destruct (takes _); [destruct (reply _) as [[[]|]| |] eqn:Hr|];
      cbn [retry_from]; first [apply loop_left_hung | apply loop_left_last];
      try done; eauto.
  - destruct (takes _) as [ms|]; [|eexists; apply loop_left_hung].
    destruct (reply _) as [[[]|]| |] eqn:Hr.
    1-3: eexists; apply loop_left_last; try done; eauto.
    + cbn [retry_from]. apply (retried n st ms), IH.
    + cbn [retry_from]. apply (retried n st ms), IH.
Qed.

Lemma loop_lines_attempts (n : nat) (t : N) (ext : list line) :
  loop_lines n t ext →
  length (filter (fun l => Is_true (is_attempt l)) ext) ≤ S n.
Proof.
  induction 1 as [n t|n t t1 rest Ht Hl IH]; [change (1 ≤ S n); lia|].
  change (S (length (filter (fun l => Is_true (is_attempt l)) rest)) ≤ S (S n)).
  lia.
Qed.

Lemma loop_lines_spaced (n : nat) (t : N) (ext : list line) :
  n ≤ maxRetries → loop_lines n t ext → spaced ext.
Proof.
  intros Hn Hl. induction Hl as [n t|n t t1 rest Ht Hl IH]; [done|].
  specialize (IH ltac:(lia)). cbn [spaced].
  destruct Hl; (split; [lia|split; [done|exact IH]]).
Qed.

(** The branches of [fetchRole]. *)
Lemma fetchRole_cases (userId : string) (st : state) :
  fetchRole b userId st =
  if bool_decide (localStorage st !! admin_role_key userId = Some "admin"%string)
  then
    let st1 := count_read (say checking_intent st) in
    match takes (select_role b (reads st)) with
    | None => (unsettled, st1)
    | Some ms =>
        let st2 := tick ms st1 in
        match reply (select_role b (reads st)) with
        | role_row (Some admin) =>
            (returned admin, forget (admin_role_key userId) st2)
        | role_row _ => attemptFetch b maxRetries st2
        | role_error =>
            let st3 := say setting_admin st2 in
            match takes (insert_role b) with
            | None => (unsettled, st3)
            | Some ms' =>
                let st4 := tick ms' st3 in
                match reply (insert_role b) with
                | insert_done =>
                    (returned admin, forget (admin_role_key userId) st4)
                | insert_error => attemptFetch b maxRetries st4
                | insert_thrown => (returned user, st4)
                end
            end
        | select_thrown => (returned user, st2)
        end
    end
  else attemptFetch b maxRetries st.
Proof.
  unfold fetchRole. generalize maxRetries as n. intros n.
  assert (Hcatch : ∀ s, match attemptFetch b n s with
                        | (thrown, st') => (mret user : task app_role) st'
                        | r => r
                        end = attemptFetch b n s).
  { intros s. pose proof (attemptFetch_never_throws n s) as H.
    destruct (attemptFetch b n s) as [[]]; done. }
  unfold try_catch, mbind, task_bind, getItem.
  destruct (bool_decide _); [|apply Hcatch].
  unfold log, select_user_role, insert_admin_role, await, removeItem, mret,
    task_ret; cbn.
  destruct (takes (select_role b (reads st))); [|done].
  destruct (reply (select_role b (reads st))) as [[[]|]| |]; cbn;
    try done; try apply Hcatch.
  destruct (takes (insert_role b)); [|done].
  destruct (reply (insert_role b)); cbn; try done; apply Hcatch.
Qed.


Lemma before_loop_attempts (prefix ext : list line) :
  Forall before_loop prefix →
  filter (fun l => Is_true (is_attempt l)) (prefix ++ ext)
  = filter (fun l => Is_true (is_attempt l)) ext.
Proof.
  induction 1 as [|l prefix Hl _ IH]; [done|].
  cbn [app]. rewrite filter_cons_False; [exact IH|].
  destruct l; cbn in *; tauto.
Qed.

Lemma before_loop_spaced (prefix ext : list line) :
  Forall before_loop prefix → spaced ext → spaced (prefix ++ ext).
Proof.
  induction 1 as [|l prefix Hl _ IH]; intros Hs; [exact Hs|].
  destruct l; try done; exact (IH Hs).
Qed.


Lemma well_resolved_loop (intent : bool) (s : state) :
  Forall before_loop (console s) →
  reads s ≤ 1 →
  (intent = false → reads s = 0%nat) →
  well_resolved b intent (attemptFetch b maxRetries s).
Proof.
  intros Hpre Hreads Hnone.
  destruct (attemptFetch_spec maxRetries s) as (ext & Hc & Hl & Hrd & _ & Ha).
  pose proof (loop_lines_attempts _ _ _ Hl) as Hn.
  unfold well_resolved, attempts. rewrite Hc, Hrd, before_loop_attempts by done.
  split; [done|]. split; [lia|]. split.
  - intros Hno. rewrite (Hnone Hno). lia.
  - split; [|by left; apply Ha].
    apply before_loop_spaced; [done|].
    by eapply loop_lines_spaced; [|exact Hl].
Qed.

Lemma well_resolved_early (o : outcome app_role) (s : state) :
  Forall before_loop (console s) →
  reads s ≤ 1 →
  (o = returned admin →
   (∃ k, reply (select_role b k) = role_row (Some admin))
   ∨ reply (insert_role b) = insert_done) →
  well_resolved b true (o, s).
Proof.
  intros Hpre Hreads Ho. unfold well_resolved, attempts. cbn [fst snd].
  rewrite <- (app_nil_r (console s)), before_loop_attempts by done.
  split; [cbn; lia|]. split; [lia|]. split; [done|].
  split; [by apply before_loop_spaced|exact Ho].
Qed.

Lemma fetchRole_well_resolved (userId : string) (storage : gmap string string) :
  well_resolved b
    (bool_decide (storage !! admin_role_key userId = Some "admin"%string))
    (fetchRole b userId (initial storage)).
Proof.
  rewrite fetchRole_cases. cbv zeta. cbn [initial localStorage].
  destruct (bool_decide _).
  2:{ apply well_resolved_loop; [apply Forall_nil_2|cbn; lia|done]. }
  destruct (takes (select_role b _)) as [ms|].
  2:{ apply well_resolved_early; [by repeat constructor|cbn; lia|done]. }
  destruct (reply (select_role b _)) as [[[]|]| |] eqn:Hr.
  - apply well_resolved_early; [by repeat constructor|cbn; lia|].
    intros _. left. eauto.
  - apply well_resolved_loop; [by repeat constructor|cbn; lia|done].
  - apply well_resolved_loop; [by repeat constructor|cbn; lia|done].
  - destruct (takes (insert_role b)) as [ms'|].
    2:{ apply well_resolved_early; [by repeat constructor|cbn; lia|done]. }
    destruct (reply (insert_role b)) eqn:Hi.
    + apply well_resolved_early; [by repeat constructor|cbn; lia|].
      intros _. by right.
    + apply well_resolved_loop; [by repeat constructor|cbn; lia|done].
    + apply well_resolved_early; [by repeat constructor|cbn; lia|done].
  - apply well_resolved_early; [by repeat constructor|cbn; lia|done].
Qed.


(** C8 (amended).  Role resolution reads the role table at most six times
    in its retry loop (a first attempt and up to [maxRetries] = 5 retries),
    and once more before the loop when the admin-intent flag is set; each
    retry is sent one second after the failure it answers.  The outcome is
    always a role: that of [fetchRole] when it resolves before the timer of
    8000 ms, ['user'] when it resolves later or never; and it is ['user']
    unless a read returned an admin row or the insert of one went through,
    so also when every read fails. *)
Theorem role_resolution_bounded (userId : string)
    (storage : gmap string string) :
  let inner := fetchRole b userId (initial storage) in
  let resolved := fetchUserRole b userId storage in
  length (attempts resolved.2) ≤ S maxRetries
  ∧ reads resolved.2 ≤ S (S maxRetries)
  ∧ (storage !! admin_role_key userId ≠ Some "admin"%string →
     reads resolved.2 ≤ S maxRetries)
  ∧ spaced (console resolved.2)
  ∧ (∀ role, inner.1 = returned role → (clock inner.2 < role_timeout)%N →
     resolved.1 = role)
  ∧ ((∀ role, inner.1 = returned role → (role_timeout <= clock inner.2)%N) →
     resolved.1 = user)
  ∧ ((∀ k, reply (select_role b k) ≠ role_row (Some admin)) →
     reply (insert_role b) ≠ insert_done →
     resolved.1 = user).
Proof.
  intros inner resolved.
  destruct (fetchRole_well_resolved userId storage)
    as (Hatt & Hreads & Hnoint & Hsp & Hadm).
  fold inner in Hatt, Hreads, Hnoint, Hsp, Hadm.
  assert (Hst : resolved.2 = inner.2).
  { subst resolved inner. unfold fetchUserRole.
    destruct (fetchRole b userId (initial storage)) as [[r| |] st]; try done.
    by destruct (clock st <? role_timeout)%N. }
  rewrite Hst.
  split; [done|]. split; [done|]. split.
  { intros Hno. apply Hnoint. by apply bool_decide_eq_false. }
  split; [done|].
  assert (Hrole : resolved.1 = user ∨ inner.1 = returned resolved.1).
  { subst resolved inner. unfold fetchUserRole.
    destruct (fetchRole b userId (initial storage)) as [[r| |] st]; auto.
    destruct (clock st <? role_timeout)%N; auto. }
  split; [|split].
  - intros role Hr Ht. subst resolved inner. unfold fetchUserRole.
    destruct (fetchRole b userId (initial storage)) as [o st].
    cbn in Hr, Ht. subst o. by rewrite (proj2 (N.ltb_lt _ _) Ht).
  - intros Hlate. subst resolved inner. unfold fetchUserRole.
    destruct (fetchRole b userId (initial storage)) as [[r| |] st]; try done.
    specialize (Hlate r eq_refl). cbn in Hlate.
    by rewrite (proj2 (N.ltb_ge _ _) Hlate).
  - intros Hsel Hins. destruct Hrole as [?|Hr]; [done|].
    destruct resolved.1; [|done].
    destruct (Hadm Hr) as [[k Hk]|?]; [by destruct (Hsel k)|done].
Qed.

(** C10.  With the admin-intent flag of the user set and the read of the
    role row answered by an error, role resolution goes on to insert an
    admin role row; when that insert goes through, [fetchRole] takes the
    flag away and resolves ['admin'], which is the role of the user unless
    the timer of 8000 ms has fired by then. *)
Theorem admin_intent_resolves_admin (userId : string)
    (storage : gmap string string) (t0 : N) :
  storage !! admin_role_key userId = Some "admin"%string →
  select_role b 0 = {| takes := Some t0; reply := role_error |} →
  setting_admin t0 ∈ console (fetchUserRole b userId storage).2
  ∧ ∀ t1, insert_role b = {| takes := Some t1; reply := insert_done |} →
      fetchRole b userId (initial storage)
      = (returned admin,
         {| clock := t0 + t1;
            localStorage := delete (admin_role_key userId) storage;
            console := [checking_intent 0; setting_admin t0];
            reads := 1 |})
      ∧ ((t0 + t1 < role_timeout)%N →
         (fetchUserRole b userId storage).1 = admin).
Proof.
  intros Hflag Hsel.
  assert (Hcases := fetchRole_cases userId (initial storage)).
  cbn [initial localStorage reads] in Hcases.
  rewrite bool_decide_true, Hsel in Hcases by done. cbv zeta in Hcases.
  cbn [takes reply] in Hcases.
  split.
  - unfold fetchUserRole. rewrite Hcases.
    destruct (takes (insert_role b)) as [ms'|];
      [|cbn; apply list_elem_of_further, list_elem_of_here].
    destruct (reply (insert_role b)).
    + cbn. destruct (_ <? _)%N; cbn;
        apply list_elem_of_further, list_elem_of_here.
    + destruct (attemptFetch_spec maxRetries
                  (tick ms' (say setting_admin
                     (tick t0 (count_read (say checking_intent
                        (initial storage)))))))
        as (ext & Hc & _).
      destruct (attemptFetch b maxRetries _) as [[r| |] st]; cbn in Hc |- *;
        [destruct (_ <? _)%N; cbn|..]; rewrite Hc;
        apply list_elem_of_further, list_elem_of_here.
    + cbn. destruct (_ <? _)%N; cbn;
        apply list_elem_of_further, list_elem_of_here.
  - intros t1 Hins. rewrite Hins in Hcases. cbn in Hcases.
    split; [exact Hcases|].
    intros Ht. unfold fetchUserRole. rewrite Hcases. cbv beta iota.
    match goal with |- context [(?c <? role_timeout)%N] =>
      destruct (N.ltb_spec c role_timeout) as [_|Hge] end; [done|].
    cbn in Hge. lia.
Qed.

End role_resolution.

(** C8, as stated, fails: with every read failing at once and no admin
    intent, the role table is read six times, the last time as "attempt
    6/5", before ['user'] is resolved after five seconds. *)
Lemma six_attempts_of_five :
  useAuth.fetchUserRole useAuth.failing "u1" ∅
  = (user,
     {| useAuth.clock := 5000; useAuth.localStorage := ∅;
        useAuth.reads := 6;
        useAuth.console :=
          [useAuth.attempt 1 0; useAuth.retrying 1 0;
           useAuth.attempt 2 1000; useAuth.retrying 2 1000;
           useAuth.attempt 3 2000; useAuth.retrying 3 2000;
           useAuth.attempt 4 3000; useAuth.retrying 4 3000;
           useAuth.attempt 5 4000; useAuth.retrying 5 4000;
           useAuth.attempt 6 5000] |})
  ∧ ¬ (useAuth.reads (useAuth.fetchUserRole useAuth.failing "u1" ∅).2 ≤ 5).
Proof.
  assert (H : useAuth.reads (useAuth.fetchUserRole useAuth.failing "u1" ∅).2 = 6%nat)
    by (vm_compute; reflexivity).
  split; [vm_compute; reflexivity|]. rewrite H. lia.
Qed.

Lemma role_resolution_bounded_witness :
  useAuth.reads (useAuth.fetchUserRole useAuth.failing "u1" ∅).2 ≤ 6
  ∧ (useAuth.fetchUserRole useAuth.failing "u1" ∅).1 = user.
Proof.
  destruct (role_resolution_bounded useAuth.failing "u1" ∅)
    as (_ & _ & Hreads & _ & _ & _ & Huser).
  split.
  - apply Hreads. vm_compute. discriminate.
  - apply Huser; [intros k|]; discriminate.
Defined.

Lemma admin_intent_resolves_admin_witness :
  (useAuth.fetchUserRole useAuth.granting "u1"
     {[ useAuth.admin_role_key "u1" := "admin"%string ]}).1 = admin.
Proof.
  refine (proj2 (proj2 (admin_intent_resolves_admin useAuth.granting "u1"
            {[ useAuth.admin_role_key "u1" := "admin"%string ]} 200 _ eq_refl)
            300%N eq_refl) _).
  - apply lookup_singleton_eq.
  - vm_compute. reflexivity.
Defined.

(** Against the database of the migrations the insert of that branch does
    not go through: the policy of [user_roles] wants the caller to be an
    admin already, and then the row is there and the unique constraint
    refuses a second one. *)
Lemma own_admin_row_refused (db : database) (uid : uuid) :
  is_ok (insert_user_role uid uid admin db) = false.
Proof.
  unfold insert_user_role, policy.user_roles_all.
  destruct (is_admin db uid) eqn:Ha; [|done]. cbn.
  rewrite bool_decide_true; [done|].
  unfold is_admin in Ha. apply existsb_exists in Ha as (x & Hx & Hxa).
  apply andb_true_iff in Hxa as [Hu Hr]. apply bool_decide_eq_true in Hu, Hr.
  apply list_elem_of_fmap. exists x. rewrite Hu, Hr.
  split; [done|]. by apply list_elem_of_In.
Qed.

(** * Further properties *)

(** ** What a statement that went through has passed, and what it leaves *)

Lemma handle_new_user_ok (now : timestamptz) (new_id : uuid)
    (n r : option string) (db db' : database) :
  handle_new_user now new_id n r db = ok db' →
  let user_role := if bool_decide (r = Some "admin"%string) then admin
                   else user in
  (new_id ∉ auth_users db)
  ∧ (new_id ∉ profiles.user_id <$> tbl_profiles db)
  ∧ ((new_id, user_role) ∉ role_key <$> tbl_user_roles db)
  ∧ db' = {| auth_users := auth_users db ++ [new_id];
             tbl_profiles := tbl_profiles db ++
               [{| profiles.user_id := new_id;
                   profiles.full_name := default "New User"%string n;
                   profiles.is_public := true;
                   profiles.is_banned := false;
                   profiles.updated_at := now;
                   profiles.successful_swaps := 0%Z;
                   profiles.average_rating := 0%Z |}];
             tbl_user_roles := tbl_user_roles db ++
               [{| user_roles.user_id := new_id;
                   user_roles.role := user_role |}];
             tbl_skills := tbl_skills db;
             tbl_skill_requests := tbl_skill_requests db;
             tbl_ratings := tbl_ratings db;
             tbl_messages := tbl_messages db |}.
Proof.
  unfold handle_new_user.
  destruct (bool_decide (new_id ∈ auth_users db)) eqn:H1; [done|].
  destruct (bool_decide (new_id ∈ _ <$> tbl_profiles db)) eqn:H2; [done|].
  destruct (bool_decide ((new_id, _) ∈ _)) eqn:H3; [done|].
  intros [= <-]. apply bool_decide_eq_false in H1, H2, H3. done.
Qed.

Lemma insert_skill_ok (uid fresh owner : uuid) (name : string)
    (offering : bool) (db db' : database) :
  insert_skill uid fresh owner name offering db = ok db' →
  uid = owner
  ∧ (fresh ∉ skills.id <$> tbl_skills db)
  ∧ owner ∈ auth_users db
  ∧ db' = {| auth_users := auth_users db; tbl_profiles := tbl_profiles db;
             tbl_user_roles := tbl_user_roles db;
             tbl_skills := tbl_skills db ++
               [{| skills.id := fresh; skills.user_id := owner;
                   skills.title := name; skills.is_offering := offering;
                   skills.is_approved := true |}];
             tbl_skill_requests := tbl_skill_requests db;
             tbl_ratings := tbl_ratings db;
             tbl_messages := tbl_messages db |}.
Proof.
  unfold insert_skill.
  destruct (bool_decide (uid = owner)) eqn:H1; [|done].
  destruct (bool_decide (fresh ∈ _)) eqn:H2; [done|].
  destruct (bool_decide (owner ∈ _)) eqn:H3; [|done].
  intros [= <-]. apply bool_decide_eq_true in H1, H3.
  apply bool_decide_eq_false in H2. done.
Qed.

Lemma insert_skill_request_ok (now : timestamptz)
    (uid fresh requester provider offered wanted : uuid)
    (msg : option string) (s : request_status) (db db' : database) :
  insert_skill_request now uid fresh requester provider offered wanted msg s db
  = ok db' →
  uid = requester
  ∧ (fresh ∉ skill_requests.id <$> tbl_skill_requests db)
  ∧ requester ∈ auth_users db ∧ provider ∈ auth_users db
  ∧ offered ∈ skills.id <$> tbl_skills db
  ∧ wanted ∈ skills.id <$> tbl_skills db
  ∧ db' = set_skill_requests
            (tbl_skill_requests db ++
               [{| skill_requests.id := fresh;
                   skill_requests.requester_id := requester;
                   skill_requests.provider_id := provider;
                   skill_requests.offered_skill_id := offered;
                   skill_requests.wanted_skill_id := wanted;
                   skill_requests.message := msg;
                   skill_requests.status := s;
                   skill_requests.created_at := now;
                   skill_requests.updated_at := now |}]) db.
Proof.
  unfold insert_skill_request, policy.skill_requests_insert.
  cbn [skill_requests.requester_id].
  destruct (bool_decide (uid = requester)) eqn:H1; [|done].
  destruct (bool_decide (fresh ∈ _)) eqn:H2; [done|].
  destruct (bool_decide (requester ∈ _)) eqn:H3; [|done].
  destruct (bool_decide (provider ∈ _)) eqn:H4; [|done].
  destruct (bool_decide (offered ∈ _)) eqn:H5; [|done].
  destruct (bool_decide (wanted ∈ _)) eqn:H6; [|done].
  intros [= <-]. apply bool_decide_eq_true in H1, H3, H4, H5, H6.
  apply bool_decide_eq_false in H2. done.
Qed.

Lemma insert_user_role_ok (uid owner : uuid) (r : app_role)
    (db db' : database) :
  insert_user_role uid owner r db = ok db' →
  is_admin db uid = true
  ∧ ((owner, r) ∉ role_key <$> tbl_user_roles db)
  ∧ owner ∈ auth_users db
  ∧ db' = {| auth_users := auth_users db; tbl_profiles := tbl_profiles db;
             tbl_user_roles := tbl_user_roles db ++
               [{| user_roles.user_id := owner; user_roles.role := r |}];
             tbl_skills := tbl_skills db;
             tbl_skill_requests := tbl_skill_requests db;
             tbl_ratings := tbl_ratings db;
             tbl_messages := tbl_messages db |}.
Proof.
  unfold insert_user_role, policy.user_roles_all.
  destruct (is_admin db uid) eqn:H1; [|done].
  destruct (bool_decide ((owner, r) ∈ _)) eqn:H2; [done|].
  destruct (bool_decide (owner ∈ _)) eqn:H3; [|done].
  intros [= <-]. apply bool_decide_eq_true in H3.
  apply bool_decide_eq_false in H2. done.
Qed.

Lemma insert_message_passed (now : timestamptz)
    (uid fresh request sender : uuid) (text : string) (db db' : database) :
  insert_message now uid fresh request sender text db = ok db' →
  sender = uid
  ∧ policy.party_to_request db uid request = true
  ∧ (fresh ∉ messages.id <$> tbl_messages db)
  ∧ request ∈ skill_requests.id <$> tbl_skill_requests db
  ∧ db' = set_messages
            (tbl_messages db ++
               [{| messages.id := fresh;
                   messages.skill_request_id := request;
                   messages.sender_id := sender;
                   messages.content := text;
                   messages.created_at := now;
                   messages.is_read := false |}]) db.
Proof.
  unfold insert_message, policy.messages_insert.
  cbn [messages.sender_id messages.skill_request_id].
  destruct (bool_decide (sender = uid)) eqn:H1; [|done].
  destruct (policy.party_to_request db uid request) eqn:H2; [|done].
  destruct (bool_decide (fresh ∈ _)) eqn:H3; [done|].
  destruct (bool_decide (request ∈ _)) eqn:H4; [|done].
  intros [= <-]. apply bool_decide_eq_true in H1, H4.
  apply bool_decide_eq_false in H3. done.
Qed.

Lemma insert_rating_passed (now : timestamptz)
    (uid fresh request rater rated : uuid) (score : Z) (fb : option string)
    (db db' : database) :
  insert_rating now uid fresh request rater rated score fb db = ok db' →
  let NEW := {| ratings.id := fresh; ratings.request_id := request;
                ratings.rater_id := rater; ratings.rated_id := rated;
                ratings.rating := score; ratings.feedback := fb;
                ratings.created_at := now |} in
  uid = rater
  ∧ (1 <= score <= 5)%Z
  ∧ (fresh ∉ ratings.id <$> tbl_ratings db)
  ∧ ((request, rater) ∉ rating_key <$> tbl_ratings db)
  ∧ request ∈ skill_requests.id <$> tbl_skill_requests db
  ∧ rater ∈ auth_users db ∧ rated ∈ auth_users db
  ∧ update_profile_stats now uid NEW (set_ratings (tbl_ratings db ++ [NEW]) db)
    = ok db'.
Proof.
  unfold insert_rating, policy.ratings_insert. cbn [ratings.rater_id].
  destruct ((- 2 ^ 31 <=? score)%Z && (score <? 2 ^ 31)%Z); [|done].
  destruct (bool_decide (uid = rater)) eqn:Hu; [|done].
  destruct ((1 <=? score)%Z && (score <=? 5)%Z) eqn:Hs; [|done].
  destruct (bool_decide (fresh ∈ _)) eqn:Hf; [done|].
  destruct (bool_decide ((request, rater) ∈ _)) eqn:Hk; [done|].
  destruct (bool_decide (request ∈ _)) eqn:Hr; [|done].
  destruct (bool_decide (rater ∈ _)) eqn:H1; [|done].
  destruct (bool_decide (rated ∈ _)) eqn:H2; [|done].
  cbn [negb orb andb]. intros Ht.
  apply bool_decide_eq_true in Hu, Hr, H1, H2.
  apply bool_decide_eq_false in Hk, Hf.
  apply andb_true_iff in Hs as [?%Z.leb_le ?%Z.leb_le].
  done.
Qed.

(** The rows the update of the trigger writes, and the values it writes. *)
Lemma update_profile_stats_rows (now : timestamptz) (uid : uuid)
    (NEW : ratings.row) (db db' : database) :
  update_profile_stats now uid NEW db = ok db' →
  let received := ratings_received db uid (ratings.rated_id NEW) in
  ∃ g : profiles.row → profiles.row,
    db' = set_profiles (g <$> tbl_profiles db) db
    ∧ ∀ p, g p = p
           ∨ ∃ a n,
               g p = with_stats a n now p
               ∧ to_decimal_3_2 (default 0%Q (AVG (ratings.rating <$> received)))
                 = Some a
               ∧ to_integer (COUNT_DISTINCT (ratings.request_id <$> received))
                 = Some n.
Proof.
  unfold update_profile_stats. cbv zeta.
  match goal with |- context [existsb ?f _] => set (reaches := f) end.
  destruct (existsb reaches (tbl_profiles db)).
  - destruct (to_decimal_3_2 _) as [a|]; [|done].
    destruct (to_integer _) as [n|]; [|done].
    intros [= <-].
    exists (fun p => if reaches p then with_stats a n now p else p).
    split; [done|]. intros p. destruct (reaches p); [|by left].
    right. by exists a, n.
  - intros [= <-]. exists id. split; [|by left].
    by rewrite list_fmap_id, set_profiles_same.
Qed.

Lemma sum_Z_bounds (xs : list Z) :
  (∀ x, x ∈ xs → 1 <= x <= 5)%Z →
  (Z.of_nat (length xs) <= sum_Z xs <= 5 * Z.of_nat (length xs))%Z.
Proof.
  induction xs as [|x xs IH]; intros Hxs; [cbn; lia|].
  pose proof (Hxs x (list_elem_of_here _ _)).
  assert (∀ y, y ∈ xs → 1 <= y <= 5)%Z as Hrest
    by (intros y Hy; by apply Hxs, list_elem_of_further).
  specialize (IH Hrest). unfold sum_Z in *. cbn [foldr length]. lia.
Qed.

(** A quotient between 1 and 5 fits the column [DECIMAL(3,2)]. *)
Lemma quotient_fits_decimal_3_2 (n : Z) (d : positive) :
  (Z.pos d <= n <= 5 * Z.pos d)%Z →
  ∃ a, to_decimal_3_2 (n # d) = Some a ∧ (100 <= a <= 500)%Z.
Proof.
  intros Hn. unfold to_decimal_3_2, round_half_away.
  change (Qnum ((n # d) * 100)) with (n * 100)%Z.
  change (Qden ((n # d) * 100)) with (d * 1)%positive.
  rewrite Pos.mul_1_r.
  set (D := Z.pos d) in *. assert (0 < D)%Z by (subst D; lia).
  set (N := (n * 100)%Z).
  assert (100 * D <= N <= 500 * D)%Z by (subst N; lia).
  rewrite Z.sgn_pos by lia. rewrite (Z.abs_eq N) by lia. rewrite Z.mul_1_l.
  assert (100 <= (2 * N + D) / (2 * D))%Z
    by (apply Z.div_le_lower_bound; lia).
  assert ((2 * N + D) / (2 * D) < 501)%Z
    by (apply Z.div_lt_upper_bound; lia).
  eexists. rewrite (proj2 (Z.ltb_lt _ _)) by lia. split; [done|lia].
Qed.

(** The mean of ratings between 1 and 5 fits the column [DECIMAL(3,2)]. *)
Lemma mean_fits_decimal_3_2 (xs : list Z) :
  (∀ x, x ∈ xs → 1 <= x <= 5)%Z →
  ∃ a, to_decimal_3_2 (default 0%Q (AVG xs)) = Some a ∧ (0 <= a <= 500)%Z.
Proof.
  intros Hxs. destruct xs as [|x xs].
  { exists 0%Z. split; [vm_compute; reflexivity|lia]. }
  pose proof (sum_Z_bounds _ Hxs) as Hsum.
  change (default 0%Q (AVG (x :: xs)))
    with (sum_Z (x :: xs) # Pos.of_nat (length (x :: xs))).
  destruct (quotient_fits_decimal_3_2 (sum_Z (x :: xs))
              (Pos.of_nat (length (x :: xs)))) as (a & Ha & ?).
  { cbn [length] in *. lia. }
  exists a. split; [done|lia].
Qed.

Lemma length_remove_dups {A} `{EqDecision A} (l : list A) :
  length (remove_dups l) ≤ length l.
Proof.
  induction l as [|x l IH]; [done|]. cbn [remove_dups length].
  destruct (decide_rel _ _ _); cbn [length]; lia.
Qed.

Lemma count_fits_integer (xs : list uuid) :
  (Z.of_nat (length xs) < 2 ^ 31)%Z →
  ∃ n, to_integer (COUNT_DISTINCT xs) = Some n
       ∧ (0 <= n <= Z.of_nat (length xs))%Z.
Proof.
  intros Hlen. unfold to_integer, COUNT_DISTINCT.
  pose proof (length_remove_dups xs).
  set (n := Z.of_nat (length (remove_dups xs))) in *.
  exists n.
  assert (- 2 ^ 31 <= n)%Z by (subst n; lia).
  assert (n < 2 ^ 31)%Z by (subst n; lia).
  rewrite (proj2 (Z.leb_le _ _)), (proj2 (Z.ltb_lt _ _)) by done.
  split; [done|]. subst n. lia.
Qed.

(** An invariant of the empty database that every statement keeps holds of
    every database the statements lead to. *)
Lemma reachable_invariant (P : database → Prop) :
  P empty_database →
  (∀ now s db db', P db → execute now s db = ok db' → P db') →
  ∀ db, reachable db → P db.
Proof.
  intros H0 Hstep db [history Hrun].
  revert Hrun H0. generalize empty_database as db0.
  induction history as [|[now s] history IH]; intros db0 Hrun H0; cbn in Hrun.
  - by injection Hrun as <-.
  - destruct (execute now s db0) as [db1|] eqn:E; [|done].
    eapply IH; [exact Hrun|]. by eapply Hstep.
Qed.

Ltac tables :=
  cbn [auth_users tbl_profiles tbl_user_roles tbl_skills tbl_skill_requests
       tbl_ratings tbl_messages set_profiles set_skill_requests set_ratings
       set_messages] in *.

Lemma NoDup_snoc {A} (l : list A) (x : A) :
  NoDup l → x ∉ l → NoDup (l ++ [x]).
Proof.
  intros Hnd Hx. apply NoDup_app. split; [done|]. split.
  - intros y Hy ->%list_elem_of_singleton. done.
  - apply NoDup_singleton.
Qed.

Lemma NoDup_snoc_fresh {A B} (f : A → B) (l : list A) (x : A) :
  NoDup (f <$> l) → f x ∉ f <$> l → NoDup (f <$> (l ++ [x])).
Proof.
  intros Hnd Hx. rewrite fmap_app. apply NoDup_app. split; [done|]. split.
  - intros y Hy ->%list_elem_of_singleton. done.
  - apply NoDup_singleton.
Qed.

Lemma fmap_preserved {A B} (f : A → B) (g : A → A) (l : list A) :
  (∀ x, f (g x) = f x) → f <$> (g <$> l) = f <$> l.
Proof.
  intros Hfg. rewrite <- list_fmap_compose. apply list_fmap_ext.
  intros i x _. apply Hfg.
Qed.

Lemma update_status_keeps_id (now : timestamptz) (uid request : uuid)
    (s : request_status) (db : database) (r : skill_requests.row) :
  let r' := if update_reaches db uid request r then touch_status s now r
            else r in
  skill_requests.id r' = skill_requests.id r
  ∧ skill_requests.requester_id r' = skill_requests.requester_id r
  ∧ skill_requests.provider_id r' = skill_requests.provider_id r
  ∧ skill_requests.offered_skill_id r' = skill_requests.offered_skill_id r
  ∧ skill_requests.wanted_skill_id r' = skill_requests.wanted_skill_id r.
Proof. cbv zeta. by destruct (update_reaches db uid request r). Qed.

Lemma execute_keys_unique (now : timestamptz) (s : statement)
    (db db' : database) :
  keys_unique db → execute now s db = ok db' → keys_unique db'.
Proof.
  unfold keys_unique.
  intros (Hau & Hpr & Hro & Hsk & Hrq & Hra & Hrk & Hms).
  destruct s; cbn [execute].
  - intros (H1 & H2 & H3 & ->)%handle_new_user_ok. tables.
    split; [by apply NoDup_snoc|].
    split; [by apply NoDup_snoc_fresh|].
    split; [by apply NoDup_snoc_fresh|]. done.
  - intros (_ & H1 & _ & ->)%insert_skill_ok. tables.
    repeat (split; [done|]).
    split; [by apply NoDup_snoc_fresh|]. done.
  - intros (_ & H1 & _ & _ & _ & _ & ->)%insert_skill_request_ok. tables.
    repeat (split; [done|]).
    split; [by apply NoDup_snoc_fresh|]. done.
  - rewrite update_status_ok. intros [= <-]. tables.
    repeat (split; [done|]). split; [|done].
    rewrite fmap_preserved; [done|].
    intros r. apply update_status_keeps_id.
  - intros (_ & _ & H1 & H2 & _ & _ & _ & Ht)%insert_rating_passed.
    apply update_profile_stats_rows in Ht as (g & -> & Hg). tables.
    split; [done|]. split.
    { rewrite fmap_preserved; [done|].
      intros p. by destruct (Hg p) as [->|(a & n & -> & _)]. }
    repeat (split; [done|]).
    split; [by apply NoDup_snoc_fresh|].
    split; [by apply NoDup_snoc_fresh|]. done.
  - intros (_ & _ & H1 & _ & ->)%insert_message_passed. tables.
    repeat (split; [done|]). by apply NoDup_snoc_fresh.
  - intros (_ & H1 & _ & ->)%insert_user_role_ok. tables.
    repeat (split; [done|]).
    split; [by apply NoDup_snoc_fresh|]. done.
Qed.

Lemma keys_unique_empty : keys_unique empty_database.
Proof. unfold keys_unique. cbn. repeat split; apply NoDup_nil_2. Qed.

Lemma run_keys_unique (db : database) : reachable db → keys_unique db.
Proof.
  apply reachable_invariant; [apply keys_unique_empty|].
  intros now s db0 db1. apply execute_keys_unique.
Qed.

(** X1.  In every database the statements lead to, the keys of the schema
    are keys: no two users, no two profiles of a user, no two role rows
    with the same user and role, no two ratings of a request by the same
    rater, and no two skills, requests, ratings or messages with the same
    [id]. *)
Theorem reachable_keys_unique (db : database) :
  reachable db → keys_unique db.
Proof. apply run_keys_unique. Qed.

Lemma reachable_keys_unique_witness : keys_unique rated_db.
Proof.
  apply reachable_keys_unique. exists rated_history.
  vm_compute. reflexivity.
Defined.

(** A row of a table that took one more row is the new row or a row of the
    table before; a member of a list is a member of the longer list. *)
Ltac references :=
  intros;
  repeat match goal with
  | H : _ ∈ _ ++ [_] |- _ =>
      apply elem_of_app in H as [H|H];
      [|apply list_elem_of_singleton in H; subst]
  end;
  tables;
  repeat match goal with
  | Hall : (∀ x, x ∈ ?l → _), H : ?y ∈ ?l |- _ => specialize (Hall y H)
  end;
  repeat match goal with H : _ ∧ _ |- _ => destruct H end;
  repeat split;
  rewrite ?fmap_app, ?elem_of_app, ?list_elem_of_singleton;
  first [done | by left | by right].

Lemma execute_references_resolve (now : timestamptz) (s : statement)
    (db db' : database) :
  references_resolve db → execute now s db = ok db' → references_resolve db'.
Proof.
  unfold references_resolve.
  intros (Hpr & Hro & Hsk & Hrq & Hra & Hms).
  destruct s as [new_id n r|uid fresh owner name offering
                |uid fresh requester provider offered wanted msg st
                |uid request st|uid fresh request rater rated score fb
                |uid fresh request sender text|uid owner r]; cbn [execute].
  - intros (H1 & H2 & H3 & ->)%handle_new_user_ok. tables.
    repeat split; references.
  - intros (_ & H1 & ? & ->)%insert_skill_ok. tables.
    repeat split; references.
  - intros (_ & H1 & ? & ? & ? & ? & ->)%insert_skill_request_ok. tables.
    repeat split; references.
  - rewrite update_status_ok. intros [= <-]. tables.
    rewrite fmap_preserved by (intros r; apply update_status_keeps_id).
    repeat (split; [done|]). split; [|done].
    intros r' (r & -> & Hr)%list_elem_of_fmap.
    destruct (update_status_keeps_id now uid request st db r)
      as (_ & -> & -> & -> & ->). by apply Hrq.
  - intros (_ & _ & H1 & H2 & ? & ? & ? & Ht)%insert_rating_passed.
    apply update_profile_stats_rows in Ht as (g & -> & Hg). tables.
    split.
    { intros p' (p & -> & Hp)%list_elem_of_fmap.
      destruct (Hg p) as [->|(a & n & -> & _)]; exact (Hpr p Hp). }
    repeat split; references.
  - intros (_ & _ & H1 & ? & ->)%insert_message_passed. tables.
    repeat split; references.
  - intros (_ & H1 & ? & ->)%insert_user_role_ok. tables.
    repeat split; references.
Qed.

Lemma references_resolve_empty : references_resolve empty_database.
Proof.
  unfold references_resolve. cbn.
  repeat split; intros;
    by match goal with H : _ ∈ [] |- _ => apply elem_of_nil in H end.
Qed.

Lemma run_references_resolve (db : database) :
  reachable db → references_resolve db.
Proof.
  apply reachable_invariant; [apply references_resolve_empty|].
  intros now s db0 db1. apply execute_references_resolve.
Qed.

(** X2.  In every database the statements lead to, every reference
    resolves: the user of a profile, of a role row and of a skill is a user
    of [auth.users]; the requester and the provider of a request are users
    and its two skills are rows of [skills]; the request of a rating and of
    a message is a row of [skill_requests], and rater and rated are users. *)
Theorem reachable_references_resolve (db : database) :
  reachable db → references_resolve db.
Proof. apply run_references_resolve. Qed.

Lemma reachable_references_resolve_witness : references_resolve rated_db.
Proof.
  apply reachable_references_resolve. exists rated_history.
  vm_compute. reflexivity.
Defined.

(** The ratings a query reads are rows of the table. *)
Lemma ratings_received_subseteq (db : database) (uid rated : uuid)
    (r : ratings.row) :
  r ∈ ratings_received db uid rated → r ∈ tbl_ratings db.
Proof.
  unfold ratings_received.
  by intros [_ [_ ?]%list_elem_of_filter]%list_elem_of_filter.
Qed.

Lemma length_ratings_received (db : database) (uid rated : uuid) :
  length (ratings_received db uid rated) ≤ length (tbl_ratings db).
Proof.
  unfold ratings_received.
  etransitivity; [apply length_filter|]. apply length_filter.
Qed.

(** The values the trigger computes over checked ratings fit their
    columns. *)
Lemma stats_fit (db : database) (uid rated : uuid) :
  ratings_checked db →
  (Z.of_nat (length (tbl_ratings db)) < 2 ^ 31)%Z →
  let received := ratings_received db uid rated in
  ∃ a n,
    to_decimal_3_2 (default 0%Q (AVG (ratings.rating <$> received))) = Some a
    ∧ to_integer (COUNT_DISTINCT (ratings.request_id <$> received)) = Some n
    ∧ (0 <= a <= 500)%Z
    ∧ (0 <= n <= Z.of_nat (length (tbl_ratings db)))%Z.
Proof.
  intros Hck Hlen received.
  pose proof (length_ratings_received db uid rated) as Hle. fold received in Hle.
  destruct (mean_fits_decimal_3_2 (ratings.rating <$> received))
    as (a & Ha & ?).
  { intros x (r & -> & Hr)%list_elem_of_fmap.
    by apply Hck, (ratings_received_subseteq db uid rated). }
  destruct (count_fits_integer (ratings.request_id <$> received))
    as (n & Hn & Hn').
  { rewrite length_fmap. lia. }
  rewrite length_fmap in Hn'.
  exists a, n. repeat split; try done; lia.
Qed.

Lemma to_integer_Some (z n : Z) :
  to_integer z = Some n → n = z ∧ (- 2 ^ 31 <= z < 2 ^ 31)%Z.
Proof.
  unfold to_integer.
  destruct (_ && _) eqn:Hz; intros [= <-]. split; [done|].
  apply andb_true_iff in Hz as [?%Z.leb_le ?%Z.ltb_lt]. done.
Qed.

Lemma execute_in_range (now : timestamptz) (s : statement)
    (db db' : database) :
  ratings_checked db ∧ stats_in_range db →
  execute now s db = ok db' →
  ratings_checked db' ∧ stats_in_range db'.
Proof.
  unfold ratings_checked, stats_in_range. intros [Hck Hst].
  destruct s as [new_id n r|uid fresh owner name offering
                |uid fresh requester provider offered wanted msg st
                |uid request st|uid fresh request rater rated score fb
                |uid fresh request sender text|uid owner r]; cbn [execute].
  - intros (_ & _ & _ & ->)%handle_new_user_ok. tables.
    split; [done|]. intros p [Hp| ->%list_elem_of_singleton]%elem_of_app.
    + by apply Hst.
    + cbn. lia.
  - by intros (_ & _ & _ & ->)%insert_skill_ok.
  - by intros (_ & _ & _ & _ & _ & _ & ->)%insert_skill_request_ok.
  - rewrite update_status_ok. by intros [= <-].
  - intros (_ & Hs & _ & _ & _ & _ & _ & Ht)%insert_rating_passed.
    set (NEW := {| ratings.id := fresh |}) in *.
    set (db1 := set_ratings (tbl_ratings db ++ [NEW]) db) in *.
    assert (Hck1 : ∀ r, r ∈ tbl_ratings db1 → (1 <= ratings.rating r <= 5)%Z).
    { intros r [Hr| ->%list_elem_of_singleton]%elem_of_app; [by apply Hck|].
      done. }
    apply update_profile_stats_rows in Ht as (g & -> & Hg). tables.
    change (tbl_ratings db1) with (tbl_ratings db ++ [NEW]).
    change (tbl_profiles db1) with (tbl_profiles db).
    split; [done|].
    intros p' (p & -> & Hp)%list_elem_of_fmap.
    specialize (Hst p Hp).
    destruct (Hg p) as [->|(a & n & -> & Ha & Hn)]; [done|].
    cbn [with_stats profiles.average_rating profiles.successful_swaps].
    destruct (mean_fits_decimal_3_2
                (ratings.rating <$>
                   ratings_received db1 uid (ratings.rated_id NEW)))
      as (a' & Ha' & ?).
    { intros x (r & -> & Hr)%list_elem_of_fmap.
      apply Hck1. by eapply ratings_received_subseteq. }
    assert (a' = a) as -> by congruence.
    apply to_integer_Some in Hn as [-> ?].
    unfold COUNT_DISTINCT in *. lia.
  - by intros (_ & _ & _ & _ & ->)%insert_message_passed.
  - by intros (_ & _ & _ & ->)%insert_user_role_ok.
Qed.

Lemma run_in_range (db : database) :
  reachable db → ratings_checked db ∧ stats_in_range db.
Proof.
  revert db.
  apply (reachable_invariant
           (fun db => ratings_checked db ∧ stats_in_range db)).
  - split; intros ? ?%elem_of_nil; done.
  - intros now s db0 db1. apply execute_in_range.
Qed.

(** The writes of the pages besides the statements leave the ratings that
    stay and the aggregates as they are. *)
Lemma delete_skill_in_range (uid skillId : uuid) (db : database) :
  ratings_checked db ∧ stats_in_range db →
  ratings_checked (delete_skill uid skillId db)
  ∧ stats_in_range (delete_skill uid skillId db).
Proof.
  intros [Hck Hst]. split; [|done].
  intros r [_ Hr]%list_elem_of_filter. by apply Hck.
Qed.

Lemma insert_profile_in_range (now : timestamptz) (uid owner : uuid)
    (name : string) (db db' : database) :
  ratings_checked db ∧ stats_in_range db →
  insert_profile now uid owner name db = ok db' →
  ratings_checked db' ∧ stats_in_range db'.
Proof.
  intros [Hck Hst]. unfold insert_profile.
  destruct (negb _); [done|]. destruct (bool_decide _); [done|].
  destruct (negb _); [done|]. intros [= <-]. split; [done|].
  intros p [Hp| ->%list_elem_of_singleton]%elem_of_app; [by apply Hst|].
  cbn. lia.
Qed.

Lemma update_profile_in_range (now : timestamptz) (uid userId : uuid)
    (u : profile_update) (db db' : database) :
  ratings_checked db ∧ stats_in_range db →
  update_profile now uid userId u db = ok db' →
  ratings_checked db' ∧ stats_in_range db'.
Proof.
  intros [Hck Hst]. unfold update_profile. cbv zeta.
  destruct (forallb _ _); [|done]. intros [= <-]. split; [done|].
  intros p' (p & -> & Hp)%list_elem_of_fmap. specialize (Hst p Hp).
  by destruct (update_profile_reaches db uid userId p).
Qed.

Lemma reachable_app_reachable (db : database) :
  reachable db → app_reachable db.
Proof.
  intros [history Hrun]. revert db Hrun.
  assert (H : ∀ db0 db, app_reachable db0 → run history db0 = ok db →
                        app_reachable db); [|intros db; apply H; constructor].
  induction history as [|[now s] history IH]; intros db0 db H0; cbn.
  - by intros [= <-].
  - destruct (execute now s db0) as [db1|] eqn:E; [|done].
    apply IH. by apply (reached_statement now s db0).
Qed.

(** X3.  In every database the writes of the pages lead to (the statements
    of a history, the removal and the approval of a skill, the insert and
    the update of a profile), every rating is between 1 and 5, and in every
    profile the [average_rating] is between 0.00 and 5.00 and
    [successful_swaps] is a non-negative [INTEGER]. *)
Theorem reachable_ratings_in_range (db : database) :
  app_reachable db → ratings_checked db ∧ stats_in_range db.
Proof.
  induction 1 as [|now s db db' _ IH E|uid skillId db _ IH|uid skillId db _ IH
                 |now uid owner name db db' _ IH E
                 |now uid userId u db db' _ IH E].
  - split; intros ? ?%elem_of_nil; done.
  - by apply (execute_in_range now s db).
  - by apply delete_skill_in_range.
  - done.
  - by apply (insert_profile_in_range now uid owner name db).
  - by apply (update_profile_in_range now uid userId u db).
Qed.

Lemma reachable_ratings_in_range_witness :
  tbl_ratings (delete_skill "bob" "s-french" twice_rated_db) = []
  ∧ ratings_checked (delete_skill "bob" "s-french" twice_rated_db)
  ∧ stats_in_range (delete_skill "bob" "s-french" twice_rated_db).
Proof.
  split; [vm_compute; reflexivity|].
  apply reachable_ratings_in_range. apply reached_delete_skill.
  apply reachable_app_reachable. exists twice_rated_history.
  vm_compute. reflexivity.
Defined.

(** X4.  An insert of a rating ends in [numeric_value_out_of_range] only
    for a score that is no [INTEGER]; the trigger never fails for want of
    room in its columns.  With the ratings of the table between 1 and 5, as
    the [CHECK] keeps them, and fewer than 2^31 - 1 of them, the insert
    fails with that error exactly when the score is outside 32 bits: for
    every other score the average fits [DECIMAL(3,2)] and the count fits
    [INTEGER]. *)
Theorem stats_never_out_of_range (now : timestamptz)
    (uid fresh request rater rated : uuid) (score : Z) (fb : option string)
    (db : database) :
  ratings_checked db →
  (Z.of_nat (length (tbl_ratings db)) < 2 ^ 31 - 1)%Z →
  insert_rating now uid fresh request rater rated score fb db
  = failed numeric_value_out_of_range
  ↔ ¬ (- 2 ^ 31 <= score < 2 ^ 31)%Z.
Proof.
  intros Hck Hlen.
  unfold insert_rating.
  destruct ((- 2 ^ 31 <=? score)%Z && (score <? 2 ^ 31)%Z) eqn:Hint.
  2:{ split; [intros _|done].
      apply andb_false_iff in Hint as [?%Z.leb_gt|?%Z.ltb_ge]; lia. }
  apply andb_true_iff in Hint as [?%Z.leb_le ?%Z.ltb_lt].
  split; [|lia]. intros Hfail. exfalso. revert Hfail. cbn [negb].
  destruct (negb (policy.ratings_insert _ _)); [done|].
  destruct ((1 <=? score)%Z && (score <=? 5)%Z) eqn:Hs; [|done].
  cbn [negb].
  destruct (_ || _); [done|]. destruct (negb _); [done|].
  set (NEW := {| ratings.id := fresh |}).
  set (db1 := set_ratings (tbl_ratings db ++ [NEW]) db).
  apply andb_true_iff in Hs as [?%Z.leb_le ?%Z.leb_le].
  destruct (stats_fit db1 uid (ratings.rated_id NEW)) as (a & n & Ha & Hn & _).
  { intros r [Hr| ->%list_elem_of_singleton]%elem_of_app; [by apply Hck|].
    done. }
  { change (tbl_ratings db1) with (tbl_ratings db ++ [NEW]).
    rewrite length_app. cbn [length]. lia. }
  unfold update_profile_stats. cbv zeta. rewrite Ha, Hn.
  by destruct (existsb _ _).
Qed.

Lemma stats_never_out_of_range_witness :
  insert_rating 16 "root" "g3" "q3" "root" "bob" (2 ^ 31) None twice_rated_db
  = failed numeric_value_out_of_range
  ∧ is_ok (insert_rating 16 "root" "g3" "q3" "root" "bob" 4 None
             twice_rated_db) = true.
Proof.
  assert (Hck : ratings_checked twice_rated_db).
  { apply run_in_range. exists twice_rated_history. vm_compute. reflexivity. }
  assert (Hlen : (Z.of_nat (length (tbl_ratings twice_rated_db)) < 2 ^ 31 - 1)%Z)
    by (vm_compute; reflexivity).
  split; [|vm_compute; reflexivity].
  apply (stats_never_out_of_range _ _ _ _ _ _ _ _ _ Hck Hlen). lia.
Defined.

(** ** Roles *)

Lemma execute_no_admin (now : timestamptz) (s : statement)
    (db db' : database) :
  admin_sign_up s = false →
  (∀ u, is_admin db u = false) →
  execute now s db = ok db' →
  ∀ u, is_admin db' u = false.
Proof.
  intros Hs Hno.
  destruct s as [new_id n r|uid fresh owner name offering
                |uid fresh requester provider offered wanted msg st
                |uid request st|uid fresh request rater rated score fb
                |uid fresh request sender text|uid owner r]; cbn [execute].
  - intros (_ & _ & _ & ->)%handle_new_user_ok u.
    cbn [admin_sign_up] in Hs. rewrite Hs.
    specialize (Hno u). unfold is_admin in *. tables.
    rewrite existsb_app, Hno. cbn. by rewrite andb_false_r.
  - by intros (_ & _ & _ & ->)%insert_skill_ok.
  - by intros (_ & _ & _ & _ & _ & _ & ->)%insert_skill_request_ok.
  - rewrite update_status_ok. by intros [= <-].
  - intros (_ & _ & _ & _ & _ & _ & _ & Ht)%insert_rating_passed.
    by apply update_profile_stats_rows in Ht as (g & -> & Hg).
  - by intros (_ & _ & _ & _ & ->)%insert_message_passed.
  - intros (Ha & _)%insert_user_role_ok. by rewrite Hno in Ha.
Qed.

(** X6.  The first admin comes from a sign-up: a history without a sign-up
    whose metadata asks for the role [admin] leads to a database without an
    admin.  (A role row is inserted by an admin only, and no other
    statement writes to [user_roles].) *)
Theorem no_admin_without_admin_sign_up
    (history : list (timestamptz * statement)) (db : database) :
  run history empty_database = ok db →
  (∀ e, e ∈ history → admin_sign_up e.2 = false) →
  ∀ u, is_admin db u = false.
Proof.
  assert (Hno : ∀ u, is_admin empty_database u = false) by done.
  revert Hno. generalize empty_database as db0.
  induction history as [|[now s] history IH]; intros db0 Hno Hrun Hs;
    cbn in Hrun.
  - by injection Hrun as <-.
  - destruct (execute now s db0) as [db1|] eqn:E; [|done].
    apply (IH db1); [|done|].
    + eapply execute_no_admin; [|exact Hno|exact E].
      apply (Hs (now, s)). apply list_elem_of_here.
    + intros e He. apply Hs. by apply list_elem_of_further.
Qed.

Lemma no_admin_without_admin_sign_up_witness :
  auth_users (after (drop 1 asking)) = ["alice"; "bob"]%string
  ∧ Forall (fun u => is_admin (after (drop 1 asking)) u = false)
      ["alice"; "bob"; "root"]%string.
Proof.
  split; [vm_compute; reflexivity|].
  assert (Hnone : ∀ u, is_admin (after (drop 1 asking)) u = false).
  { apply (no_admin_without_admin_sign_up (drop 1 asking)).
    - vm_compute. reflexivity.
    - intros e He. apply list_elem_of_In in He. cbn in He.
      repeat (destruct He as [<-|He]; [reflexivity|]). done. }
  repeat constructor; apply Hnone.
Defined.

(** ** Conversations *)

(** *** What [trim] takes away *)

Lemma after_prefix_spec (w s s' : list ascii) :
  after_prefix w s = Some s' ↔ s = w ++ s'.
Proof.
  revert s. induction w as [|a w IH]; intros s; cbn.
  - split; [by intros [= ->]|by intros ->].
  - destruct s as [|b s]; [done|]. case_bool_decide as Hab.
    + subst b. rewrite IH. split; [by intros ->|by intros [= ->]].
    + split; [done|]. intros [= -> _]. done.
Qed.

Lemma strip_one_Some (ws : list (list ascii)) (s s' : list ascii) :
  strip_one ws s = Some s' → ∃ w, w ∈ ws ∧ s = w ++ s'.
Proof.
  unfold strip_one. intros Hh. apply head_Some_elem_of in Hh.
  apply list_elem_of_omap in Hh as (w & Hw & Hs).
  exists w. split; [done|]. by apply after_prefix_spec.
Qed.

Lemma strip_one_None (ws : list (list ascii)) (s : list ascii) (w : list ascii) :
  strip_one ws s = None → w ∈ ws → ¬ w `prefix_of` s.
Proof.
  unfold strip_one. intros Hh Hw [s' Hs]. apply head_None in Hh.
  assert (s' ∈ omap (fun w => after_prefix w s) ws) as Hin.
  { apply list_elem_of_omap. exists w. split; [done|].
    by apply after_prefix_spec. }
  rewrite Hh in Hin. by apply elem_of_nil in Hin.
Qed.

Lemma strip_all_spec (ws : list (list ascii)) (fuel : nat) (s : list ascii) :
  (∀ w, w ∈ ws → w ≠ []) →
  length s <= fuel →
  ∃ l, Forall (fun w => w ∈ ws) l
       ∧ s = concat l ++ strip_all ws fuel s
       ∧ strip_one ws (strip_all ws fuel s) = None.
Proof.
  intros Hne. revert s. induction fuel as [|fuel IH]; intros s Hlen; cbn.
  - destruct s; [|cbn in Hlen; lia]. exists []. repeat split; [done|].
    destruct (strip_one ws []) as [s'|] eqn:E; [|done].
    apply strip_one_Some in E as (w & Hw & Hs).
    symmetry in Hs. apply app_eq_nil in Hs as [-> _]. by destruct (Hne _ Hw).
  - destruct (strip_one ws s) as [s'|] eqn:E.
    + apply strip_one_Some in E as (w & Hw & ->).
      destruct (IH s') as (l & Hl & Hs' & Hnone).
      { rewrite length_app in Hlen. specialize (Hne _ Hw).
        destruct w; [done|]. cbn in Hlen. lia. }
      exists (w :: l). split; [by constructor|]. split; [|done].
      cbn [concat]. rewrite <- app_assoc. by f_equal.
    + by exists [].
Qed.

Lemma white_space_nonempty (w : list ascii) : w ∈ white_space → w ≠ [].
Proof.
  intros Hw ->. revert Hw. apply (bool_decide_unpack _). vm_compute. exact I.
Qed.

Lemma rev_white_space_nonempty (w : list ascii) :
  w ∈ @rev ascii <$> white_space → w ≠ [].
Proof.
  intros (w' & -> & Hw)%list_elem_of_fmap Hnil.
  apply (white_space_nonempty w' Hw).
  by rewrite <- (rev_involutive w'), Hnil.
Qed.

Lemma white_space_only_rev (l : list (list ascii)) :
  Forall (fun w => w ∈ @rev ascii <$> white_space) l →
  white_space_only (rev (concat l)).
Proof.
  induction 1 as [|w l Hw _ (ws & Hws & IH)]; [by exists []|].
  apply list_elem_of_fmap in Hw as (w' & -> & Hw').
  exists (ws ++ [w']). split.
  - apply Forall_app. split; [done|]. by apply Forall_singleton.
  - cbn [concat]. rewrite rev_app_distr, rev_involutive, IH, concat_app.
    cbn [concat]. by rewrite app_nil_r.
Qed.

(** What [trim] leaves and what it takes away. *)
Lemma trim_spec (s : string) :
  ∃ l r,
    white_space_only l ∧ white_space_only r
    ∧ list_ascii_of_string s = l ++ list_ascii_of_string (trim s) ++ r
    ∧ trimmed (list_ascii_of_string (trim s)).
Proof.
  unfold trim. rewrite list_ascii_of_string_of_list_ascii.
  set (a := trim_start (list_ascii_of_string s)).
  destruct (strip_all_spec white_space (length (list_ascii_of_string s))
              (list_ascii_of_string s) white_space_nonempty (le_n _))
    as (l & Hl & Hs & Ha).
  fold (trim_start (list_ascii_of_string s)) in Hs, Ha. fold a in Hs, Ha.
  unfold trim_end.
  destruct (strip_all_spec (@rev ascii <$> white_space) (length a) (rev a)
              rev_white_space_nonempty) as (r & Hr & Hb & Hnone).
  { by rewrite length_rev. }
  set (b := strip_all _ _ (rev a)) in *.
  assert (Hab : a = rev b ++ rev (concat r)).
  { by rewrite <- rev_app_distr, <- Hb, rev_involutive. }
  exists (concat l), (rev (concat r)).
  split; [by exists l|]. split; [by apply white_space_only_rev|].
  split; [by rewrite <- Hab|].
  intros w Hw. split.
  - intros [t Ht]. apply (strip_one_None _ _ w Ha Hw).
    exists (t ++ rev (concat r)). by rewrite Hab, Ht, <- app_assoc.
  - intros [t Ht].
    apply (strip_one_None _ _ (rev w) Hnone).
    + by apply list_elem_of_fmap_2.
    + exists (rev t). by rewrite <- rev_app_distr, <- Ht, rev_involutive.
Qed.

Lemma white_space_prefix_free (w1 w2 : list ascii) :
  w1 ∈ white_space → w2 ∈ white_space → w1 `prefix_of` w2 → w1 = w2.
Proof.
  assert (H : Forall (fun w1 => Forall (fun w2 => w1 `prefix_of` w2 → w1 = w2)
                                  white_space) white_space).
  { apply (bool_decide_unpack _). vm_compute. exact I. }
  intros H1 H2. rewrite Forall_forall in H. specialize (H w1 H1).
  rewrite Forall_forall in H. by apply H.
Qed.

Lemma strip_one_white_space (w s : list ascii) :
  w ∈ white_space → strip_one white_space (w ++ s) = Some s.
Proof.
  intros Hw. destruct (strip_one white_space (w ++ s)) as [s'|] eqn:E.
  - apply strip_one_Some in E as (w' & Hw' & Hs). f_equal.
    assert (w = w') as <-; [|by apply app_inv_head in Hs].
    destruct (prefix_weak_total w w' (w ++ s)) as [Hp|Hp];
      [by exists s|by exists s'| |].
    + by apply white_space_prefix_free.
    + symmetry. by apply white_space_prefix_free.
  - exfalso. apply (strip_one_None _ _ w E Hw). by exists s.
Qed.

Lemma strip_all_white_space (l : list (list ascii)) (fuel : nat) :
  Forall (fun w => w ∈ white_space) l →
  length (concat l) <= fuel →
  strip_all white_space fuel (concat l) = [].
Proof.
  intros Hl. revert fuel. induction Hl as [|w l Hw _ IH]; intros fuel Hlen.
  - destruct fuel; [done|]. cbn.
    destruct (strip_one white_space []) as [s'|] eqn:E; [|done].
    apply strip_one_Some in E as (w & Hw & Hs).
    symmetry in Hs. apply app_eq_nil in Hs as [-> _].
    by destruct (white_space_nonempty _ Hw).
  - cbn [concat] in *. rewrite length_app in Hlen.
    pose proof (white_space_nonempty _ Hw).
    destruct fuel as [|fuel]; [destruct w; [done|cbn in Hlen; lia]|].
    cbn [strip_all]. rewrite strip_one_white_space by done.
    apply IH. destruct w; [done|cbn in Hlen; lia].
Qed.

Lemma white_space_only_app (l r : list ascii) :
  white_space_only l → white_space_only r → white_space_only (l ++ r).
Proof.
  intros (ws1 & H1 & ->) (ws2 & H2 & ->). exists (ws1 ++ ws2).
  split; [by apply Forall_app|]. by rewrite concat_app.
Qed.

(** [trim] gives the empty string for the texts of white space, and for
    these only. *)
Lemma trim_blank (s : string) :
  trim s = ""%string ↔ white_space_only (list_ascii_of_string s).
Proof.
  split.
  - intros Hs. destruct (trim_spec s) as (l & r & Hl & Hr & -> & _).
    rewrite Hs. by apply white_space_only_app.
  - intros (ws & Hws & Hs). unfold trim, trim_start. rewrite Hs.
    by rewrite strip_all_white_space.
Qed.

(** The text a page stores for what was typed. *)
Lemma trim_stored (s : string) :
  ¬ white_space_only (list_ascii_of_string s) →
  trim s ≠ ""%string ∧ trimmed_text s (Some (trim s)).
Proof.
  intros Hs. assert (Hne : trim s ≠ ""%string) by (by rewrite trim_blank).
  split; [done|]. split; [done|].
  destruct (trim_spec s) as (l & r & Hl & Hr & Hlr & Ht).
  split; [done|]. by exists l, r.
Qed.



Lemma execute_senders_are_parties (now : timestamptz) (s : statement)
    (db db' : database) :
  senders_are_parties db → execute now s db = ok db' →
  senders_are_parties db'.
Proof.
  unfold senders_are_parties, sent_by_party. intros Hms.
  destruct s as [new_id n r|uid fresh owner name offering
                |uid fresh requester provider offered wanted msg st
                |uid request st|uid fresh request rater rated score fb
                |uid fresh request sender text|uid owner r]; cbn [execute].
  - by intros (_ & _ & _ & ->)%handle_new_user_ok.
  - by intros (_ & _ & _ & ->)%insert_skill_ok.
  - intros (_ & _ & _ & _ & _ & _ & ->)%insert_skill_request_ok. tables.
    intros m (sr & Hsr & H)%Hms. exists sr. split; [|done].
    apply elem_of_app. by left.
  - rewrite update_status_ok. intros [= <-]. tables.
    intros m (sr & Hsr & Hid & Hp)%Hms.
    eexists. split; [by apply list_elem_of_fmap_2|].
    destruct (update_status_keeps_id now uid request st db sr)
      as (-> & -> & -> & _). done.
  - intros (_ & _ & _ & _ & _ & _ & _ & Ht)%insert_rating_passed.
    by apply update_profile_stats_rows in Ht as (g & -> & Hg).
  - intros (-> & Hp & _ & _ & ->)%insert_message_passed. tables.
    intros m [Hm| ->%list_elem_of_singleton]%elem_of_app; [by apply Hms|].
    by apply party_to_request_spec in Hp.
  - by intros (_ & _ & _ & ->)%insert_user_role_ok.
Qed.

Lemma run_senders_are_parties (db : database) :
  reachable db → senders_are_parties db.
Proof.
  apply reachable_invariant.
  - by intros m ?%elem_of_nil.
  - intros now s db0 db1. apply execute_senders_are_parties.
Qed.

(** X8.  In every database the statements lead to, every message was sent
    by the requester or the provider of the request it belongs to. *)
Theorem messages_sent_by_parties (db : database) :
  reachable db → senders_are_parties db.
Proof. apply run_senders_are_parties. Qed.

Lemma messages_sent_by_parties_witness : senders_are_parties chat_db.
Proof.
  apply messages_sent_by_parties. exists chat_history.
  vm_compute. reflexivity.
Defined.

(** X9.  A conversation is closed to everyone but its two parties, admins
    included: for a user who is neither the requester nor the provider of
    the request, the listing of its messages is empty (on the Chat page
    too), an insert of a message is refused by the policy, and the page
    answers the send of a text that is not blank with its error toast and
    leaves the database as it was. *)
Theorem outsider_reads_no_messages (uid request : uuid) (db : database) :
  senders_are_parties db →
  (∀ sr, sr ∈ tbl_skill_requests db → skill_requests.id sr = request →
     skill_requests.requester_id sr ≠ uid
     ∧ skill_requests.provider_id sr ≠ uid) →
  select_messages uid request db = []
  ∧ Chat.messages (Chat.fetchChatData uid request db) = []
  ∧ (∀ now fresh sender text,
       insert_message now uid fresh request sender text db
       = failed row_level_security)
  ∧ (∀ now fresh text,
       ¬ white_space_only (list_ascii_of_string text) →
       ∃ t, Chat.sendMessage now uid fresh request text db = (Some t, db)
            ∧ destructive t = true).
Proof.
  intros Hms Hout.
  assert (Hparty : policy.party_to_request db uid request = false).
  { apply not_true_is_false. intros (sr & Hsr & Hid & Hp)%party_to_request_spec.
    destruct (Hout sr Hsr Hid). tauto. }
  assert (Hconv : conversation uid request db = []).
  { unfold conversation. apply filter_none.
    intros m [Hsel Hm]%list_elem_of_filter Hreq.
    unfold policy.messages_select in Hsel. rewrite Hreq, Hparty in Hsel.
    rewrite orb_false_r in Hsel. apply Is_true_true in Hsel.
    apply bool_decide_eq_true in Hsel.
    destruct (Hms m Hm) as (sr & Hsr & Hid & Hp).
    rewrite Hreq in Hid. destruct (Hout sr Hsr Hid). rewrite Hsel in Hp.
    tauto. }
  assert (Hsel : select_messages uid request db = []).
  { unfold select_messages. by rewrite Hconv. }
  assert (Hins : ∀ now fresh sender text,
            insert_message now uid fresh request sender text db
            = failed row_level_security).
  { intros. unfold insert_message, policy.messages_insert.
    cbn [messages.skill_request_id]. rewrite Hparty.
    by rewrite andb_false_r. }
  split; [done|]. split; [|split; [done|]].
  - unfold Chat.fetchChatData.
    destruct (filter _ (visible_requests db uid)) as [|r [|]]; try done.
  - intros now fresh text [Htext _]%trim_stored. unfold Chat.sendMessage.
    rewrite bool_decide_false by done. rewrite Hins. by eexists.
Qed.

Lemma outsider_reads_no_messages_witness :
  is_admin chat_db "root" = true
  ∧ select_messages "root" "r1" chat_db = []
  ∧ ∃ t, Chat.sendMessage 10 "root" "m3" "r1" "hello" chat_db
         = (Some t, chat_db)
         ∧ destructive t = true.
Proof.
  split; [vm_compute; reflexivity|].
  destruct (outsider_reads_no_messages "root" "r1" chat_db)
    as (Hsel & _ & _ & Hsend).
  - apply run_senders_are_parties. exists chat_history.
    vm_compute. reflexivity.
  - intros sr Hsr Hid. evaluated Hrows (tbl_skill_requests chat_db).
    rewrite Hrows in Hsr. apply list_elem_of_singleton in Hsr as ->.
    split; discriminate.
  - split; [exact Hsel|]. apply Hsend. rewrite <- trim_blank.
    vm_compute. discriminate.
Defined.




(** X11.  The Chat page stores no blank message, and what it stores is the
    text without the white space around it.  For a text of white space only
    (the empty text, blanks, tabs, line ends, no-break spaces and the other
    white space of the language), [sendMessage] sends nothing and shows
    nothing; and whatever the text and the outcome, a message the call adds
    is from the user, for the request of the page and unread, its content
    is not empty, has no white space at either end, and is the text as it
    was typed up to white space before and after it. *)
Theorem stored_message_is_trimmed (now : timestamptz)
    (user fresh requestId : uuid) (newMessage : string) (db db' : database)
    (t : option toast) :
  Chat.sendMessage now user fresh requestId newMessage db = (t, db') →
  (white_space_only (list_ascii_of_string newMessage) → t = None ∧ db' = db)
  ∧ ∀ m, m ∈ tbl_messages db' →
      m ∈ tbl_messages db
      ∨ (messages.sender_id m = user
         ∧ messages.skill_request_id m = requestId
         ∧ messages.is_read m = false
         ∧ trimmed_text newMessage (Some (messages.content m))).
Proof.
  unfold Chat.sendMessage.
  destruct (bool_decide (trim newMessage = ""%string)) eqn:Hblank.
  { intros [= <- <-]. split; [done|]. by left. }
  apply bool_decide_eq_false in Hblank.
  destruct (insert_message now user fresh requestId user (trim newMessage) db)
    as [db1|e] eqn:Hins.
  2:{ intros [= <- <-]. split; [|by left].
      intros Hws. by apply trim_blank in Hws. }
  intros [= <- <-]. split; [intros Hws; by apply trim_blank in Hws|].
  apply insert_message_passed in Hins as (_ & _ & _ & _ & ->).
  intros m Hm. cbn [tbl_messages set_messages] in Hm.
  apply elem_of_app in Hm as [Hm| ->%list_elem_of_singleton]; [by left|].
  right. cbn [messages.sender_id messages.skill_request_id messages.is_read
              messages.content].
  repeat (split; [done|]). apply trim_stored. by rewrite <- trim_blank.
Qed.

Lemma stored_message_is_trimmed_witness :
  ∃ db' l r,
    Chat.sendMessage 10 "bob" "m3" "r1" "  see you  " chat_db = (None, db')
    ∧ messages.content <$> tbl_messages db' = ["hi"; "hello"; "see you"]%string
    ∧ white_space_only l ∧ white_space_only r
    ∧ list_ascii_of_string "  see you  "
      = l ++ list_ascii_of_string "see you" ++ r.
Proof.
  evaluated Hsend
    (Chat.sendMessage 10 "bob" "m3" "r1" "  see you  " chat_db).
  match type of Hsend with _ = (_, ?d) => set (db' := d) in * end.
  destruct (stored_message_is_trimmed _ _ _ _ _ _ _ _ Hsend) as [_ Hnew].
  evaluated Hrows (tbl_messages db').
  assert (Hfresh : "m3"%string ∉ messages.id <$> tbl_messages chat_db)
    by (apply (bool_decide_unpack _); vm_compute; exact I).
  match type of Hrows with
  | _ = [_; _; ?m] =>
      destruct (Hnew m) as [Hold|(_ & _ & _ & _ & _ & l & r & Hl & Hr & Hs)];
        [rewrite Hrows; do 2 apply list_elem_of_further; apply list_elem_of_here
        |exfalso; apply Hfresh;
         exact (list_elem_of_fmap_2 messages.id _ _ Hold)
        |]
  end.
  exists db', l, r. split; [exact Hsend|]. split; [by rewrite Hrows|].
  split; [exact Hl|]. split; [exact Hr|exact Hs].
Defined.

(** ** The lists of the pages *)

(** A page lists a request exactly to its two parties, and as long as it is
    pending or accepted. *)
Lemma listed_spec (viewer : uuid) (db : database) (r : skill_requests.row) :
  r ∈ listed viewer db
  ↔ r ∈ tbl_skill_requests db
    ∧ (skill_requests.requester_id r = viewer
       ∨ skill_requests.provider_id r = viewer)
    ∧ terminal (skill_requests.status r) = false.
Proof.
  unfold listed, Networks.fetchConnections, Dashboard.pendingRequests.
  cbn [Requests.fetchRequests Requests.incomingRequests
       Requests.outgoingRequests Requests.acceptedSwaps].
  rewrite !elem_of_app, !list_elem_of_filter, !visible_requests_spec.
  rewrite !elem_of_cons, elem_of_nil. unfold may_write.
  destruct (skill_requests.status r); cbn [terminal]; split;
    intuition (try discriminate; auto 10).
Qed.

(** Under the key, a status write by a caller the policy lets through
    reaches the one row with the [id]. *)
Lemma update_status_one (now : timestamptz) (user : uuid) (s : request_status)
    (db : database) (r : skill_requests.row) :
  NoDup (skill_requests.id <$> tbl_skill_requests db) →
  r ∈ tbl_skill_requests db → may_write db user r →
  update_status now user (skill_requests.id r) s db
  = ok (set_skill_requests
          ((fun x => if bool_decide (skill_requests.id x = skill_requests.id r)
                     then touch_status s now x else x)
             <$> tbl_skill_requests db) db).
Proof.
  intros Hnd Hr Hw. rewrite update_status_ok. do 2 f_equal.
  apply list_fmap_ext. intros i x Hx.
  apply list_elem_of_lookup_2 in Hx.
  destruct (bool_decide (skill_requests.id x = skill_requests.id r)) eqn:Hid.
  - apply bool_decide_eq_true in Hid.
    assert (x = r) as -> by (by eapply NoDup_fmap_eq).
    by rewrite (proj2 (update_reaches_spec _ _ _ r) (conj eq_refl Hw)).
  - apply bool_decide_eq_false in Hid.
    destruct (update_reaches _ _ _ x) eqn:E; [|done].
    by apply update_reaches_spec in E as [? _].
Qed.

Lemma filter_fmap_same {A} (P : A → Prop) `{∀ x, Decision (P x)}
    (f : A → A) (l : list A) :
  (∀ x, P (f x) ↔ P x) → filter P (f <$> l) = f <$> filter P l.
Proof.
  intros Hf. induction l as [|x l IH]; [done|].
  rewrite fmap_cons. destruct (decide (P x)) as [Hx|Hx].
  - rewrite (filter_cons_True P (f x)) by (by apply Hf).
    rewrite (filter_cons_True P x) by done.
    by rewrite fmap_cons, IH.
  - rewrite (filter_cons_False P (f x)) by (by rewrite Hf).
    by rewrite (filter_cons_False P x).
Qed.

Lemma filter_fmap_hit {A} (P : A → Prop) `{∀ x, Decision (P x)}
    (hit : A → bool) (g : A → A) (l : list A) :
  (∀ x, ¬ P (g x)) →
  filter P ((fun x => if hit x then g x else x) <$> l)
  = filter (fun x => hit x = false) (filter P l).
Proof.
  intros Hg. induction l as [|x l IH]; [done|].
  rewrite fmap_cons. destruct (hit x) eqn:Hx.
  - rewrite filter_cons_False by apply Hg. rewrite IH.
    destruct (decide (P x)).
    + rewrite (filter_cons_True P) by done.
      rewrite filter_cons_False; [done|]. by rewrite Hx.
    + by rewrite (filter_cons_False P).
  - destruct (decide (P x)).
    + rewrite !(filter_cons_True P) by done.
      rewrite filter_cons_True by done. by rewrite IH.
    + rewrite !(filter_cons_False P) by done. apply IH.
Qed.

(** What the pages list after a status write that closes the request [r]:
    what they listed before, without [r]. *)
Lemma listed_after_closing (now : timestamptz) (s : request_status)
    (db : database) (r : skill_requests.row) (viewer : uuid) :
  terminal s = true →
  listed viewer
    (set_skill_requests
       ((fun x => if bool_decide (skill_requests.id x = skill_requests.id r)
                  then touch_status s now x else x)
          <$> tbl_skill_requests db) db)
  = filter (fun x => skill_requests.id x ≠ skill_requests.id r)
           (listed viewer db).
Proof.
  intros Hs.
  set (f := fun x => if bool_decide (skill_requests.id x = skill_requests.id r)
                     then touch_status s now x else x).
  set (db' := set_skill_requests (f <$> tbl_skill_requests db) db).
  assert (Hv : visible_requests db' viewer = f <$> visible_requests db viewer).
  { unfold visible_requests. subst db'. tables. apply filter_fmap_same.
    intros x. subst f. cbv beta. by destruct (bool_decide _). }
  assert (Hclosed : ∀ (P : skill_requests.row → Prop) `{∀ x, Decision (P x)},
            (∀ x, P x → terminal (skill_requests.status x) = false) →
            filter P (f <$> visible_requests db viewer)
            = filter (fun x => skill_requests.id x ≠ skill_requests.id r)
                     (filter P (visible_requests db viewer))).
  { intros P HP Hopen. subst f.
    rewrite (filter_fmap_hit P
               (fun x => bool_decide (skill_requests.id x
                                      = skill_requests.id r))).
    - apply list_filter_iff. intros x.
      by rewrite bool_decide_eq_false.
    - intros x Hx%Hopen. cbn in Hx. congruence. }
  unfold listed, Networks.fetchConnections, Dashboard.pendingRequests.
  cbn [Requests.fetchRequests Requests.incomingRequests
       Requests.outgoingRequests Requests.acceptedSwaps].
  rewrite !Hv, !filter_app.
  repeat f_equal; apply Hclosed; intros x Hx.
  - by destruct Hx as [_ ->].
  - destruct Hx as [_ Hx]. rewrite !elem_of_cons, elem_of_nil in Hx.
    by destruct Hx as [->|[->|[]]].
  - by destruct Hx as [_ ->].
  - by destruct Hx as [_ ->].
  - by destruct Hx as [_ ->].
Qed.

(** X12.  A request that one of its parties closes (declines, cancels,
    completes) leaves the lists of the Requests page, the Networks page and
    the Dashboard: with the [id] a key, each of the handlers that write
    [rejected], [cancelled] or [completed], run by the requester or the
    provider, shows its success toast, and after it these three pages list
    to every user what they listed before without the request. *)
Theorem closed_request_leaves_every_list (now : timestamptz) (user : uuid)
    (db : database) (r : skill_requests.row) :
  NoDup (skill_requests.id <$> tbl_skill_requests db) →
  r ∈ tbl_skill_requests db →
  user = skill_requests.requester_id r ∨ user = skill_requests.provider_id r →
  ∀ h, h ∈ [Requests.handleRejectRequest; Requests.handleDeleteRequest;
            Requests.handleCompleteSwap; Networks.handleCompleteSwap;
            Dashboard.handleDeclineRequest] →
    ∃ t db',
      h now user (skill_requests.id r) db = (t, db')
      ∧ destructive t = false
      ∧ ∀ viewer,
          listed viewer db'
          = filter (fun x => skill_requests.id x ≠ skill_requests.id r)
                   (listed viewer db).
Proof.
  intros Hnd Hr Hparty h Hh.
  assert (Hw : may_write db user r) by (unfold may_write; tauto).
  assert (Hgen : ∀ s t1 t2 t3, terminal s = true →
            ∃ t db',
              Requests.write_status s t1 t2 t3 now user (skill_requests.id r) db
              = (t, db')
              ∧ destructive t = false
              ∧ ∀ viewer,
                  listed viewer db'
                  = filter (fun x => skill_requests.id x ≠ skill_requests.id r)
                           (listed viewer db)).
  { intros s t1 t2 t3 Hs. unfold Requests.write_status.
    rewrite (update_status_one now user s db r Hnd Hr Hw).
    eexists _, _. split; [done|]. split; [done|].
    intros viewer. by apply listed_after_closing. }
  rewrite !elem_of_cons, elem_of_nil in Hh.
  destruct Hh as [->|[->|[->|[->|[->|[]]]]]]; by apply Hgen.
Qed.

Lemma closed_request_leaves_every_list_witness :
  ∃ t db',
    Networks.handleCompleteSwap 8 "alice" "r1" accepted_db = (t, db')
    ∧ destructive t = false
    ∧ ∀ viewer, listed viewer db'
                = filter (fun x => skill_requests.id x ≠ "r1")
                         (listed viewer accepted_db).
Proof.
  evaluated Hrows (tbl_skill_requests accepted_db).
  match type of Hrows with
  | _ = [?r] =>
      apply (closed_request_leaves_every_list 8 "alice" accepted_db r)
  end.
  - apply (bool_decide_unpack _). vm_compute. exact I.
  - rewrite Hrows. apply list_elem_of_here.
  - left. reflexivity.
  - do 3 apply list_elem_of_further. apply list_elem_of_here.
Defined.

(** X13.  Accepting opens the connection: when the provider of a pending
    request clicks Accept on the Requests page (or accepts it from the
    Dashboard, which sends the same write), the success toast is shown and,
    on the refresh, the request is no longer among the provider's incoming
    requests nor on the Dashboard, and it is, as accepted, among the active
    swaps of the Requests page and among the connections of the Networks
    page of both parties, and among the outgoing requests of the
    requester. *)
Theorem accepted_request_becomes_connection (now : timestamptz) (user : uuid)
    (db : database) (r : skill_requests.row) :
  r ∈ tbl_skill_requests db →
  skill_requests.provider_id r = user →
  skill_requests.status r = pending →
  ∃ t db',
    Requests.click (Requests.fetchRequests user db)
      (Requests.Accept (skill_requests.id r)) now user db = (Some t, db')
    ∧ destructive t = false
    ∧ (∃ t', Dashboard.handleAcceptRequest now user (skill_requests.id r) db
             = (t', db')
             ∧ destructive t' = false)
    ∧ (∀ x, x ∈ Requests.incomingRequests (Requests.fetchRequests user db')
                ++ Dashboard.pendingRequests user db' →
         skill_requests.id x ≠ skill_requests.id r)
    ∧ (∀ party,
         party = skill_requests.requester_id r
         ∨ party = skill_requests.provider_id r →
         touch_status accepted now r
           ∈ Requests.acceptedSwaps (Requests.fetchRequests party db')
         ∧ touch_status accepted now r ∈ Networks.fetchConnections party db')
    ∧ touch_status accepted now r
        ∈ Requests.outgoingRequests
            (Requests.fetchRequests (skill_requests.requester_id r) db').
Proof.
  intros Hr Hprov Hpend.
  assert (Hw : may_write db user r) by (unfold may_write; auto).
  set (g := fun x => if update_reaches db user (skill_requests.id r) x
                     then touch_status accepted now x else x).
  set (db' := set_skill_requests (g <$> tbl_skill_requests db) db).
  assert (Hok : update_status now user (skill_requests.id r) accepted db
                = ok db') by apply update_status_ok.
  assert (Hr' : touch_status accepted now r ∈ tbl_skill_requests db').
  { subst db'. tables. apply list_elem_of_fmap. exists r. split; [|done].
    subst g. cbv beta.
    by rewrite (proj2 (update_reaches_spec _ _ _ r) (conj eq_refl Hw)). }
  exists {| title := "Request Accepted!";
            description := "The skill swap has been accepted.";
            destructive := false |}, db'.
  split.
  { unfold Requests.click.
    rewrite (entitled_rendered user db (Requests.Accept _) r); [|done|by cbn].
    cbn [Requests.onClick]. unfold Requests.handleAcceptRequest,
      Requests.write_status. by rewrite Hok. }
  split; [done|]. split.
  { eexists. unfold Dashboard.handleAcceptRequest, Requests.write_status.
    rewrite Hok. done. }
  split.
  { intros x Hx Hid.
    assert (Hx' : x ∈ tbl_skill_requests db'
                  ∧ skill_requests.provider_id x = user
                  ∧ skill_requests.status x = pending).
    { apply elem_of_app in Hx as [Hx|Hx]; cbn in Hx;
        apply list_elem_of_filter in Hx as [[? ?] Hx];
        by apply visible_requests_spec in Hx as [? _]. }
    destruct Hx' as (Hin & Hp & Hst). subst db'. tables.
    apply list_elem_of_fmap in Hin as (x0 & -> & Hx0). subst g. cbv beta in *.
    destruct (update_reaches db user (skill_requests.id r) x0) eqn:E;
      [done|].
    assert (update_reaches db user (skill_requests.id r) x0 = true);
      [|congruence].
    apply update_reaches_spec. split; [done|]. unfold may_write. auto. }
  split.
  - intros party Hparty.
    assert (Hv : touch_status accepted now r ∈ visible_requests db' party).
    { apply visible_requests_spec. split; [done|]. unfold may_write. cbn.
      destruct Hparty; auto. }
    split; apply list_elem_of_filter; (split; [|done]); cbn;
      (split; [|done]); destruct Hparty; auto.
  - apply list_elem_of_filter. split.
    + split; [done|]. cbn. apply list_elem_of_further, list_elem_of_here.
    + apply visible_requests_spec. split; [done|]. unfold may_write. cbn. auto.
Qed.

Lemma accepted_request_becomes_connection_witness :
  ∃ t db' r',
    Requests.click (Requests.fetchRequests "bob" pending_db)
      (Requests.Accept "r1") 7 "bob" pending_db = (Some t, db')
    ∧ destructive t = false
    ∧ skill_requests.status r' = accepted
    ∧ r' ∈ Networks.fetchConnections "alice" db'
    ∧ r' ∈ Networks.fetchConnections "bob" db'.
Proof.
  evaluated Hrows (tbl_skill_requests pending_db).
  match type of Hrows with
  | _ = [?r] =>
      destruct (accepted_request_becomes_connection 7 "bob" pending_db r)
        as (t & db' & Hclick & Ht & _ & _ & Hboth & _);
      [rewrite Hrows; apply list_elem_of_here|reflexivity|reflexivity|];
      exists t, db', (touch_status accepted 7 r)
  end.
  split; [exact Hclick|]. split; [exact Ht|]. split; [reflexivity|].
  split.
  - exact (proj2 (Hboth "alice" (or_introl eq_refl))).
  - exact (proj2 (Hboth "bob" (or_intror eq_refl))).
Defined.

(** ** The Rate page, once more *)

Lemma run_schema_holds (db : database) : reachable db → schema_holds db.
Proof.
  intros Hreach. split; [by apply run_keys_unique|].
  split; [by apply run_references_resolve|]. by apply run_in_range.
Qed.


(** The queries of the Rate page read [skill_requests], [user_roles] and
    [ratings]. *)
Lemma fetchSkillRequest_reads (user requestId : uuid) (db db' : database) :
  tbl_skill_requests db' = tbl_skill_requests db →
  tbl_user_roles db' = tbl_user_roles db →
  filter (fun r => ratings.request_id r = requestId ∧ ratings.rater_id r = user)
         (tbl_ratings db')
  = filter (fun r => ratings.request_id r = requestId
                     ∧ ratings.rater_id r = user)
           (tbl_ratings db) →
  Rate.fetchSkillRequest user requestId db'
  = Rate.fetchSkillRequest user requestId db.
Proof.
  intros Hrq Hro Hra. unfold Rate.fetchSkillRequest.
  assert (visible_requests db' user = visible_requests db user) as ->.
  { unfold visible_requests, policy.skill_requests_select, is_admin.
    by rewrite Hrq, Hro. }
  assert (Hown : ∀ d,
            filter (fun r => ratings.request_id r = requestId
                             ∧ ratings.rater_id r = user)
                   (filter (fun r => Is_true (policy.ratings_select d user r))
                           (tbl_ratings d))
            = filter (fun r => ratings.request_id r = requestId
                               ∧ ratings.rater_id r = user)
                     (tbl_ratings d)).
  { intros d. rewrite list_filter_filter. apply list_filter_iff.
    intros r. split; [tauto|]. intros [? Hr]. split; [done|].
    apply Is_true_true. unfold policy.ratings_select.
    by rewrite Hr, bool_decide_true. }
  by rewrite !Hown, Hra.
Qed.

(** X14.  A rating counts for its rater only.  After a rating went in from
    the Rate page, the page loaded again by the same user for the same
    request ends in "Already Rated"; for every other user, the partner
    included, the page loads as it did before. *)
Theorem rating_closes_the_page_for_its_rater (user requestId : uuid)
    (stars : Z) (feedback : string) (now : timestamptz) (fresh : uuid)
    (db db' : database) :
  Rate.submitRating (Rate.fetchSkillRequest user requestId db)
    stars feedback now user fresh db = (Rate.rating_submitted, db') →
  Rate.fetchSkillRequest user requestId db' = Rate.already_rated
  ∧ ∀ other, other ≠ user →
      Rate.fetchSkillRequest other requestId db'
      = Rate.fetchSkillRequest other requestId db.
Proof.
  unfold Rate.submitRating.
  destruct (Rate.skillRequest _) as [sr|] eqn:Hl; [|done].
  destruct (bool_decide (stars = 0%Z)); [done|].
  destruct (insert_rating _ _ _ _ _ _ _ _ _) as [db1|e] eqn:Hins; [|done].
  intros [= <-].
  pose proof (fetchSkillRequest_shown _ _ _ _ Hl) as (_ & Hid & _).
  rewrite Hid in Hins.
  apply insert_rating_passed in Hins
    as (_ & _ & _ & Hkey & _ & _ & _ & Ht).
  set (NEW := {| ratings.id := fresh |}) in *.
  pose proof (update_profile_stats_frame _ _ _ _ _ Ht) as Hframe.
  assert (Hrq : tbl_skill_requests db1 = tbl_skill_requests db)
    by (by rewrite Hframe).
  assert (Hro : tbl_user_roles db1 = tbl_user_roles db)
    by (by rewrite Hframe).
  assert (Hra : tbl_ratings db1 = tbl_ratings db ++ [NEW])
    by (by rewrite Hframe).
  split.
  - revert Hl. unfold Rate.fetchSkillRequest.
    assert (visible_requests db1 user = visible_requests db user) as ->.
    { unfold visible_requests, policy.skill_requests_select, is_admin.
      by rewrite Hrq, Hro. }
    destruct (filter _ (visible_requests db user)) as [|r [|]]; try done.
    destruct (_ && _); [done|]. intros _.
    rewrite Hra, !filter_app.
    rewrite (filter_none _ (filter _ (tbl_ratings db))).
    2:{ intros x [_ Hx]%list_elem_of_filter [Hrid Hrat]. apply Hkey.
        apply list_elem_of_fmap. exists x. split; [|done].
        unfold rating_key. by rewrite Hrid, Hrat. }
    rewrite (filter_cons_True _ NEW).
    2:{ apply Is_true_true. unfold policy.ratings_select. cbn.
        by rewrite bool_decide_true. }
    rewrite filter_nil. rewrite filter_cons_True by done. done.
  - intros other Hother. apply fetchSkillRequest_reads; try done.
    rewrite Hra, filter_app. rewrite (filter_cons_False _ NEW).
    + by rewrite filter_nil, app_nil_r.
    + cbn. intros [_ ?]. congruence.
Qed.

Lemma rating_closes_the_page_for_its_rater_witness :
  Rate.fetchSkillRequest "alice" "r1" rated_db = Rate.already_rated
  ∧ ∀ other, other ≠ "alice" →
      Rate.fetchSkillRequest other "r1" rated_db
      = Rate.fetchSkillRequest other "r1" completed_db.
Proof.
  apply (rating_closes_the_page_for_its_rater "alice" "r1" 5 " great " 9 "g1"
           completed_db rated_db).
  vm_compute. reflexivity.
Defined.



(** ** Bans *)

Ltac tables_lifted :=
  cbn [lift_bans auth_users tbl_profiles tbl_user_roles tbl_skills
       tbl_skill_requests tbl_ratings tbl_messages set_profiles
       set_skill_requests set_ratings set_messages] in *.

Lemma lift_bans_reads (db : database) :
  auth_users (lift_bans db) = auth_users db
  ∧ tbl_user_roles (lift_bans db) = tbl_user_roles db
  ∧ tbl_skills (lift_bans db) = tbl_skills db
  ∧ tbl_skill_requests (lift_bans db) = tbl_skill_requests db
  ∧ tbl_ratings (lift_bans db) = tbl_ratings db
  ∧ tbl_messages (lift_bans db) = tbl_messages db
  ∧ profiles.user_id <$> tbl_profiles (lift_bans db)
    = profiles.user_id <$> tbl_profiles db.
Proof.
  repeat split. tables_lifted.
  apply (fmap_preserved profiles.user_id lift_ban). intros p. reflexivity.
Qed.

(** The trigger does not read [is_banned], and does not write it. *)
Lemma update_profile_stats_lifted (now : timestamptz) (uid : uuid)
    (NEW : ratings.row) (db : database) :
  update_profile_stats now uid NEW (lift_bans db)
  = response_map lift_bans (update_profile_stats now uid NEW db).
Proof.
  unfold update_profile_stats. cbv zeta.
  change (ratings_received (lift_bans db)) with (ratings_received db).
  set (reaches := fun p => bool_decide (profiles.user_id p = ratings.rated_id NEW)
                           && policy.profiles_select db uid p
                           && policy.profiles_update db uid p).
  change (existsb _ (tbl_profiles (lift_bans db)))
    with (existsb reaches (lift_ban <$> tbl_profiles db)).
  change (existsb _ (tbl_profiles db)) with (existsb reaches (tbl_profiles db)).
  assert (existsb reaches (lift_ban <$> tbl_profiles db)
          = existsb reaches (tbl_profiles db)) as ->.
  { induction (tbl_profiles db) as [|p ps IH]; [done|].
    rewrite fmap_cons. cbn [existsb]. by rewrite IH. }
  destruct (existsb reaches (tbl_profiles db)); [|done].
  destruct (to_decimal_3_2 _) as [a|]; [|done].
  destruct (to_integer _) as [n|]; [|done].
  cbn [response_map]. f_equal. unfold lift_bans, set_profiles.
  cbn [auth_users tbl_profiles tbl_user_roles tbl_skills tbl_skill_requests
       tbl_ratings tbl_messages].
  f_equal. rewrite <- !list_fmap_compose. apply list_fmap_ext.
  intros i p _. cbn [compose].
  match goal with
  | |- (if ?c then _ else _) = _ => change c with (reaches p)
  end.
  subst reaches. cbv beta.
  by destruct (bool_decide _ && policy.profiles_select db uid p
               && policy.profiles_update db uid p).
Qed.

(** X16.  No statement consults [is_banned].  A statement run in the
    database with every ban lifted gives what it gives in the database as
    it is, with the bans lifted afterwards: the same error when it fails,
    and otherwise the same rows in every table, the flag aside.  A ban
    keeps its user from nothing. *)
Theorem ban_blocks_nothing (now : timestamptz) (s : statement)
    (db : database) :
  execute now s (lift_bans db) = response_map lift_bans (execute now s db).
Proof.
  destruct (lift_bans_reads db) as (Hau & Hro & Hsk & Hrq & Hra & Hms & Hpr).
  destruct s as [new_id n r|uid fresh owner name offering
                |uid fresh requester provider offered wanted msg st
                |uid request st|uid fresh request rater rated score fb
                |uid fresh request sender text|uid owner r]; cbn [execute].
  - unfold handle_new_user. rewrite Hau, Hpr, Hro.
    destruct (bool_decide (new_id ∈ auth_users db)); [done|].
    destruct (bool_decide (new_id ∈ _ <$> tbl_profiles db)); [done|].
    destruct (bool_decide ((new_id, _) ∈ _)); [done|].
    cbn [response_map]. f_equal. unfold lift_bans. tables_lifted.
    by rewrite fmap_app.
  - unfold insert_skill. rewrite Hau, Hsk.
    by repeat destruct (bool_decide _).
  - unfold insert_skill_request. rewrite Hau, Hsk, Hrq.
    destruct (negb _); [done|]. destruct (bool_decide _); [done|].
    by destruct (negb _).
  - rewrite !update_status_ok. done.
  - unfold insert_rating. rewrite Hau, Hrq, Hra.
    destruct (negb _); [done|].
    destruct (negb _); [done|]. destruct (negb _); [done|].
    destruct (_ || _); [done|]. destruct (negb _); [done|].
    apply (update_profile_stats_lifted now uid _
             (set_ratings _ db)).
  - unfold insert_message. rewrite Hrq, Hms.
    change (policy.messages_insert (lift_bans db))
      with (policy.messages_insert db).
    destruct (negb _); [done|]. destruct (bool_decide _); [done|].
    by destruct (negb _).
  - unfold insert_user_role. rewrite Hau, Hro.
    change (policy.user_roles_all (lift_bans db))
      with (policy.user_roles_all db).
    destruct (negb _); [done|]. destruct (bool_decide _); [done|].
    by destruct (negb _).
Qed.

(** The policy of [profiles] looks at the owner of the row, which an update
    leaves: an update of a profile never fails. *)
Lemma update_profile_ok (now : timestamptz) (uid userId : uuid)
    (u : profile_update) (db : database) :
  update_profile now uid userId u db
  = ok (set_profiles
          ((fun p => if update_profile_reaches db uid userId p
                     then with_update u now p else p)
             <$> tbl_profiles db) db).
Proof.
  unfold update_profile.
  replace (forallb _ _) with true; [done|].
  symmetry. apply forallb_forall. intros p _.
  unfold update_profile_reaches.
  change (policy.profiles_update db uid (with_update u now p))
    with (policy.profiles_update db uid p).
  destruct (bool_decide _), (policy.profiles_select _ _ _),
    (policy.profiles_update _ _ _); done.
Qed.

Lemma update_profile_reaches_spec (db : database) (uid userId : uuid)
    (p : profiles.row) :
  update_profile_reaches db uid userId p = true
  ↔ profiles.user_id p = userId ∧ (uid = userId ∨ is_admin db uid = true).
Proof.
  unfold update_profile_reaches, policy.profiles_select,
    policy.profiles_update.
  rewrite !andb_true_iff, !orb_true_iff, !bool_decide_eq_true.
  intuition (subst; auto).
Qed.

(** X17.  The flag [is_banned] is a column like the others to the policy
    "Users can update their own profile": the update that [handleUnbanUser]
    sends goes through for the owner of the profile as it does for an
    admin.  Run by a banned user for themself, it shows "User Unbanned" and
    leaves no profile of the user banned. *)
Theorem ban_lifted_by_the_banned (now : timestamptz) (user : uuid)
    (userName : string) (db : database) :
  ∃ t db',
    Admin.handleUnbanUser now user user userName db = (t, db')
    ∧ title t = "User Unbanned"%string
    ∧ (∀ p, p ∈ tbl_profiles db' → profiles.user_id p = user →
         profiles.is_banned p = false)
    ∧ (∀ p, p ∈ tbl_profiles db → profiles.user_id p ≠ user →
         p ∈ tbl_profiles db').
Proof.
  unfold Admin.handleUnbanUser. rewrite update_profile_ok.
  eexists _, _. split; [done|]. split; [done|]. tables. split.
  - intros p' (p & -> & Hp)%list_elem_of_fmap Hid.
    destruct (update_profile_reaches db user user p) eqn:E; [done|].
    assert (update_profile_reaches db user user p = true); [|congruence].
    apply update_profile_reaches_spec. auto.
  - intros p Hp Hid. apply list_elem_of_fmap. exists p. split; [|done].
    destruct (update_profile_reaches db user user p) eqn:E; [|done].
    by apply update_profile_reaches_spec in E as [? _].
Qed.

(** X18.  A ban sent by someone who is neither an admin nor the user to be
    banned changes nothing, and is not reported as a failure: the update
    reaches no row, which is no error, and [handleBanUser] shows "User
    Banned". *)
Theorem ban_by_non_admin_is_silent (now : timestamptz) (user userId : uuid)
    (userName : string) (db : database) :
  is_admin db user = false →
  user ≠ userId →
  Admin.handleBanUser now user userId userName db
  = ({| title := "User Banned";
        description := userName +:+ " has been banned from the platform.";
        destructive := true |}, db).
Proof.
  intros Ha Hu. unfold Admin.handleBanUser. rewrite update_profile_ok.
  match goal with
  | |- context [?f <$> tbl_profiles db] =>
      assert (f <$> tbl_profiles db = tbl_profiles db) as ->
  end.
  { transitivity (id <$> tbl_profiles db); [|apply list_fmap_id].
    apply list_fmap_ext. intros i p _.
    destruct (update_profile_reaches db user userId p) eqn:E; [|done].
    apply update_profile_reaches_spec in E as [_ [?|?]]; congruence. }
  by rewrite set_profiles_same.
Qed.

Lemma ban_by_non_admin_is_silent_witness :
  Admin.handleBanUser 10 "alice" "bob" "Bob" rated_db
  = ({| title := "User Banned";
        description := "Bob has been banned from the platform.";
        destructive := true |}, rated_db).
Proof.
  apply (ban_by_non_admin_is_silent 10 "alice" "bob" "Bob" rated_db).
  - vm_compute. reflexivity.
  - discriminate.
Defined.

(** ** Removal of a skill *)

Lemma NoDup_fmap_filter {A B} (f : A → B) (P : A → Prop)
    `{∀ x, Decision (P x)} (l : list A) :
  NoDup (f <$> l) → NoDup (f <$> filter P l).
Proof.
  induction l as [|x l IH]; [done|]. rewrite fmap_cons.
  intros [Hx Hnd]%NoDup_cons. destruct (decide (P x)).
  - rewrite filter_cons_True by done. rewrite fmap_cons.
    apply NoDup_cons. split; [|by apply IH].
    intros (y & Hy & [_ Hin]%list_elem_of_filter)%list_elem_of_fmap.
    apply Hx. rewrite Hy. by apply list_elem_of_fmap_2.
  - rewrite filter_cons_False by done. by apply IH.
Qed.

Section skill_removal.
Context (uid skillId : uuid) (db : database).

Lemma skill_goes_spec (s : skills.row) :
  skill_goes db uid skillId s = true
  ↔ skills.id s = skillId
    ∧ (uid = skills.user_id s ∨ is_admin db uid = true).
Proof.
  unfold skill_goes, skill_policy.select, skill_policy.delete.
  rewrite !andb_true_iff, !orb_true_iff, !bool_decide_eq_true.
  intuition.
Qed.

Lemma gone_skills_spec (i : uuid) :
  i ∈ gone_skills db uid skillId
  ↔ i = skillId
    ∧ ∃ s, s ∈ tbl_skills db ∧ skills.id s = skillId
           ∧ (uid = skills.user_id s ∨ is_admin db uid = true).
Proof.
  unfold gone_skills. rewrite list_elem_of_fmap. split.
  - intros (s & -> & [Hs%Is_true_true%skill_goes_spec Hin]%list_elem_of_filter).
    destruct Hs as [Hid Hs]. split; [done|]. by exists s.
  - intros (-> & s & Hin & Hid & Hs). exists s. split; [done|].
    apply list_elem_of_filter. split; [|done].
    apply Is_true_true, skill_goes_spec. done.
Qed.

Lemma delete_skill_keys :
  keys_unique db → keys_unique (delete_skill uid skillId db).
Proof.
  unfold keys_unique, delete_skill.
  intros (Hau & Hpr & Hro & Hsk & Hrq & Hra & Hrk & Hms). tables.
  repeat split; try done; by apply NoDup_fmap_filter.
Qed.

Lemma delete_skill_references :
  references_resolve db → references_resolve (delete_skill uid skillId db).
Proof.
  unfold references_resolve, delete_skill.
  intros (Hpr & Hro & Hsk & Hrq & Hra & Hms). tables.
  assert (Hrequest : ∀ i, i ∈ skill_requests.id <$> tbl_skill_requests db →
            (i ∉ gone_requests db uid skillId) →
            i ∈ skill_requests.id
                  <$> filter (fun r => ¬ Is_true
                                (request_cascades db uid skillId r))
                        (tbl_skill_requests db)).
  { intros i (r & -> & Hr)%list_elem_of_fmap Hi.
    apply list_elem_of_fmap_2, list_elem_of_filter. split; [|done].
    intros Hc. apply Hi. unfold gone_requests.
    apply list_elem_of_fmap_2, list_elem_of_filter. done. }
  assert (Hskill : ∀ i, i ∈ skills.id <$> tbl_skills db →
            (i ∉ gone_skills db uid skillId) →
            i ∈ skills.id
                  <$> filter (fun s => ¬ Is_true (skill_goes db uid skillId s))
                        (tbl_skills db)).
  { intros i (s & -> & Hs)%list_elem_of_fmap Hi.
    apply list_elem_of_fmap_2, list_elem_of_filter. split; [|done].
    intros Hc. apply Hi. unfold gone_skills.
    apply list_elem_of_fmap_2, list_elem_of_filter. done. }
  split; [exact Hpr|]. split; [exact Hro|]. split.
  { intros s [_ Hs]%list_elem_of_filter. by apply Hsk. }
  split; [|split].
  - intros r [Hc Hr]%list_elem_of_filter.
    destruct (Hrq r Hr) as (? & ? & Hoff & Hwant).
    split; [done|]. split; [done|].
    unfold request_cascades in Hc. rewrite orb_True, !bool_decide_spec in Hc.
    split; apply Hskill; tauto.
  - intros r [Hc Hr]%list_elem_of_filter.
    destruct (Hra r Hr) as (? & ? & ?). split; [|done]. by apply Hrequest.
  - intros m [Hc Hm]%list_elem_of_filter. apply Hrequest; [|done].
    by apply Hms.
Qed.

End skill_removal.

Lemma delete_skill_senders (uid skillId : uuid) (db : database) :
  senders_are_parties db → senders_are_parties (delete_skill uid skillId db).
Proof.
  unfold senders_are_parties, sent_by_party, delete_skill. intros Hms. tables.
  intros m [Hkeep Hm]%list_elem_of_filter.
  destruct (Hms m Hm) as (sr & Hsr & Hid & Hp).
  exists sr. split; [|done]. apply list_elem_of_filter. split; [|done].
  intros Hc. apply Hkeep. rewrite <- Hid. unfold gone_requests.
  apply list_elem_of_fmap_2, list_elem_of_filter. done.
Qed.

Lemma update_profile_schema (now : timestamptz) (uid userId : uuid)
    (u : profile_update) (db db' : database) :
  update_profile now uid userId u db = ok db' →
  schema_holds db → schema_holds db'.
Proof.
  rewrite update_profile_ok. intros [= <-] (Hk & Hr & Hc).
  assert (Hids : ∀ p, profiles.user_id
                        (if update_profile_reaches db uid userId p
                         then with_update u now p else p)
                      = profiles.user_id p)
    by (intros p; by destruct (update_profile_reaches db uid userId p)).
  split; [|split; [|done]].
  - unfold keys_unique in *. tables. by rewrite fmap_preserved.
  - unfold references_resolve in *. tables.
    destruct Hr as (Hpr & Hrest). split; [|done].
    intros p' (p & -> & Hp)%list_elem_of_fmap. rewrite Hids. by apply Hpr.
Qed.

(** X19.  Updates of profiles and removals of skills keep the schema.  In a
    database where the keys are keys, the references resolve, the ratings
    are between 1 and 5 and every message is from a party to its request,
    all this holds after a delete of a skill and after an update of a
    profile, whoever sends them; for the delete, the cascade is what keeps
    the references of the requests, ratings and messages resolved. *)
Theorem schema_survives_update_and_removal (db : database) :
  schema_holds db → senders_are_parties db →
  (∀ uid skillId,
     schema_holds (delete_skill uid skillId db)
     ∧ senders_are_parties (delete_skill uid skillId db))
  ∧ (∀ now uid userId u db',
       update_profile now uid userId u db = ok db' →
       schema_holds db' ∧ senders_are_parties db').
Proof.
  intros Hschema Hms. split.
  - intros uid skillId. split; [|by apply delete_skill_senders].
    destruct Hschema as (Hk & Hr & Hc). split; [by apply delete_skill_keys|].
    split; [by apply delete_skill_references|].
    intros r [_ Hin]%list_elem_of_filter. by apply Hc.
  - intros now uid userId u db' Hup.
    split; [by eapply update_profile_schema|].
    rewrite update_profile_ok in Hup. by injection Hup as <-.
Qed.

Lemma schema_survives_update_and_removal_witness :
  schema_holds (delete_skill "alice" "s-piano" chat_db)
  ∧ senders_are_parties (delete_skill "alice" "s-piano" chat_db).
Proof.
  assert (Hreach : reachable chat_db)
    by (exists chat_history; vm_compute; reflexivity).
  apply (schema_survives_update_and_removal chat_db).
  - by apply run_schema_holds.
  - by apply run_senders_are_parties.
Defined.

(** X20.  Removing a skill removes the swaps made with it.  When the owner
    of a skill, or an admin, removes it (on the EditProfile page, or by
    "reject" on the Admin page, which send the same delete), the skill is
    gone, and so is every request that offers or wants it, whatever its
    status, with all its ratings and all its messages; the other requests,
    ratings and messages stay.  The profiles are not touched: the
    aggregates of a rated user keep counting the ratings that went. *)
Theorem skill_removal_cascades (user skillId : uuid) (db : database)
    (s : skills.row) :
  NoDup (skills.id <$> tbl_skills db) →
  s ∈ tbl_skills db → skills.id s = skillId →
  user = skills.user_id s ∨ is_admin db user = true →
  ∃ t db',
    EditProfile.removeSkill user skillId db = (t, db')
    ∧ title t = "Skill Removed"%string
    ∧ (∀ title, (Admin.handleRejectSkill user skillId title db).2 = db')
    ∧ (skillId ∉ skills.id <$> tbl_skills db')
    ∧ (∀ r, r ∈ tbl_skill_requests db'
            ↔ r ∈ tbl_skill_requests db
              ∧ skill_requests.offered_skill_id r ≠ skillId
              ∧ skill_requests.wanted_skill_id r ≠ skillId)
    ∧ (∀ x, x ∈ tbl_ratings db'
            ↔ x ∈ tbl_ratings db
              ∧ ∀ r, r ∈ tbl_skill_requests db →
                     skill_requests.id r = ratings.request_id x →
                     r ∈ tbl_skill_requests db')
    ∧ (∀ m, m ∈ tbl_messages db'
            ↔ m ∈ tbl_messages db
              ∧ ∀ r, r ∈ tbl_skill_requests db →
                     skill_requests.id r = messages.skill_request_id m →
                     r ∈ tbl_skill_requests db')
    ∧ tbl_profiles db' = tbl_profiles db.
Proof.
  intros Hnd Hs Hid Hmay.
  eexists _, _. split; [reflexivity|]. split; [done|]. split; [done|].
  assert (Hgone : ∀ i, i ∈ gone_skills db user skillId ↔ i = skillId).
  { intros i. rewrite gone_skills_spec. split; [tauto|].
    intros ->. split; [done|]. by exists s. }
  assert (Hreq : ∀ r, r ∈ tbl_skill_requests (delete_skill user skillId db)
            ↔ r ∈ tbl_skill_requests db
              ∧ skill_requests.offered_skill_id r ≠ skillId
              ∧ skill_requests.wanted_skill_id r ≠ skillId).
  { intros r. unfold delete_skill. tables. rewrite list_elem_of_filter.
    unfold request_cascades.
    rewrite orb_True, !bool_decide_spec, !Hgone. tauto. }
  assert (Hcascade : ∀ i,
            (i ∉ gone_requests db user skillId)
            ↔ ∀ r, r ∈ tbl_skill_requests db → skill_requests.id r = i →
                   r ∈ tbl_skill_requests (delete_skill user skillId db)).
  { intros i. unfold gone_requests. rewrite list_elem_of_fmap. split.
    - intros Hno r Hr Hri. unfold delete_skill. tables.
      apply list_elem_of_filter. split; [|done]. intros Hc. apply Hno.
      exists r. split; [done|]. by apply list_elem_of_filter.
    - intros Hall (r & -> & [Hc Hr]%list_elem_of_filter).
      specialize (Hall r Hr eq_refl). unfold delete_skill in Hall.
      tables. by apply list_elem_of_filter in Hall as [? _]. }
  split.
  { unfold delete_skill. tables.
    intros (s' & Hid' & [Hkeep Hs']%list_elem_of_filter)%list_elem_of_fmap.
    apply Hkeep, Is_true_true, skill_goes_spec.
    assert (s' = s) as -> by (eapply NoDup_fmap_eq; done || congruence).
    done. }
  split; [exact Hreq|]. split; [|split; [|done]].
  - intros x. rewrite <- Hcascade. unfold delete_skill. tables.
    rewrite list_elem_of_filter. tauto.
  - intros m. rewrite <- Hcascade. unfold delete_skill. tables.
    rewrite list_elem_of_filter. tauto.
Qed.

Lemma skill_removal_cascades_witness :
  (∃ t db',
     EditProfile.removeSkill "bob" "s-french" twice_rated_db = (t, db')
     ∧ title t = "Skill Removed"%string
     ∧ (∀ title,
          (Admin.handleRejectSkill "bob" "s-french" title twice_rated_db).2
          = db')
     ∧ ("s-french" ∉ skills.id <$> tbl_skills db')
     ∧ (∀ r, r ∈ tbl_skill_requests db'
             ↔ r ∈ tbl_skill_requests twice_rated_db
               ∧ skill_requests.offered_skill_id r ≠ "s-french"
               ∧ skill_requests.wanted_skill_id r ≠ "s-french")
     ∧ (∀ x, x ∈ tbl_ratings db'
             ↔ x ∈ tbl_ratings twice_rated_db
               ∧ ∀ r, r ∈ tbl_skill_requests twice_rated_db →
                      skill_requests.id r = ratings.request_id x →
                      r ∈ tbl_skill_requests db')
     ∧ (∀ m, m ∈ tbl_messages db'
             ↔ m ∈ tbl_messages twice_rated_db
               ∧ ∀ r, r ∈ tbl_skill_requests twice_rated_db →
                      skill_requests.id r = messages.skill_request_id m →
                      r ∈ tbl_skill_requests db')
     ∧ tbl_profiles db' = tbl_profiles twice_rated_db)
  ∧ length (tbl_ratings twice_rated_db) = 2
  ∧ tbl_ratings (EditProfile.removeSkill "bob" "s-french" twice_rated_db).2
    = []
  ∧ profiles.successful_swaps
      <$> tbl_profiles
            (EditProfile.removeSkill "bob" "s-french" twice_rated_db).2
    = [0%Z; 2%Z].
Proof.
  split.
  - evaluated Hrows (tbl_skills twice_rated_db).
    match type of Hrows with
    | _ = [_; ?s] =>
        apply (skill_removal_cascades "bob" "s-french" twice_rated_db s)
    end.
    + apply (bool_decide_unpack _). vm_compute. exact I.
    + rewrite Hrows. apply list_elem_of_further, list_elem_of_here.
    + reflexivity.
    + left. reflexivity.
  - repeat split; vm_compute; reflexivity.
Defined.

(** ** The role the client holds *)

Section auth_provider.
Import useAuth AuthProvider.
Context (b : backend) (upserts : nat → timed insert_reply).

Lemma role_keys_differ (userId userId' : string) :
  cached_role_key userId ≠ admin_role_key userId'.
Proof. unfold cached_role_key, admin_role_key. cbn. discriminate. Qed.

Lemma truthy_spec (s : option string) :
  truthy s = true ↔ ∃ c, s = Some c ∧ c ≠ ""%string.
Proof.
  destruct s as [c|]; cbn.
  - rewrite negb_true_iff, bool_decide_eq_false. split; [by eauto|].
    by intros (? & [= <-] & ?).
  - split; [done|]. by intros (? & ? & _).
Qed.

(** X21.  A cached role is taken at its word.  With a non-empty value under
    [cached_role_<id>] in the storage, the listener hands that value to
    [setUserRole] at once: no request is sent and no time passes (the
    clock and the count of reads stay as they are, and the role resolution
    writes no line), the storage is not written, and the replies the
    backend would give play no part. *)
Theorem cached_role_is_trusted (u : session_user) (st : state) (c : string) :
  localStorage st !! cached_role_key (id u) = Some c →
  c ≠ ""%string →
  onAuthStateChange b upserts (Some u) st = (returned (Some c), st).
Proof.
  intros Hc Hne. unfold onAuthStateChange, getItem.
  unfold mbind, task_bind at 1. rewrite Hc.
  assert (truthy (Some c) = true) as -> by (apply truthy_spec; eauto).
  done.
Qed.

(** X22.  The debug button of the Index page makes an admin of the client:
    after [debugSetAdminRole], the listener resolves ['admin'] for the user
    whatever the backend replies, and [isAdmin] holds. *)
Theorem debug_button_makes_admin (u : session_user) (st : state) :
  ∃ st',
    debugSetAdminRole (Some (id u)) st = (returned tt, st')
    ∧ onAuthStateChange b upserts (Some u) st'
      = (returned (Some "admin"%string), st')
    ∧ isAdmin (Some "admin"%string) = true.
Proof.
  eexists. split; [reflexivity|]. split; [|done].
  unfold onAuthStateChange, getItem.
  unfold mbind, task_bind at 1. cbn [localStorage].
  rewrite lookup_insert_ne by (apply not_eq_sym, role_keys_differ).
  rewrite lookup_insert_eq. done.
Qed.


Lemma fetchUserRole_admin (userId : string) (storage : gmap string string) :
  (fetchUserRole b userId storage).1 = admin →
  (∃ k, reply (select_role b k) = role_row (Some admin))
  ∨ reply (insert_role b) = insert_done.
Proof.
  pose proof (fetchRole_well_resolved b userId storage) as (_ & _ & _ & _ & Ha).
  unfold fetchUserRole.
  destruct (fetchRole b userId (initial storage)) as [[role| |] s];
    cbn [fst snd] in *; try done.
  destruct (clock s <? role_timeout)%N; [|done].
  cbn [fst]. intros ->. by apply Ha.
Qed.

Ltac handler_step :=
  cbn [clock localStorage console reads tick fst snd] in *.

(** What the listener leaves when it has set a role, from the check of the
    metadata on: the role, under the key of the cache; and where the role
    ['admin'] comes from. *)
Lemma from_metadata_leaves (u : session_user) (sent : nat) (st st' : state)
    (r : option string) :
  from_metadata b upserts u sent st = (returned r, st') →
  ∃ role,
    r = Some role ∧ role ≠ ""%string
    ∧ localStorage st' !! cached_role_key (id u) = Some role
    ∧ (role = "admin"%string →
       (∃ n, reply (upserts n) = insert_done)
       ∨ (∃ k, reply (select_role b k) = role_row (Some admin))
       ∨ reply (insert_role b) = insert_done).
Proof.
  unfold from_metadata.
  unfold mbind, mret, task_bind, task_ret, upsert_admin_role, await,
    setItem, await_fetchUserRole.
  assert (Hfetch : ∀ s role s2,
            fetchUserRole b (id u) (localStorage s) = (role, s2) →
            role_name role = "admin"%string →
            (∃ n, reply (upserts n) = insert_done)
            ∨ (∃ k, reply (select_role b k) = role_row (Some admin))
            ∨ reply (insert_role b) = insert_done).
  { intros s role s2 Hf Hadmin. right.
    apply (fetchUserRole_admin (id u) (localStorage s)).
    rewrite Hf. by destruct role. }
  destruct (bool_decide (metadata_role u = Some "admin"%string)).
  - destruct (takes (upserts sent)) as [ms|]; [|done].
    destruct (reply (upserts sent)) eqn:Hrep; handler_step; try done.
    + intros [= <- <-]. exists "admin"%string. handler_step.
      rewrite lookup_insert_eq. repeat split; try done.
      intros _. left. by exists sent.
    + destruct (fetchUserRole b (id u) _) as [role s2] eqn:Hf.
      intros [= <- <-]. exists (role_name role). handler_step.
      rewrite lookup_insert_eq. split; [done|].
      split; [by destruct role|]. split; [done|]. by eapply Hfetch.
  - destruct (fetchUserRole b (id u) _) as [role s2] eqn:Hf.
    intros [= <- <-]. exists (role_name role). handler_step.
    rewrite lookup_insert_eq. split; [done|].
    split; [by destruct role|]. split; [done|]. by eapply Hfetch.
Qed.

Lemma onAuthStateChange_leaves (u : session_user) (st st' : state)
    (r : option string) :
  onAuthStateChange b upserts (Some u) st = (returned r, st') →
  ∃ role,
    r = Some role ∧ role ≠ ""%string
    ∧ localStorage st' !! cached_role_key (id u) = Some role
    ∧ (role = "admin"%string →
       localStorage st !! cached_role_key (id u) = Some "admin"%string
       ∨ (∃ n, reply (upserts n) = insert_done)
       ∨ (∃ k, reply (select_role b k) = role_row (Some admin))
       ∨ reply (insert_role b) = insert_done).
Proof.
  unfold onAuthStateChange.
  unfold mbind, mret, task_bind, task_ret, getItem, upsert_admin_role, await,
    removeItem, setItem.
  destruct (truthy (localStorage st !! cached_role_key (id u))) eqn:Hc.
  { intros [= <- <-]. apply truthy_spec in Hc as (c & Hc & Hne).
    exists c. rewrite Hc. repeat split; try done. intros ->. by left. }
  assert (Hrest : ∀ s sent,
            from_metadata b upserts u sent s = (returned r, st') →
            ∃ role,
              r = Some role ∧ role ≠ ""%string
              ∧ localStorage st' !! cached_role_key (id u) = Some role
              ∧ (role = "admin"%string →
                 localStorage st !! cached_role_key (id u)
                 = Some "admin"%string
                 ∨ (∃ n, reply (upserts n) = insert_done)
                 ∨ (∃ k, reply (select_role b k) = role_row (Some admin))
                 ∨ reply (insert_role b) = insert_done)).
  { intros s sent (role & ? & ? & ? & Hadmin)%from_metadata_leaves.
    exists role. repeat (split; [done|]). intros ?%Hadmin. by right. }
  destruct (bool_decide (localStorage st !! admin_role_key (id u)
                         = Some "admin"%string)).
  - destruct (takes (upserts 0)) as [ms|]; [|done].
    destruct (reply (upserts 0)) eqn:Hrep; handler_step; try done.
    + intros [= <- <-]. exists "admin"%string. handler_step.
      rewrite lookup_insert_eq. repeat split; try done.
      intros _. right. left. by exists 0.
    + apply Hrest.
  - apply Hrest.
Qed.

(** X23.  The role the listener sets is the role it caches, and the cache
    then answers for the backend.  When the listener has set a role for a
    signed-in user, by whichever of its paths, that role is a non-empty
    string and is in the storage under [cached_role_<id>]; and every later
    auth event of that user gets the same role back with the storage
    unchanged, whatever the backend has come to say in the meantime. *)
Theorem resolved_role_sticks (u : session_user) (st st' : state)
    (r : option string) :
  onAuthStateChange b upserts (Some u) st = (returned r, st') →
  (∃ role, r = Some role ∧ role ≠ ""%string
           ∧ localStorage st' !! cached_role_key (id u) = Some role)
  ∧ ∀ b' upserts' metadata,
      onAuthStateChange b' upserts'
        (Some {| id := id u; metadata_role := metadata |}) st'
      = (returned r, st').
Proof.
  intros (role & -> & Hne & Hc & _)%onAuthStateChange_leaves.
  split; [by exists role|].
  intros b' upserts' metadata.
  unfold onAuthStateChange, getItem.
  unfold mbind, task_bind at 1. cbn [id]. rewrite Hc.
  assert (truthy (Some role) = true) as -> by (apply truthy_spec; eauto).
  done.
Qed.

(** X24.  Where ['admin'] comes from on the client.  When the listener sets
    the role ['admin'], the cache said so, or one of the upserts of an
    admin row went through, or [fetchUserRole] resolved it: a read returned
    an admin row, or the insert of one went through. *)
Theorem client_admin_provenance (u : session_user) (st st' : state)
    (r : option string) :
  onAuthStateChange b upserts (Some u) st = (returned r, st') →
  isAdmin r = true →
  localStorage st !! cached_role_key (id u) = Some "admin"%string
  ∨ (∃ n, reply (upserts n) = insert_done)
  ∨ (∃ k, reply (select_role b k) = role_row (Some admin))
  ∨ reply (insert_role b) = insert_done.
Proof.
  intros (role & -> & _ & _ & Hadmin)%onAuthStateChange_leaves Hr.
  apply bool_decide_eq_true in Hr as [= ->]. by apply Hadmin.
Qed.

End auth_provider.

Lemma cached_role_is_trusted_witness :
  AuthProvider.onAuthStateChange useAuth.failing
    (fun _ => {| useAuth.takes := None; useAuth.reply := useAuth.insert_error |})
    (Some {| AuthProvider.id := "u1"; AuthProvider.metadata_role := None |})
    (useAuth.initial {[ AuthProvider.cached_role_key "u1" := "admin"%string ]})
  = (useAuth.returned (Some "admin"%string),
     useAuth.initial {[ AuthProvider.cached_role_key "u1" := "admin"%string ]}).
Proof.
  apply cached_role_is_trusted.
  - apply lookup_singleton_eq.
  - discriminate.
Defined.

Lemma resolved_role_sticks_witness :
  ∃ st',
    AuthProvider.onAuthStateChange useAuth.failing
      (fun _ => {| useAuth.takes := None;
                   useAuth.reply := useAuth.insert_error |})
      (Some {| AuthProvider.id := "u1"; AuthProvider.metadata_role := None |})
      (useAuth.initial ∅)
    = (useAuth.returned (Some "user"%string), st')
    ∧ useAuth.reads st' = 6
    ∧ ∀ b' upserts' metadata,
        AuthProvider.onAuthStateChange b' upserts'
          (Some {| AuthProvider.id := "u1";
                   AuthProvider.metadata_role := metadata |}) st'
        = (useAuth.returned (Some "user"%string), st').
Proof.
  evaluated Hrun
    (AuthProvider.onAuthStateChange useAuth.failing
       (fun _ => {| useAuth.takes := None;
                    useAuth.reply := useAuth.insert_error |})
       (Some {| AuthProvider.id := "u1"; AuthProvider.metadata_role := None |})
       (useAuth.initial ∅)).
  match type of Hrun with _ = (_, ?s) => exists s end.
  split; [exact Hrun|]. split; [reflexivity|].
  exact (proj2 (resolved_role_sticks _ _ _ _ _ _ Hrun)).
Defined.

Lemma client_admin_provenance_witness :
  (useAuth.initial {[ useAuth.admin_role_key "u1" := "admin"%string ]}
     : useAuth.state).(useAuth.localStorage)
    !! AuthProvider.cached_role_key "u1" = Some "admin"%string
  ∨ (∃ n, useAuth.reply
            ((fun _ : nat => {| useAuth.takes := Some 100%N;
                                useAuth.reply := useAuth.insert_done |}) n)
          = useAuth.insert_done)
  ∨ (∃ k, useAuth.reply (useAuth.select_role useAuth.failing k)
          = useAuth.role_row (Some admin))
  ∨ useAuth.reply (useAuth.insert_role useAuth.failing) = useAuth.insert_done.
Proof.
  evaluated Hrun
    (AuthProvider.onAuthStateChange useAuth.failing
       (fun _ => {| useAuth.takes := Some 100%N;
                    useAuth.reply := useAuth.insert_done |})
       (Some {| AuthProvider.id := "u1"; AuthProvider.metadata_role := None |})
       (useAuth.initial {[ useAuth.admin_role_key "u1" := "admin"%string ]})).
  exact (client_admin_provenance _ _ _ _ _ _ Hrun eq_refl).
Defined.

(** X25.  Signing out forgets the role.  [signOut], like [clearRoleCache],
    removes the cached role and the admin intent of the user from the
    storage and leaves every other key; the next auth event of the user,
    whatever the metadata say of the role short of ['admin'] (nothing,
    ['user'] as [signUp] writes it, or anything else), finds no cache and
    sets the role that [fetchUserRole] resolves against the backend. *)
Theorem sign_out_forgets_role (userId : string) (st : useAuth.state) :
  ∃ st',
    AuthProvider.signOut (Some userId) st = (useAuth.returned tt, st')
    ∧ AuthProvider.clearRoleCache userId st = (useAuth.returned tt, st')
    ∧ useAuth.localStorage st' !! AuthProvider.cached_role_key userId = None
    ∧ useAuth.localStorage st' !! useAuth.admin_role_key userId = None
    ∧ (∀ k, k ≠ AuthProvider.cached_role_key userId →
            k ≠ useAuth.admin_role_key userId →
            useAuth.localStorage st' !! k = useAuth.localStorage st !! k)
    ∧ ∀ b upserts metadata,
        metadata ≠ Some "admin"%string →
        ∃ st'',
        AuthProvider.onAuthStateChange b upserts
          (Some {| AuthProvider.id := userId;
                   AuthProvider.metadata_role := metadata |}) st'
        = (useAuth.returned
             (Some (AuthProvider.role_name
                      (useAuth.fetchUserRole b userId
                         (useAuth.localStorage st')).1)), st'').
Proof.
  eexists. split; [reflexivity|]. split; [reflexivity|].
  cbn [useAuth.localStorage].
  assert (Hc : delete (useAuth.admin_role_key userId)
                 (delete (AuthProvider.cached_role_key userId)
                    (useAuth.localStorage st))
               !! AuthProvider.cached_role_key userId = None).
  { rewrite lookup_delete_ne by (apply not_eq_sym, role_keys_differ).
    apply lookup_delete_eq. }
  assert (Ha : delete (useAuth.admin_role_key userId)
                 (delete (AuthProvider.cached_role_key userId)
                    (useAuth.localStorage st))
               !! useAuth.admin_role_key userId = None)
    by apply lookup_delete_eq.
  split; [exact Hc|]. split; [exact Ha|]. split.
  { intros k Hk1 Hk2. by rewrite !lookup_delete_ne. }
  intros b upserts metadata Hmeta.
  unfold AuthProvider.onAuthStateChange, AuthProvider.from_metadata,
    useAuth.getItem, AuthProvider.await_fetchUserRole, AuthProvider.setItem.
  unfold mbind, mret, useAuth.task_bind, useAuth.task_ret.
  cbn [useAuth.localStorage AuthProvider.id AuthProvider.metadata_role].
  rewrite Hc. cbn [AuthProvider.truthy useAuth.localStorage].
  rewrite Ha. rewrite !bool_decide_false by done.
  cbn [useAuth.localStorage].
  destruct (useAuth.fetchUserRole b userId _) as [role s2].
  eexists. reflexivity.
Qed.

(** ** The Express prototype, once more *)

Lemma canonical_idempotent (i : string) :
  swapController.canonical (swapController.canonical i)
  = swapController.canonical i.
Proof.
  unfold swapController.canonical.
  rewrite list_ascii_of_string_of_list_ascii, <- list_fmap_compose.
  f_equal. apply list_fmap_ext. intros _ c _. cbn [compose].
  by destruct c as [[|] [|] [|] [|] [|] [|] [|] [|]].
Qed.

(** X26.  A swap request that [createSwapRequest] has saved cannot be sent
    a second time: after a 201, the same call (the same user, recipient and
    skills, with any message) is answered with 400 "You already have a
    pending request for this swap" and saves nothing.  A 201 also tells
    that the recipient exists, that the requester offers the offered skill
    and the recipient the requested one, and that the saved request is
    pending. *)
Theorem createSwapRequest_once (req_user recipient : string)
    (offeredSkill requestedSkill : string) (message message' : option string)
    (s s' : swapController.store) (saved : swapController.SwapRequest) :
  swapController.createSwapRequest req_user recipient offeredSkill
    requestedSkill message s = (swapController.status_201 saved, s') →
  swapController.createSwapRequest req_user recipient offeredSkill
    requestedSkill message' s'
  = (swapController.status_400
       "You already have a pending request for this swap", s')
  ∧ swapController.swaps s' = swapController.swaps s ++ [saved]
  ∧ swapController.users s' = swapController.users s
  ∧ swapController.status saved = pending
  ∧ (∃ requester recipientUser,
       swapController.findById s req_user = Some requester
       ∧ swapController.findById s recipient = Some recipientUser
       ∧ offeredSkill ∈ swapController.skillsOffered requester
       ∧ requestedSkill ∈ swapController.skillsOffered recipientUser).
Proof.
  unfold swapController.createSwapRequest.
  destruct (negb (swapController.castable recipient)); [done|].
  destruct (swapController.findById s recipient) as [recipientUser|] eqn:Hrc;
    [|done].
  destruct (swapController.findById s req_user) as [requester|] eqn:Hrq;
    [|done].
  destruct (bool_decide (offeredSkill ∈ _)) eqn:Hoff; [|done].
  destruct (bool_decide (requestedSkill ∈ _)) eqn:Hwant; [|done].
  cbn [negb].
  destruct (swapController.findOne_pending s _ _ _ _) eqn:Hnone; [done|].
  intros [= <- <-].
  apply bool_decide_eq_true in Hoff, Hwant.
  split; [|by eauto 10].
  change (swapController.findById
            {| swapController.users := swapController.users s;
               swapController.swaps := _ |} ?i)
    with (swapController.findById s i).
  rewrite Hrc, Hrq, !bool_decide_true by done. cbn [negb].
  destruct (swapController.findOne_pending
              {| swapController.users := _ |} _ _ _ _) eqn:Hfound; [done|].
  exfalso. unfold swapController.findOne_pending in Hfound.
  apply head_None in Hfound. cbn [swapController.swaps] in Hfound.
  rewrite filter_app in Hfound. apply app_eq_nil in Hfound as [_ Hfound].
  rewrite filter_cons_True in Hfound; [done|].
  cbn [swapController.requester swapController.recipient
       swapController.offeredSkill swapController.requestedSkill
       swapController.status].
  by rewrite canonical_idempotent.
Qed.

Lemma createSwapRequest_once_witness :
  let s := {| swapController.users :=
                [{| swapController._id := "64b7f3a2c1d4e5f601234501";
                    swapController.skillsOffered := ["Piano"] |};
                 {| swapController._id := "64b7f3a2c1d4e5f601234502";
                    swapController.skillsOffered := ["French"] |}];
              swapController.swaps := [] |} in
  ∃ s',
    (swapController.createSwapRequest "64b7f3a2c1d4e5f601234501" "64b7f3a2c1d4e5f601234502" "Piano" "French" None s).2 = s'
    ∧ swapController.createSwapRequest "64b7f3a2c1d4e5f601234501" "64b7f3a2c1d4e5f601234502" "Piano" "French"
        (Some "again") s'
      = (swapController.status_400
           "You already have a pending request for this swap", s').
Proof.
  intros s.
  evaluated Hrun
    (swapController.createSwapRequest "64b7f3a2c1d4e5f601234501" "64b7f3a2c1d4e5f601234502" "Piano" "French" None s).
  match type of Hrun with _ = (_, ?d) => exists d end.
  split; [by rewrite Hrun|].
  exact (proj1 (createSwapRequest_once _ _ _ _ _ (Some "again") _ _ _ Hrun)).
Defined.

(** ** Browse *)

Lemma filter_fmap_through {A B} (f : A → B) (P : B → Prop) (Q : A → Prop)
    `{∀ y, Decision (P y)} `{∀ x, Decision (Q x)} (l : list A) :
  (∀ x, P (f x) ↔ Q x) → filter P (f <$> l) = f <$> filter Q l.
Proof.
  intros Hf. induction l as [|x l IH]; [done|].
  rewrite fmap_cons. destruct (decide (Q x)) as [Hx|Hx].
  - rewrite (filter_cons_True P (f x)) by (by apply Hf).
    rewrite (filter_cons_True Q x) by done.
    by rewrite fmap_cons, IH.
  - rewrite (filter_cons_False P (f x)) by (by rewrite Hf).
    by rewrite (filter_cons_False Q x).
Qed.

(** X27.  A profile made private leaves Browse, and a ban keeps it there.
    After the owner has switched "public" off on the EditProfile page,
    Browse lists to every user, admins included, what it listed before
    without the owner.  The flag [is_banned] plays no part in the listing:
    with every ban lifted, Browse lists the same users. *)
Theorem private_profile_leaves_browse (now : timestamptz) (owner : uuid)
    (db : database) :
  (∃ t db',
     EditProfile.updateProfile now owner
       {| set_full_name := None; set_is_public := Some false;
          set_is_banned := None |} db = (t, db')
     ∧ destructive t = false
     ∧ ∀ viewer,
         Browse.fetchUsers viewer db'
         = filter (fun e => profiles.user_id e.1 ≠ owner)
                  (Browse.fetchUsers viewer db))
  ∧ (∀ viewer,
       (fun e => profiles.user_id e.1) <$> Browse.fetchUsers viewer (lift_bans db)
       = (fun e => profiles.user_id e.1) <$> Browse.fetchUsers viewer db).
Proof.
  split.
  - unfold EditProfile.updateProfile. rewrite update_profile_ok.
    eexists _, _. split; [done|]. split; [done|].
    intros viewer. unfold Browse.fetchUsers. tables.
    match goal with
    | |- ?g <$> filter ?P (filter ?Q (_ <$> _)) = _ =>
        change Q with (fun p => Is_true (policy.profiles_select db viewer p));
        change g with
          (fun p =>
             (p, filter (fun s => skills.user_id s = profiles.user_id p
                                  ∧ skills.is_approved s = true)
                        (filter (fun s => Is_true
                                   (skill_policy.select db viewer s))
                                (tbl_skills db))))
    end.
    rewrite !list_filter_filter.
    rewrite (filter_fmap_hit _ (update_profile_reaches db owner owner)).
    2:{ intros p [[Hpub _] _]. done. }
    rewrite (filter_fmap_through _ (fun e => profiles.user_id e.1 ≠ owner)
               (fun p => profiles.user_id p ≠ owner)) by done.
    f_equal. apply list_filter_iff. intros p.
    rewrite <- not_true_iff_false, update_profile_reaches_spec. 
    split.
    + intros Hno Hid. apply Hno. auto.
    + intros Hid [? _]. done.
  - intros viewer. unfold Browse.fetchUsers, lift_bans. tables.
    match goal with
    | |- _ <$> (?g <$> filter ?P (filter ?Q (_ <$> _))) = _ =>
        change Q with (fun p => Is_true (policy.profiles_select db viewer p))
    end.
    rewrite <- !list_fmap_compose.
    rewrite !list_filter_filter.
    rewrite (filter_fmap_through lift_ban _
               (fun p => (profiles.is_public p = true
                          ∧ profiles.user_id p ≠ viewer)
                         ∧ Is_true (policy.profiles_select db viewer p)))
      by done.
    rewrite <- list_fmap_compose. by apply list_fmap_ext.
Qed.

(** ** From the form to the lists *)



(** ** Adding and removing a skill *)

Lemma filter_all {A} (P : A → Prop) `{∀ x, Decision (P x)} (l : list A) :
  (∀ x, x ∈ l → P x) → filter P l = l.
Proof.
  induction l as [|a l IH]; intros Hl; [done|].
  rewrite filter_cons_True by (apply Hl, list_elem_of_here).
  f_equal. apply IH. intros x Hx. apply Hl. by apply list_elem_of_further.
Qed.

(** X29.  A skill added on the EditProfile page and removed again leaves
    the database as it was: in a database whose references resolve, after
    "Skill Added" the removal of the new skill by its owner takes away that
    row and nothing else, no request, rating or message going with it. *)
Theorem skill_added_then_removed (user fresh : uuid) (skill_title : string)
    (skill_category : option EditProfile.category) (is_offering : bool)
    (db db' : database) (t : toast) :
  references_resolve db →
  EditProfile.addSkill (Some user) fresh skill_title skill_category
    is_offering db = (t, db') →
  title t = "Skill Added"%string →
  EditProfile.removeSkill user fresh db'
  = ({| title := "Skill Removed";
        description := "Your skill has been removed successfully.";
        destructive := false |}, db).
Proof.
  intros (_ & _ & _ & Hrq & _) Hadd Ht. unfold EditProfile.addSkill in Hadd.
  cbv zeta in Hadd. destruct (_ || _); [by injection Hadd as <- <-|].
  destruct (insert_skill _ _ _ _ _ _) as [db1|e] eqn:Hins;
    [|by injection Hadd as <- <-].
  injection Hadd as _ <-.
  apply insert_skill_ok in Hins as (_ & Hfresh & _ & ->).
  unfold EditProfile.removeSkill. f_equal.
  set (NEW := {| skills.id := fresh |}).
  set (db1 := {| auth_users := auth_users db;
                 tbl_skills := tbl_skills db ++ [NEW] |}).
  assert (Hgoes : ∀ s, s ∈ tbl_skills db → ¬ Is_true (skill_goes db1 user fresh s)).
  { intros s Hs Hg. apply Is_true_true, skill_goes_spec in Hg as [Hid _].
    apply Hfresh. rewrite <- Hid. by apply list_elem_of_fmap_2. }
  assert (Hnew : Is_true (skill_goes db1 user fresh NEW)).
  { apply Is_true_true, skill_goes_spec. split; [done|]. by left. }
  assert (Hgone : gone_skills db1 user fresh = [fresh]).
  { unfold gone_skills. subst db1. tables. rewrite filter_app.
    rewrite filter_none by (intros s Hs Hg; by apply (Hgoes s)).
    by rewrite filter_cons_True. }
  assert (Hcascade : ∀ r, r ∈ tbl_skill_requests db →
            ¬ Is_true (request_cascades db1 user fresh r)).
  { intros r Hr. unfold request_cascades. rewrite Hgone.
    rewrite orb_True, !bool_decide_spec, !list_elem_of_singleton.
    destruct (Hrq r Hr) as (_ & _ & Hoff & Hwant).
    intros [Heq|Heq]; apply Hfresh; by rewrite <- Heq. }
  assert (Hnone : gone_requests db1 user fresh = []).
  { unfold gone_requests. subst db1. tables.
    rewrite filter_none; [done|]. intros r Hr Hc. by apply (Hcascade r). }
  unfold delete_skill. rewrite Hnone. subst db1. tables.
  rewrite filter_app, (filter_all _ (tbl_skills db)) by done.
  rewrite filter_cons_False by (by intros Hn; apply Hn).
  rewrite filter_nil, app_nil_r.
  rewrite (filter_all _ (tbl_skill_requests db)) by done.
  rewrite !filter_all by (intros; apply not_elem_of_nil).
  by destruct db.
Qed.

Lemma skill_added_then_removed_witness :
  ∃ db',
    (EditProfile.addSkill (Some "bob") "s-go" "Go" (Some EditProfile.sports) true
       rated_db).2 = db'
    ∧ length (tbl_skills db') = 3
    ∧ (EditProfile.removeSkill "bob" "s-go" db').2 = rated_db.
Proof.
  evaluated Hadd
    (EditProfile.addSkill (Some "bob") "s-go" "Go" (Some EditProfile.sports) true
       rated_db).
  match type of Hadd with _ = (_, ?d) => exists d end.
  split; [by rewrite Hadd|]. split; [reflexivity|].
  assert (Hreach : reachable rated_db)
    by (exists rated_history; vm_compute; reflexivity).
  by rewrite (skill_added_then_removed _ _ _ _ _ _ _ _
                (run_references_resolve _ Hreach) Hadd eq_refl).
Defined.

(** ** The manual fix of the admin role *)

Section fix_admin_role.
Import useAuth AuthProvider.
Context (b : backend) (upserts : nat → timed insert_reply).

(** X30.  [fixAdminRole] never rejects, and it answers [true] on the word
    of the backend only: when it returns [true], the read of the role row
    returned an admin row or the upsert of one went through, ['admin'] is
    cached for the user, and every later auth event of the user resolves
    ['admin'] from the cache, whatever the backend says then.  When it
    returns [false], the read did not return an admin row and the storage
    is as it was. *)
Theorem fixAdminRole_fixes (userId : string) (st : state) :
  (fixAdminRole b upserts userId st).1 ≠ thrown
  ∧ ∀ fixed st',
      fixAdminRole b upserts userId st = (returned fixed, st') →
      if fixed then
        (reply (select_role b (reads st)) = role_row (Some admin)
         ∨ reply (upserts 0) = insert_done)
        ∧ localStorage st'
          = <[cached_role_key userId := "admin"%string]> (localStorage st)
        ∧ ∀ b' upserts' metadata,
            onAuthStateChange b' upserts'
              (Some {| id := userId; metadata_role := metadata |}) st'
            = (returned (Some "admin"%string), st')
      else
        reply (select_role b (reads st)) ≠ role_row (Some admin)
        ∧ localStorage st' = localStorage st.
Proof.
  assert (Hhit : ∀ s b' upserts' metadata,
            onAuthStateChange b' upserts'
              (Some {| id := userId; metadata_role := metadata |})
              (setItem (cached_role_key userId) "admin" s).2
            = (returned (Some "admin"%string),
               (setItem (cached_role_key userId) "admin" s).2)).
  { intros s b' upserts' metadata. unfold onAuthStateChange, getItem.
    unfold mbind, task_bind at 1. cbn [setItem snd localStorage id].
    by rewrite lookup_insert_eq. }
  unfold fixAdminRole, try_catch, mbind, task_bind, select_user_role,
    upsert_admin_role, await, mret, task_ret.
  destruct (select_role b (reads st)) as [[ms|] [[[]|]| |]];
    cbn [takes reply count_read tick clock localStorage reads];
    try destruct (upserts 0) as [[ms'|] []];
    cbn [takes reply setItem fst snd tick clock localStorage reads];
    (split; [done|]); intros fixed st' [= <- <-]; try done;
    cbn [localStorage];
    (split; [by eauto|]); (split; [done|]); intros b' upserts' metadata;
    match goal with
    | |- onAuthStateChange _ _ _ ?s = _ =>
        match s with
        | {| clock := ?c; localStorage := <[_ := _]> ?m;
             console := ?l; reads := ?n |} =>
            apply (Hhit {| clock := c; localStorage := m;
                           console := l; reads := n |})
        end
    end.
Qed.

End fix_admin_role.

Lemma fixAdminRole_fixes_witness :
  ∃ st',
    AuthProvider.fixAdminRole useAuth.failing
      (fun _ => {| useAuth.takes := Some 40%N;
                   useAuth.reply := useAuth.insert_done |})
      "u1" (useAuth.initial ∅) = (useAuth.returned true, st')
    ∧ useAuth.localStorage st' !! AuthProvider.cached_role_key "u1"
      = Some "admin"%string
    ∧ ∀ b' upserts' metadata,
        AuthProvider.onAuthStateChange b' upserts'
          (Some {| AuthProvider.id := "u1";
                   AuthProvider.metadata_role := metadata |}) st'
        = (useAuth.returned (Some "admin"%string), st').
Proof.
  set (upserts := fun _ : nat =>
         {| useAuth.takes := Some 40%N;
            useAuth.reply := useAuth.insert_done |}).
  evaluated Hrun
    (AuthProvider.fixAdminRole useAuth.failing upserts "u1"
       (useAuth.initial ∅)).
  match type of Hrun with _ = (_, ?s) => exists s end.
  split; [exact Hrun|].
  destruct (fixAdminRole_fixes useAuth.failing upserts "u1"
              (useAuth.initial ∅)) as [_ Hfix].
  destruct (Hfix _ _ Hrun) as (_ & Hstore & Hlater).
  split; [|exact Hlater]. rewrite Hstore. apply lookup_insert_eq.
Defined.
